(** * scrape_news: a shallow embedding of the news-scraping command

    The development follows
    [news/management/commands/scrape_news.py] and [news/models.py].
    Python text is a [string], Python integers are [Z], Python objects
    decoded from JSON are the inductive type [Py.value], exceptions are
    values of [Py.exn] threaded through a small state-and-exception
    monad, and everything the command obtains from outside the process
    (environment, HTTP, HTML parsing, the generative model, the JSON and
    URL libraries, the persistence layer) is a field of [World]. *)

From Stdlib Require Import ZArith List String Ascii Bool Lia DecimalString.
From Stdlib Require Import DecimalPos DecimalZ.
Import ListNotations.

Set Warnings "-register-all".

Local Open Scope string_scope.
Local Open Scope Z_scope.

(* ================================================================= *)
(** ** Python values, text operations and exceptions *)

Module Py.

(** Objects as [json.loads] produces them.  A [dict] keeps its keys in
    insertion order; a float is kept as its literal. *)
Inductive value : Type :=
| VNone
| VBool (b : bool)
| VInt (n : Z)
| VFloat (lit : string)
| VStr (s : string)
| VList (items : list value)
| VDict (entries : list (string * value)).

(** [d.get(key)] on a dict given by its entries. *)
Fixpoint dict_get (key : string) (entries : list (string * value)) : option value :=
  match entries with
  | [] => None
  | (k, v) :: rest => if String.eqb k key then Some v else dict_get key rest
  end.

Definition len (s : string) : Z := Z.of_nat (String.length s).

(** [s.find(c)] for a one-character [c], counted from [i]: the lowest
    index of [c], or [-1]. *)
Fixpoint find_from (c : ascii) (s : string) (i : Z) : Z :=
  match s with
  | EmptyString => -1
  | String a rest => if Ascii.eqb a c then i else find_from c rest (i + 1)
  end.

Definition find (c : ascii) (s : string) : Z := find_from c s 0.

(** [s.rfind(c)]: the highest index of [c], or [-1]. *)
Fixpoint rfind_from (c : ascii) (s : string) (i : Z) : Z :=
  match s with
  | EmptyString => -1
  | String a rest =>
      let later := rfind_from c rest (i + 1) in
      if later =? -1 then (if Ascii.eqb a c then i else -1) else later
  end.

Definition rfind (c : ascii) (s : string) : Z := rfind_from c s 0.

(** A slice bound as Python normalises it: a negative bound counts from
    the end, and the result is clamped to [0 .. len]. *)
Definition clamp (n : Z) (i : Z) : Z :=
  if i <? 0 then Z.max 0 (i + n) else Z.min i n.

(** [s[lo:hi]]. *)
Definition slice (s : string) (lo hi : Z) : string :=
  let lo' := clamp (len s) lo in
  let hi' := clamp (len s) hi in
  if lo' <? hi' then String.substring (Z.to_nat lo') (Z.to_nat (hi' - lo')) s
  else EmptyString.

(** [str(n)] for an integer. *)
Definition str_of_int (n : Z) : string := NilZero.string_of_int (Z.to_int n).

(** Truth value of [x] where [x] is [None] or a [str]. *)
Definition truthy (x : option string) : bool :=
  match x with
  | None => false
  | Some s => negb (String.eqb s EmptyString)
  end.

(** ASCII lower-casing, for case-insensitive comparison. *)
Definition lower_ascii (a : ascii) : ascii :=
  let n := N_of_ascii a in
  if ((65 <=? n) && (n <=? 90))%N then ascii_of_N (n + 32) else a.

Fixpoint lower (s : string) : string :=
  match s with
  | EmptyString => EmptyString
  | String a rest => String (lower_ascii a) (lower rest)
  end.

(** The exception classes the command can meet. *)
Inductive exn_class : Type :=
| Exception
| ValueError
| TypeError
| JSONDecodeError
| PydanticValidationError
| RequestException
| HTTPError
| ConnectionError
| SelectorSyntaxError
| DoesNotExist
| MultipleObjectsReturned
| DjangoValidationError
| IntegrityError
| OperationalError.

Definition exn_class_eqb (a b : exn_class) : bool :=
  match a, b with
  | Exception, Exception | ValueError, ValueError | TypeError, TypeError
  | JSONDecodeError, JSONDecodeError
  | PydanticValidationError, PydanticValidationError
  | RequestException, RequestException | HTTPError, HTTPError
  | ConnectionError, ConnectionError
  | SelectorSyntaxError, SelectorSyntaxError
  | DoesNotExist, DoesNotExist
  | MultipleObjectsReturned, MultipleObjectsReturned
  | DjangoValidationError, DjangoValidationError
  | IntegrityError, IntegrityError
  | OperationalError, OperationalError => true
  | _, _ => false
  end.

(** The direct base class, [None] for the root [Exception]. *)
Definition base (c : exn_class) : option exn_class :=
  match c with
  | Exception => None
  | JSONDecodeError => Some ValueError
  | PydanticValidationError => Some ValueError
  | HTTPError => Some RequestException
  | ConnectionError => Some RequestException
  | _ => Some Exception
  end.

(** [issubclass(c, d)]; the hierarchy above has depth two. *)
Definition issubclass (c d : exn_class) : bool :=
  exn_class_eqb c d
  || match base c with
     | None => false
     | Some c1 =>
         exn_class_eqb c1 d
         || match base c1 with
            | None => false
            | Some c2 => exn_class_eqb c2 d
            end
     end.

Record exn : Type := mkExn { cls : exn_class; msg : string }.

Definition isinstance (e : exn) (c : exn_class) : bool := issubclass (cls e) c.

(** Outcome of a call: a value or a raised exception. *)
Inductive result (A : Type) : Type :=
| Ok (a : A)
| Raise (e : exn).
Arguments Ok {A} a.
Arguments Raise {A} e.

End Py.
Import Py.

(* ================================================================= *)
(** ** news/models.py *)

(** A calendar date, as [datetime.now().date()] returns it. *)
Record date : Type := mkDate { year : Z; month : Z; day : Z }.

Module NewsListPage.
(** The columns of the page tree the command reads: the primary key and
    the [live] flag. *)
Record t : Type := mk { pk : Z; title : string; live : bool }.
End NewsListPage.

Module NewsArticlePage.
(** [parent] is the primary key of the page this one hangs under in the
    page tree, [None] for an instance not yet attached. *)
Record t : Type := mk {
  title : string;
  publication_date : date;
  summary : string;
  source_url : string;
  source_name : string;
  slug : string;
  parent : option Z
}.
End NewsArticlePage.

Module ScrapingSource.
Record t : Type := mk {
  name : string;
  url_to_scrape : string;
  base_url : string;
  html_selector : string;
  is_active : bool
}.
End ScrapingSource.

(* ================================================================= *)
(** ** The pydantic schema of scrape_news.py *)

Module Article.
(** A validated article; [source_url] holds [str(article.source_url)]. *)
Record t : Type := mk { title : string; summary : string; source_url : string }.
End Article.

Module ArticleList.
Record t : Type := mk { articles : list Article.t }.
End ArticleList.

(* ================================================================= *)
(** ** The outside world and the state of a run *)

(** What [requests.get] hands back: [status_error] is the message of
    the [HTTPError] that [raise_for_status] raises, [None] for a
    success status. *)
Record Response : Type := mkResponse {
  status_error : option string;
  content : string
}.

(** [BeautifulSoup(content, 'html.parser').select_one(selector)]: the
    selector is rejected, or nothing matches, or the first match is
    returned, given here by its [prettify()] text. *)
Inductive Selection : Type :=
| SelectorInvalid (message : string)
| NoMatch
| Match (prettified : string).

(** A [GenerateContentResponse]: its [parts], its [text] accessor
    (which may raise) and the text of its [prompt_feedback]. *)
Record GenerateContentResponse : Type := mkGenResponse {
  parts : list string;
  text : result string;
  prompt_feedback : string
}.

(** An error of the persistence layer during [save()] or [add_child()]. *)
Inductive db_error : Type :=
| ValidationFailed (message : string)
| IntegrityViolated (message : string)
| DatabaseUnavailable (message : string).

Definition exn_of_db_error (d : db_error) : exn :=
  match d with
  | ValidationFailed m => mkExn DjangoValidationError m
  | IntegrityViolated m => mkExn IntegrityError m
  | DatabaseUnavailable m => mkExn OperationalError m
  end.

(** Everything a run obtains from outside.  The HTTP and model oracles
    see the calls made so far, so that two calls with equal arguments may
    answer differently. *)
Record World : Type := mkWorld {
  environ_get : string -> option string;
  requests_get : list string -> string -> string + Response;
  select_one : string -> string -> Selection;
  generate_content : list string -> string -> result GenerateContentResponse;
  json_loads : string -> result value;
  HttpUrl : string -> option string;
  hash : string -> Z;
  today : date;
  save_error : list NewsArticlePage.t -> nat -> NewsArticlePage.t -> option db_error;
  add_child_error : list NewsArticlePage.t -> NewsArticlePage.t -> option db_error
}.

Inductive level : Type := ERROR | INFO.

(** The mutable state of a run: the log stream, the HTTP requests and
    model calls issued so far (oldest first), the key given to
    [genai.configure], and the database tables.  A row's position in
    [articles] stands for its primary key. *)
Record State : Type := mkState {
  logs : list (level * string);
  http_log : list string;
  model_log : list string;
  configured_key : option string;
  sources : list ScrapingSource.t;
  list_pages : list NewsListPage.t;
  articles : list NewsArticlePage.t
}.

Definition set_logs (s : State) (l : list (level * string)) : State :=
  mkState l (http_log s) (model_log s) (configured_key s)
          (sources s) (list_pages s) (articles s).

Definition set_http_log (s : State) (l : list string) : State :=
  mkState (logs s) l (model_log s) (configured_key s)
          (sources s) (list_pages s) (articles s).

Definition set_model_log (s : State) (l : list string) : State :=
  mkState (logs s) (http_log s) l (configured_key s)
          (sources s) (list_pages s) (articles s).

Definition set_configured_key (s : State) (k : option string) : State :=
  mkState (logs s) (http_log s) (model_log s) k
          (sources s) (list_pages s) (articles s).

Definition set_articles (s : State) (l : list NewsArticlePage.t) : State :=
  mkState (logs s) (http_log s) (model_log s) (configured_key s)
          (sources s) (list_pages s) l.

(* ================================================================= *)
(** ** The monad of commands: state and exceptions *)

Definition M (A : Type) : Type := State -> result A * State.

Definition ret {A : Type} (a : A) : M A := fun s => (Ok a, s).

Definition bind {A B : Type} (m : M A) (k : A -> M B) : M B :=
  fun s =>
    match m s with
    | (Ok a, s') => k a s'
    | (Raise e, s') => (Raise e, s')
    end.

Definition raise {A : Type} (e : exn) : M A := fun s => (Raise e, s).

Definition lift {A : Type} (r : result A) : M A := fun s => (r, s).

(** [try: body  except c as e: handler e]. *)
Definition try_except {A : Type} (body : M A) (c : exn_class) (handler : exn -> M A) : M A :=
  fun s =>
    match body s with
    | (Ok a, s') => (Ok a, s')
    | (Raise e, s') => if isinstance e c then handler e s' else (Raise e, s')
    end.

Declare Scope cmd_scope.
Delimit Scope cmd_scope with cmd.
Notation "x <- c1 ;; c2" := (bind c1 (fun x => c2))
  (at level 100, c1 at next level, right associativity) : cmd_scope.
Notation "c1 ;; c2" := (bind c1 (fun _ => c2))
  (at level 100, right associativity) : cmd_scope.
Local Open Scope cmd_scope.

(** [for x in l: body x]. *)
Fixpoint for_each {A : Type} (l : list A) (body : A -> M unit) : M unit :=
  match l with
  | [] => ret tt
  | x :: rest => body x ;; for_each rest body
  end.

Definition logger_error (m : string) : M unit :=
  fun s => (Ok tt, set_logs s (logs s ++ [(ERROR, m)])).

Definition logger_info (m : string) : M unit :=
  fun s => (Ok tt, set_logs s (logs s ++ [(INFO, m)])).

(* ================================================================= *)
(** ** scrape_news.py: the response validator *)

(** [clean_json_response(text)].  [None] is Python's [None]. *)
Definition clean_json_response (text : value) : option string :=
  match text with
  | VStr text =>
      let json_start := find "{"%char text in
      let json_end := rfind "}"%char text in
      if (json_start =? -1) || (json_end =? -1) then None
      else Some (slice text json_start (json_end + 1))
  | _ => None
  end.

Definition rbind {A B : Type} (r : result A) (k : A -> result B) : result B :=
  match r with
  | Ok a => k a
  | Raise e => Raise e
  end.

(** Validation of the items of a list, left to right. *)
Fixpoint validate_each {A B : Type} (f : A -> result B) (l : list A) : result (list B) :=
  match l with
  | [] => Ok []
  | x :: rest =>
      rbind (f x) (fun y => rbind (validate_each f rest) (fun ys => Ok (y :: ys)))
  end.

Definition schema_error (field problem : string) : exn :=
  mkExn PydanticValidationError (field ++ ": " ++ problem).

(** A field annotated [str]: required, and a [str] object (pydantic 2
    in its default mode does not turn numbers or booleans into text; the
    command's [str(article_data.source_url)] is written for that
    version, where a URL is not a [str]). *)
Definition validate_str (field : string) (entries : list (string * value)) : result string :=
  match dict_get field entries with
  | None => Raise (schema_error field "Field required")
  | Some (VStr s) => Ok s
  | Some _ => Raise (schema_error field "Input should be a valid string")
  end.

Section Schema.
Variable w : World.

(** A field annotated [HttpUrl]: required, a [str] object, and accepted
    by the URL type; the result is the [str()] of the validated URL. *)
Definition validate_HttpUrl (field : string) (entries : list (string * value)) : result string :=
  match dict_get field entries with
  | None => Raise (schema_error field "Field required")
  | Some (VStr s) =>
      match HttpUrl w s with
      | Some url => Ok url
      | None => Raise (schema_error field "Input should be a valid URL")
      end
  | Some _ => Raise (schema_error field "URL input should be a string or URL")
  end.

(** Validation of one item against [class Article(BaseModel)]; keys
    other than the three fields are ignored. *)
Definition Article_validate (item : value) : result Article.t :=
  match item with
  | VDict entries =>
      rbind (validate_str "title" entries) (fun title =>
      rbind (validate_str "summary" entries) (fun summary =>
      rbind (validate_HttpUrl "source_url" entries) (fun source_url =>
      Ok (Article.mk title summary source_url))))
  | _ => Raise (schema_error "articles"
                  "Input should be a valid dictionary or instance of Article")
  end.

(** [ArticleList] built from the unpacked [parsed_data]: unpacking needs
    a mapping, and the field [articles: List[Article]] is required and
    must be a list. *)
Definition ArticleList_new (parsed_data : value) : result ArticleList.t :=
  match parsed_data with
  | VDict kwargs =>
      match dict_get "articles" kwargs with
      | None => Raise (schema_error "articles" "Field required")
      | Some (VList items) =>
          rbind (validate_each Article_validate items) (fun validated =>
          Ok (ArticleList.mk validated))
      | Some _ => Raise (schema_error "articles" "Input should be a valid list")
      end
  | _ => Raise (mkExn TypeError "argument after ** must be a mapping")
  end.

End Schema.

(* ================================================================= *)
(** ** scrape_news.py: the command *)

Definition nl : string := String (ascii_of_nat 10) EmptyString.
Definition dquote : string := String (ascii_of_nat 34) EmptyString.
Definition indent : string := "        ".

(** The f-string of [scrape_source]. *)
Definition prompt_of (base_url html_snippet : string) : string :=
  nl ++ indent ++ "Analyze the following HTML content. Extract the 20 most recent articles."
  ++ nl ++ indent ++ "Your response MUST be a single, valid JSON object."
  ++ nl ++ indent ++ "The JSON object must have one key: " ++ dquote ++ "articles" ++ dquote
  ++ ", a list of objects, each with keys: " ++ dquote ++ "title" ++ dquote ++ ", "
  ++ dquote ++ "summary" ++ dquote ++ ", " ++ dquote ++ "source_url" ++ dquote ++ "."
  ++ nl ++ indent ++ "The summary should describe the article as briefly as possible while capturing the main idea."
  ++ nl ++ indent ++ "Resolve all URLs to be absolute, using '" ++ base_url ++ "' as the base."
  ++ nl ++ indent ++ "HTML: " ++ html_snippet
  ++ nl ++ indent.

(** The rows of the article table whose [source_url] is [url], each with
    its position, counted from [i]. *)
Fixpoint rows_with (url : string) (rows : list NewsArticlePage.t) (i : nat)
  : list (nat * NewsArticlePage.t) :=
  match rows with
  | [] => []
  | p :: rest =>
      if String.eqb (NewsArticlePage.source_url p) url
      then (i, p) :: rows_with url rest (S i)
      else rows_with url rest (S i)
  end.

(** The table with row [n] replaced; unchanged when there is no such row. *)
Fixpoint replace_row {A : Type} (n : nat) (x : A) (rows : list A) : list A :=
  match rows, n with
  | [], _ => []
  | _ :: rest, O => x :: rest
  | y :: rest, S n' => y :: replace_row n' x rest
  end.

Definition set_title_summary (p : NewsArticlePage.t) (title summary : string)
  : NewsArticlePage.t :=
  NewsArticlePage.mk title (NewsArticlePage.publication_date p) summary
    (NewsArticlePage.source_url p) (NewsArticlePage.source_name p)
    (NewsArticlePage.slug p) (NewsArticlePage.parent p).

Definition set_parent (p : NewsArticlePage.t) (parent : option Z) : NewsArticlePage.t :=
  NewsArticlePage.mk (NewsArticlePage.title p) (NewsArticlePage.publication_date p)
    (NewsArticlePage.summary p) (NewsArticlePage.source_url p)
    (NewsArticlePage.source_name p) (NewsArticlePage.slug p) parent.

Section Command.
Variable w : World.

(** [os.environ.get(key)]. *)
Definition os_environ_get (key : string) : M (option string) :=
  ret (environ_get w key).

(** [genai.configure(api_key=api_key)]. *)
Definition genai_configure (api_key : option string) : M unit :=
  fun s => (Ok tt, set_configured_key s api_key).

(** [requests.get(url)]: the request is recorded; a transport failure
    raises a [RequestException]. *)
Definition requests_get_ (url : string) : M Response :=
  fun s =>
    let s' := set_http_log s (http_log s ++ [url]) in
    match requests_get w (http_log s) url with
    | inl message => (Raise (mkExn ConnectionError message), s')
    | inr response => (Ok response, s')
    end.

(** [response.raise_for_status()]. *)
Definition raise_for_status (response : Response) : M unit :=
  match status_error response with
  | Some message => raise (mkExn HTTPError message)
  | None => ret tt
  end.

(** [BeautifulSoup(content, 'html.parser').select_one(selector)]. *)
Definition soup_select_one (content selector : string) : M (option string) :=
  match select_one w content selector with
  | SelectorInvalid message => raise (mkExn SelectorSyntaxError message)
  | NoMatch => ret None
  | Match prettified => ret (Some prettified)
  end.

(** [genai.GenerativeModel(...).generate_content(prompt)]: the call is
    recorded. *)
Definition model_generate_content (prompt : string) : M GenerateContentResponse :=
  fun s =>
    (generate_content w (model_log s) prompt,
     set_model_log s (model_log s ++ [prompt])).

(** [NewsArticlePage.objects.get(source_url=url)]. *)
Definition objects_get (url : string) : M (nat * NewsArticlePage.t) :=
  fun s =>
    match rows_with url (articles s) 0 with
    | [] => (Raise (mkExn DoesNotExist "NewsArticlePage matching query does not exist."), s)
    | [row] => (Ok row, s)
    | _ :: _ :: _ =>
        (Raise (mkExn MultipleObjectsReturned "get() returned more than one NewsArticlePage"), s)
    end.

(** [page.save()] for the page stored in row [row]. *)
Definition save (row : nat) (page : NewsArticlePage.t) : M unit :=
  fun s =>
    match save_error w (articles s) row page with
    | Some d => (Raise (exn_of_db_error d), s)
    | None => (Ok tt, set_articles s (replace_row row page (articles s)))
    end.

(** [news_list_page.add_child(instance=new_page)]: the new row of the
    article table.  What the page tree writes into the listing page's own
    row (its count of children) is not part of [State]. *)
Definition add_child (news_list_page : NewsListPage.t) (instance : NewsArticlePage.t) : M unit :=
  fun s =>
    let child := set_parent instance (Some (NewsListPage.pk news_list_page)) in
    match add_child_error w (articles s) child with
    | Some d => (Raise (exn_of_db_error d), s)
    | None => (Ok tt, set_articles s (articles s ++ [child]))
    end.

(** The page built in the [except NewsArticlePage.DoesNotExist] branch. *)
Definition new_page_of (article_data : Article.t) : NewsArticlePage.t :=
  NewsArticlePage.mk
    (Article.title article_data)
    (today w)
    (Article.summary article_data)
    (Article.source_url article_data)
    EmptyString
    ("article-gemini-" ++ str_of_int (hash w (Article.title article_data) mod 100000))
    None.

(** The body of the loop over [validated_articles.articles]. *)
Definition upsert (news_list_page : NewsListPage.t) (article_data : Article.t) : M unit :=
  try_except
    (existing <- objects_get (Article.source_url article_data) ;;
     let existing_page :=
       set_title_summary (snd existing)
         (Article.title article_data) (Article.summary article_data) in
     save (fst existing) existing_page ;;
     logger_info ("Updated: '" ++ NewsArticlePage.title existing_page ++ "'"))
    DoesNotExist
    (fun _ =>
       let new_page := new_page_of article_data in
       add_child news_list_page new_page ;;
       logger_info ("Added: '" ++ NewsArticlePage.title new_page ++ "'")).

(** The first [try] block of [scrape_source]: [None] stands for its
    early [return], [Some html_snippet] for falling through. *)
Definition fetch_snippet (source : ScrapingSource.t) : M (option string) :=
  try_except
    (response <- requests_get_ (ScrapingSource.url_to_scrape source) ;;
     raise_for_status response ;;
     main_content <- soup_select_one (content response) (ScrapingSource.html_selector source) ;;
     match main_content with
     | None =>
         logger_error ("Could not find selector '" ++ ScrapingSource.html_selector source
                       ++ "' on page.") ;;
         ret None
     | Some html_snippet => ret (Some html_snippet)
     end)
    RequestException
    (fun e => logger_error ("URL fetch error: " ++ msg e) ;; ret None).

(** The second [try] block: [None] for an early [return]. *)
Definition extract_articles (prompt : string) : M (option ArticleList.t) :=
  try_except
    (response <- model_generate_content prompt ;;
     match parts response with
     | [] =>
         logger_error "Gemini returned an empty response." ;;
         logger_error ("Reason: " ++ prompt_feedback response) ;;
         ret None
     | _ :: _ =>
         response_text <- lift (text response) ;;
         match clean_json_response (VStr response_text) with
         | None =>
             logger_error "Could not find a valid JSON object in Gemini's response." ;;
             logger_error ("--- RAW RESPONSE ---" ++ nl ++ response_text ++ nl ++ "---") ;;
             ret None
         | Some cleaned_response =>
             parsed_data <- lift (json_loads w cleaned_response) ;;
             validated_articles <- lift (ArticleList_new w parsed_data) ;;
             ret (Some validated_articles)
         end
     end)
    Exception
    (fun e => logger_error ("Gemini processing failed: " ++ msg e) ;; ret None).

Definition scrape_source (source : ScrapingSource.t) (news_list_page : NewsListPage.t) : M unit :=
  fetched <- fetch_snippet source ;;
  match fetched with
  | None => ret tt
  | Some html_snippet =>
      let prompt := prompt_of (ScrapingSource.base_url source) html_snippet in
      extracted <- extract_articles prompt ;;
      match extracted with
      | None => ret tt
      | Some validated_articles =>
          for_each (ArticleList.articles validated_articles) (upsert news_list_page)
      end
  end.

(** [ScrapingSource.objects.filter(name__iexact=name, is_active=True)]. *)
Definition filter_name_iexact_active (name : string) : M (list ScrapingSource.t) :=
  fun s =>
    (Ok (filter (fun r => String.eqb (lower (ScrapingSource.name r)) (lower name)
                          && ScrapingSource.is_active r) (sources s)), s).

(** [ScrapingSource.objects.filter(is_active=True)]. *)
Definition filter_active : M (list ScrapingSource.t) :=
  fun s => (Ok (filter ScrapingSource.is_active (sources s)), s).

(** [NewsListPage.objects.live().first()]. *)
Definition first_live_list_page : M (option NewsListPage.t) :=
  fun s => (Ok (List.find NewsListPage.live (list_pages s)), s).

(** The credentials block of [handle]: [false] for its [return]. *)
Definition configure : M bool :=
  try_except
    (api_key <- os_environ_get "GOOGLE_API_KEY" ;;
     if negb (truthy api_key)
     then raise (mkExn ValueError "GOOGLE_API_KEY not found.")
     else (genai_configure api_key ;; ret true))
    ValueError
    (fun e => logger_error ("Config failed: " ++ msg e) ;; ret false).

(** The source-set block of [handle]: [None] for its [return]. *)
Definition resolve_sources (options_source : option string)
  : M (option (list ScrapingSource.t)) :=
  if truthy options_source then
    let name := match options_source with Some n => n | None => EmptyString end in
    sources <- filter_name_iexact_active name ;;
    match sources with
    | [] =>
        logger_error ("No active source named '" ++ name ++ "' found.") ;;
        ret None
    | _ :: _ => ret (Some sources)
    end
  else
    (sources <- filter_active ;; ret (Some sources)).

(** [Command.handle]; [options_source] is [options['source']]. *)
Definition handle (options_source : option string) : M unit :=
  configured <- configure ;;
  if negb configured then ret tt else
  resolved <- resolve_sources options_source ;;
  match resolved with
  | None => ret tt
  | Some sources =>
      news_list_page <- first_live_list_page ;;
      match news_list_page with
      | None => logger_error "A 'NewsListPage' must be created in Wagtail first."
      | Some news_list_page =>
          for_each sources (fun source =>
            logger_info ("Scraping source: " ++ ScrapingSource.name source) ;;
            scrape_source source news_list_page) ;;
          logger_info "All scraping tasks complete."
      end
  end.

End Command.

(* ================================================================= *)
(** ** news/models.py: NewsListPage.get_context *)

(** [l[lo:hi]] on a list, with the bounds normalised as for a string. *)
Definition list_slice {A : Type} (l : list A) (lo hi : Z) : list A :=
  let n := Z.of_nat (List.length l) in
  let lo' := clamp n lo in
  let hi' := clamp n hi in
  if lo' <? hi' then firstn (Z.to_nat (hi' - lo')) (skipn (Z.to_nat lo') l)
  else [].

Module Paginator.

(** The two exceptions of [django.core.paginator] the view handles. *)
Inductive error : Type := PageNotAnInteger | EmptyPage.

(** What is handed to [Paginator.page]: the value of
    [request.GET.get('page')], a [str] or [None], or an integer. *)
Inductive number_arg : Type :=
| FromQuery (page : option string)
| Literal (n : Z).

(** A [Page]: its objects and its 1-based number. *)
Record Page (A : Type) : Type := mkPage { object_list : list A; number : Z }.
Arguments mkPage {A} object_list number.
Arguments object_list {A} p.
Arguments number {A} p.

Section Paginator.
(** [int(s)] on a [str]: [None] stands for [ValueError]. *)
Variable int : string -> option Z.
Context {A : Type}.
Variable objects : list A.
Variable per_page : Z.

Definition count : Z := Z.of_nat (List.length objects).

(** [ceil(hits / per_page)] with [hits = max(1, count - orphans)], for
    the defaults [orphans = 0] and [allow_empty_first_page = True]. *)
Definition num_pages : Z :=
  let hits := Z.max 1 (count - 0) in
  (hits + per_page - 1) / per_page.

(** [validate_number]: [int()] of [None] raises [TypeError], of a
    [str] that is no integer [ValueError]; both give [PageNotAnInteger]. *)
Definition validate_number (number : number_arg) : error + Z :=
  match
    match number with
    | FromQuery None => None
    | FromQuery (Some s) => int s
    | Literal n => Some n
    end
  with
  | None => inl PageNotAnInteger
  | Some n =>
      if n <? 1 then inl EmptyPage
      else if num_pages <? n then inl EmptyPage
      else inr n
  end.

(** [page(number)]. *)
Definition page (number : number_arg) : error + Page A :=
  match validate_number number with
  | inl e => inl e
  | inr n =>
      let bottom := (n - 1) * per_page in
      let top := bottom + per_page in
      let top := if count <=? top + 0 then count else top in
      inr (mkPage (list_slice objects bottom top) n)
  end.

End Paginator.
End Paginator.

(** The pagination of [NewsListPage.get_context]: [all_articles] is the
    evaluated query (live, public pages, newest first), [page] is
    [request.GET.get('page')], and the result is what the view stores
    under [context['articles']], or the exception that leaves the view. *)
Definition get_context (int : string -> option Z)
    (all_articles : list NewsArticlePage.t) (page : option string)
  : Paginator.error + Paginator.Page NewsArticlePage.t :=
  match Paginator.page int all_articles 10 (Paginator.FromQuery page) with
  | inr articles => inr articles
  | inl Paginator.PageNotAnInteger =>
      Paginator.page int all_articles 10 (Paginator.Literal 1)
  | inl Paginator.EmptyPage =>
      Paginator.page int all_articles 10
        (Paginator.Literal (Paginator.num_pages all_articles 10))
  end.

(* ================================================================= *)
(** ** Vocabulary of the specification *)

(** The character [c] occurs somewhere in [s]. *)
Definition occurs (c : ascii) (s : string) : Prop :=
  exists k : nat, String.get k s = Some c.

(** [i] is the position of the first [c] in [s]. *)
Definition first_index (c : ascii) (s : string) (i : Z) : Prop :=
  0 <= i
  /\ String.get (Z.to_nat i) s = Some c
  /\ forall k : nat, (k < Z.to_nat i)%nat -> String.get k s <> Some c.

(** [j] is the position of the last [c] in [s]. *)
Definition last_index (c : ascii) (s : string) (j : Z) : Prop :=
  0 <= j
  /\ String.get (Z.to_nat j) s = Some c
  /\ forall k : nat, (Z.to_nat j < k)%nat -> String.get k s <> Some c.

(** [r] is the text of [s] at the positions [i], [i+1], ..., [j]; there
    is no such position when [j < i], and [r] is then empty. *)
Definition inclusive_substring (s : string) (i j : Z) (r : string) : Prop :=
  len r = Z.max 0 (j - i + 1)
  /\ forall k : nat, (k < String.length r)%nat ->
       String.get k r = String.get (Z.to_nat i + k) s.

(** The invariant of the article table: no two rows with one
    [source_url]. *)
Definition unique_source_url (rows : list NewsArticlePage.t) : Prop :=
  NoDup (map NewsArticlePage.source_url rows).

(** [q] is [p] up to [title] and [summary]. *)
Definition same_frame (p q : NewsArticlePage.t) : Prop :=
  NewsArticlePage.source_url q = NewsArticlePage.source_url p
  /\ NewsArticlePage.publication_date q = NewsArticlePage.publication_date p
  /\ NewsArticlePage.slug q = NewsArticlePage.slug p
  /\ NewsArticlePage.source_name q = NewsArticlePage.source_name p
  /\ NewsArticlePage.parent q = NewsArticlePage.parent p.

(** Every row of [rows] is still in [rows'], at its position and up to
    [title] and [summary]; [rows'] may have further rows after them. *)
Definition survives (rows rows' : list NewsArticlePage.t) : Prop :=
  exists kept added, rows' = (kept ++ added)%list /\ Forall2 same_frame rows kept.

(** The row [add_child] stores for a new article. *)
Definition created_page (w : World) (news_list_page : NewsListPage.t)
    (article_data : Article.t) : NewsArticlePage.t :=
  set_parent (new_page_of w article_data) (Some (NewsListPage.pk news_list_page)).

(** The row [save] stores for an article already known. *)
Definition updated_page (p : NewsArticlePage.t) (article_data : Article.t)
  : NewsArticlePage.t :=
  set_title_summary p (Article.title article_data) (Article.summary article_data).

(** The sources a run is asked to process: the active sources whose
    name is [name] up to letter case when a non-empty name is given, all
    active sources otherwise. *)
Definition selected_sources (options_source : option string)
    (rows : list ScrapingSource.t) : list ScrapingSource.t :=
  match options_source with
  | Some name =>
      if String.eqb name EmptyString then filter ScrapingSource.is_active rows
      else filter (fun r => String.eqb (lower (ScrapingSource.name r)) (lower name)
                            && ScrapingSource.is_active r) rows
  | None => filter ScrapingSource.is_active rows
  end.

(** A world in which the persistence layer accepts every [save] and
    [add_child] and the HTML library accepts every selector. *)
Definition dependable (w : World) : Prop :=
  (forall rows n p, save_error w rows n p = None)
  /\ (forall rows p, add_child_error w rows p = None)
  /\ (forall content selector message,
        select_one w content selector <> SelectorInvalid message).

(** The loop of [handle] over the resolved sources, with its closing
    log line. *)
Definition process_all (w : World) (sources : list ScrapingSource.t)
    (news_list_page : NewsListPage.t) : M unit :=
  bind (for_each sources (fun source =>
          bind (logger_info ("Scraping source: " ++ ScrapingSource.name source))
               (fun _ => scrape_source w source news_list_page)))
       (fun _ => logger_info "All scraping tasks complete.").

(** Every run of [m], whatever its outcome, relates the state before to
    the state after by [R]. *)
Definition preserves {A : Type} (R : State -> State -> Prop) (m : M A) : Prop :=
  forall s r s', m s = (r, s') -> R s s'.

(** The state once [prompt] has been sent to the model. *)
Definition after_model_call (s : State) (prompt : string) : State :=
  set_model_log s (model_log s ++ [prompt]).

(** The state once the page of [source] has been requested. *)
Definition after_request (s : State) (source : ScrapingSource.t) : State :=
  set_http_log s (http_log s ++ [ScrapingSource.url_to_scrape source]).

(** The schema as the specification words it: a mapping whose key
    [articles] holds a list of objects, each with a non-empty string
    [title], a string [summary] and a [source_url] that the URL type
    accepts. *)
Definition worded_article_ok (w : World) (item : value) : bool :=
  match item with
  | VDict entries =>
      match dict_get "title" entries, dict_get "summary" entries,
            dict_get "source_url" entries with
      | Some (VStr title), Some (VStr _), Some (VStr url) =>
          negb (String.eqb title EmptyString)
          && match HttpUrl w url with Some _ => true | None => false end
      | _, _, _ => false
      end
  | _ => false
  end.

Definition worded_schema_ok (w : World) (v : value) : bool :=
  match v with
  | VDict entries =>
      match dict_get "articles" entries with
      | Some (VList items) => forallb (worded_article_ok w) items
      | _ => false
      end
  | _ => false
  end.

(** The same schema with [title] any string, empty or not. *)
Definition declared_article_ok (w : World) (item : value) : bool :=
  match item with
  | VDict entries =>
      match dict_get "title" entries, dict_get "summary" entries,
            dict_get "source_url" entries with
      | Some (VStr _), Some (VStr _), Some (VStr url) =>
          match HttpUrl w url with Some _ => true | None => false end
      | _, _, _ => false
      end
  | _ => false
  end.

Definition declared_schema_ok (w : World) (v : value) : bool :=
  match v with
  | VDict entries =>
      match dict_get "articles" entries with
      | Some (VList items) => forallb (declared_article_ok w) items
      | _ => false
      end
  | _ => false
  end.

(** The row of the table whose [source_url] is [url], if any. *)
Definition lookup_row (url : string) (rows : list NewsArticlePage.t)
  : option NewsArticlePage.t :=
  List.find (fun p => String.eqb (NewsArticlePage.source_url p) url) rows.

(** The last article of [l] whose [source_url] is [url], if any. *)
Fixpoint last_with (url : string) (l : list Article.t) : option Article.t :=
  match l with
  | [] => None
  | a :: rest =>
      match last_with url rest with
      | Some b => Some b
      | None => if String.eqb (Article.source_url a) url then Some a else None
      end
  end.

(** The validated article [a] carries the fields of the decoded object
    [item]. *)
Definition decoded_as (w : World) (item : value) (a : Article.t) : Prop :=
  exists entries u,
    item = VDict entries
    /\ dict_get "title" entries = Some (VStr (Article.title a))
    /\ dict_get "summary" entries = Some (VStr (Article.summary a))
    /\ dict_get "source_url" entries = Some (VStr u)
    /\ HttpUrl w u = Some (Article.source_url a).

(** Nothing but the log stream and the article table differs between
    [s] and [s']. *)
Definition same_io (s s' : State) : Prop :=
  http_log s' = http_log s
  /\ model_log s' = model_log s
  /\ sources s' = sources s
  /\ list_pages s' = list_pages s
  /\ configured_key s' = configured_key s.

Definition is_error_line (entry : level * string) : Prop := fst entry = ERROR.

(** [c] is one of the characters [0] to [9]. *)
Definition is_digit (c : ascii) : bool :=
  let n := N_of_ascii c in ((48 <=? n) && (n <=? 57))%N.

(* ================================================================= *)
(** ** Concrete worlds and runs *)

Module Demo.

Definition q (s : string) : string := dquote ++ s ++ dquote.

(** An article as (title, summary, source_url), its JSON text and the
    object [json.loads] decodes that text to. *)
Definition item : Type := (string * string * string)%type.

Definition article_json (a : item) : string :=
  let '(title, summary, url) := a in
  "{" ++ q "title" ++ ":" ++ q title ++ "," ++ q "summary" ++ ":" ++ q summary
  ++ "," ++ q "source_url" ++ ":" ++ q url ++ "}".

Definition article_value (a : item) : value :=
  let '(title, summary, url) := a in
  VDict [("title", VStr title); ("summary", VStr summary); ("source_url", VStr url)].

Definition document_json (items : list item) : string :=
  "{" ++ q "articles" ++ ":[" ++ String.concat "," (map article_json items) ++ "]}".

Definition document_value (items : list item) : value :=
  VDict [("articles", VList (map article_value items))].

(** A decoder that knows the documents [docs] and rejects every other
    text the way [json.loads] rejects malformed input. *)
Definition json_loads_known (docs : list (list item)) (s : string) : result value :=
  match List.find (fun d => String.eqb (document_json d) s) docs with
  | Some d => Ok (document_value d)
  | None => Raise (mkExn JSONDecodeError "Expecting value: line 1 column 1 (char 0)")
  end.

(** A URL check that accepts [http://] and [https://] followed by a host. *)
Definition http_url (s : string) : option string :=
  let after (scheme : string) :=
    String.prefix scheme s
    && match String.get (String.length scheme) s with
       | Some a => negb (Ascii.eqb a "/"%char)
       | None => false
       end in
  if after "http://" || after "https://" then Some s else None.

(** Sibling pages must have distinct slugs. *)
Definition slug_in_use (rows : list NewsArticlePage.t) (child : NewsArticlePage.t)
  : option db_error :=
  if existsb (fun r => String.eqb (NewsArticlePage.slug r) (NewsArticlePage.slug child)) rows
  then Some (ValidationFailed "This slug is already in use")
  else None.

Definition page_html : string := "<html><div id='main'>A</div></html>".

(** A world whose page matches [#main] as [selection] says, whose
    model answers [reply], and whose decoder knows [docs]. *)
Definition world (api_key : option string) (selection : Selection) (reply : string)
    (docs : list (list item)) : World :=
  {| environ_get := fun k => if String.eqb k "GOOGLE_API_KEY" then api_key else None;
     requests_get := fun _ _ => inr (mkResponse None page_html);
     select_one := fun _ _ => selection;
     generate_content := fun _ _ => Ok (mkGenResponse [reply] (Ok reply) "block_reason: NONE");
     json_loads := json_loads_known docs;
     HttpUrl := http_url;
     hash := fun s => len s;
     today := mkDate 2024 6 1;
     save_error := fun _ _ _ => None;
     add_child_error := slug_in_use |}.

Definition main_div : Selection := Match "<div id='main'>A</div>".

Definition source_test : ScrapingSource.t :=
  ScrapingSource.mk "Test" "http://example.com/list" "http://example.com" "#main" true.

Definition source_other : ScrapingSource.t :=
  ScrapingSource.mk "Other" "http://example.org/list" "http://example.org" "#main" true.

Definition source_off : ScrapingSource.t :=
  ScrapingSource.mk "Off" "http://example.net/list" "http://example.net" "#main" false.

Definition listing : NewsListPage.t := NewsListPage.mk 3 "News" true.

Definition state (rows : list NewsArticlePage.t) : State :=
  mkState [] [] [] None [source_test; source_other; source_off] [listing] rows.

Definition old_page : NewsArticlePage.t :=
  NewsArticlePage.mk "Old" (mkDate 2024 1 15) "Old summary" "http://example.com/a"
    EmptyString "old-slug" (Some 3).

(** The document of the scenario: one article. *)
Definition doc_one : list item := [("T1", "S1", "http://example.com/a")].

Definition reply_one : string := "noise " ++ document_json doc_one ++ " trailing".

(** Two articles with one title, hence one slug, and a third one. *)
Definition doc_same_title : list item :=
  [("Same", "S1", "http://example.com/a");
   ("Same", "S2", "http://example.com/b");
   ("Other", "S3", "http://example.com/c")].

(** An article whose title is the empty string. *)
Definition doc_empty_title : list item := [(EmptyString, "S1", "http://example.com/a")].

(** [document_json doc_one] without its first and without its last
    character. *)
Definition doc_one_rest : string :=
  match document_json doc_one with
  | String _ rest => rest
  | EmptyString => EmptyString
  end.

Definition doc_one_front : string :=
  String.substring 0 (String.length (document_json doc_one) - 1) (document_json doc_one).

(** A decoded response whose only article has no [title] key. *)
Definition value_missing_title : value :=
  VDict [("articles",
          VList [VDict [("summary", VStr "S1");
                        ("source_url", VStr "http://example.com/a")]])].

(** A world for statements in which only the URL type matters. *)
Definition plain_world : World := world (Some "k") main_div EmptyString [].

(** A world like [world] whose persistence layer accepts everything. *)
Definition lenient_world (api_key : option string) (selection : Selection)
    (reply : string) (docs : list (list item)) : World :=
  let base := world api_key selection reply docs in
  mkWorld (environ_get base) (requests_get base) (select_one base)
    (generate_content base) (json_loads base) (HttpUrl base) (hash base) (today base)
    (fun _ _ _ => None) (fun _ _ => None).

(** Braces in reversed order. *)
Definition reply_reversed : string := "} no object here {".

(** A world given by the answer of the HTTP library and of the model. *)
Definition custom_world (answer : string + Response) (selection : Selection)
    (generated : result GenerateContentResponse) : World :=
  let base := world (Some "k") selection EmptyString [] in
  mkWorld (environ_get base) (fun _ _ => answer) (select_one base)
    (fun _ _ => generated) (json_loads base) (HttpUrl base) (hash base) (today base)
    (save_error base) (add_child_error base).

(** A response the provider emptied. *)
Definition blocked_response : GenerateContentResponse :=
  mkGenResponse [] (Raise (mkExn ValueError "no valid part")) "block_reason: SAFETY".

(** Decimal text to an integer, for the page number of a query. *)
Definition int (s : string) : option Z :=
  option_map Z.of_int (NilZero.int_of_string s).

(** A page per number. *)
Definition numbered_page (n : nat) : NewsArticlePage.t :=
  NewsArticlePage.mk ("T" ++ str_of_int (Z.of_nat n)) (mkDate 2024 1 1) EmptyString
    ("http://example.com/" ++ str_of_int (Z.of_nat n)) EmptyString
    ("slug-" ++ str_of_int (Z.of_nat n)) (Some 3).

Definition pages_23 : list NewsArticlePage.t := map numbered_page (seq 1 23).

End Demo.

(** Closes a case of the model stage that ends with the error lines
    [added]. *)
Ltac failed_with added :=
  eexists; eexists; split; [reflexivity|];
  repeat (split; [reflexivity|]);
  exists added;
  split; [simpl; rewrite <- ?app_assoc; reflexivity|];
  split; [repeat constructor|];
  split; [intros _; discriminate | reflexivity].

(* ================================================================= *)
(** * Properties of the response validator *)

Section TextSearch.
Variable c : ascii.

Lemma get_some_lt (s : string) (k : nat) (a : ascii) :
  String.get k s = Some a -> (k < String.length s)%nat.
Proof.
  revert k; induction s as [|b s IH]; intros k H; simpl in *.
  - discriminate.
  - destruct k as [|k]; [lia|]. apply IH in H. lia.
Qed.

Lemma find_from_spec (s : string) (i : Z) :
  0 <= i ->
  (find_from c s i = -1 /\ forall k, String.get k s <> Some c)
  \/ (i <= find_from c s i
      /\ String.get (Z.to_nat (find_from c s i - i)) s = Some c
      /\ forall k, (k < Z.to_nat (find_from c s i - i))%nat -> String.get k s <> Some c).
Proof.
  revert i; induction s as [|a s IH]; intros i Hi; simpl.
  - left; split; [reflexivity|]. intros k; destruct k; discriminate.
  - destruct (Ascii.eqb a c) eqn:E.
    + apply Ascii.eqb_eq in E; subst a. right.
      replace (i - i) with 0 by lia. simpl.
      repeat split; [lia | intros k Hk; lia].
    + apply Ascii.eqb_neq in E.
      destruct (IH (i + 1) ltac:(lia)) as [[H0 Hn] | (Hle & Hget & Hmin)].
      * left; split; [exact H0|]. intros [|k]; simpl; [congruence | apply Hn].
      * right. set (r := find_from c s (i + 1)) in *.
        replace (Z.to_nat (r - i)) with (S (Z.to_nat (r - (i + 1)))) by lia.
        simpl. repeat split; [lia | exact Hget |].
        intros [|k] Hk; simpl; [congruence | apply Hmin; lia].
Qed.

Lemma rfind_from_spec (s : string) (i : Z) :
  0 <= i ->
  (rfind_from c s i = -1 /\ forall k, String.get k s <> Some c)
  \/ (i <= rfind_from c s i
      /\ String.get (Z.to_nat (rfind_from c s i - i)) s = Some c
      /\ forall k, (Z.to_nat (rfind_from c s i - i) < k)%nat -> String.get k s <> Some c).
Proof.
  revert i; induction s as [|a s IH]; intros i Hi; simpl.
  - left; split; [reflexivity|]. intros k; destruct k; discriminate.
  - destruct (IH (i + 1) ltac:(lia)) as [[H0 Hn] | (Hle & Hget & Hmax)].
    + rewrite H0. simpl. destruct (Ascii.eqb a c) eqn:E.
      * apply Ascii.eqb_eq in E; subst a. right.
        replace (i - i) with 0 by lia. simpl.
        repeat split; [lia |]. intros [|k] Hk; [lia | simpl; apply Hn].
      * apply Ascii.eqb_neq in E. left; split; [reflexivity|].
        intros [|k]; simpl; [congruence | apply Hn].
    + set (r := rfind_from c s (i + 1)) in *.
      assert (Hr : (r =? -1) = false) by (apply Z.eqb_neq; lia).
      rewrite Hr. right.
      replace (Z.to_nat (r - i)) with (S (Z.to_nat (r - (i + 1)))) by lia.
      simpl. repeat split; [lia | exact Hget |].
      intros [|k] Hk; [lia | simpl; apply Hmax; lia].
Qed.

Lemma find_none_iff (s : string) : find c s = -1 <-> ~ occurs c s.
Proof.
  unfold find, occurs.
  destruct (find_from_spec s 0 ltac:(lia)) as [[H0 Hn] | (Hle & Hget & _)].
  - split; [intros _ [k Hk]; exact (Hn k Hk) | intros _; exact H0].
  - split; [intros H; lia | intros H; exfalso; apply H; eauto].
Qed.

Lemma rfind_none_iff (s : string) : rfind c s = -1 <-> ~ occurs c s.
Proof.
  unfold rfind, occurs.
  destruct (rfind_from_spec s 0 ltac:(lia)) as [[H0 Hn] | (Hle & Hget & _)].
  - split; [intros _ [k Hk]; exact (Hn k Hk) | intros _; exact H0].
  - split; [intros H; lia | intros H; exfalso; apply H; eauto].
Qed.

Lemma find_first_index (s : string) :
  occurs c s -> first_index c s (find c s) /\ find c s < len s.
Proof.
  intros [k Hk]. unfold find, first_index.
  destruct (find_from_spec s 0 ltac:(lia)) as [[_ Hn] | (Hle & Hget & Hmin)].
  - exfalso; exact (Hn k Hk).
  - rewrite Z.sub_0_r in *. repeat split; try assumption.
    apply get_some_lt in Hget. unfold len. lia.
Qed.

Lemma rfind_last_index (s : string) :
  occurs c s -> last_index c s (rfind c s) /\ rfind c s < len s.
Proof.
  intros [k Hk]. unfold rfind, last_index.
  destruct (rfind_from_spec s 0 ltac:(lia)) as [[_ Hn] | (Hle & Hget & Hmax)].
  - exfalso; exact (Hn k Hk).
  - rewrite Z.sub_0_r in *. repeat split; try assumption.
    apply get_some_lt in Hget. unfold len. lia.
Qed.

Lemma first_index_unique (s : string) (i i' : Z) :
  first_index c s i -> first_index c s i' -> i = i'.
Proof.
  intros (H0 & Hg & Hm) (H0' & Hg' & Hm').
  destruct (Z.lt_trichotomy i i') as [H | [H | H]]; [exfalso | exact H | exfalso].
  - apply (Hm' (Z.to_nat i)); [lia | exact Hg].
  - apply (Hm (Z.to_nat i')); [lia | exact Hg'].
Qed.

Lemma last_index_unique (s : string) (j j' : Z) :
  last_index c s j -> last_index c s j' -> j = j'.
Proof.
  intros (H0 & Hg & Hm) (H0' & Hg' & Hm').
  destruct (Z.lt_trichotomy j j') as [H | [H | H]]; [exfalso | exact H | exfalso].
  - apply (Hm (Z.to_nat j')); [lia | exact Hg'].
  - apply (Hm' (Z.to_nat j)); [lia | exact Hg].
Qed.

End TextSearch.

Section Slicing.

Lemma len_nonneg (s : string) : 0 <= len s.
Proof. unfold len; lia. Qed.

Lemma len_append (a b : string) : len (a ++ b) = len a + len b.
Proof.
  unfold len. induction a as [|x a IH]; simpl String.length; [simpl; lia | lia].
Qed.

Lemma substring_length (s : string) (n m : nat) :
  (n + m <= String.length s)%nat -> String.length (String.substring n m s) = m.
Proof.
  revert n m; induction s as [|a s IH]; intros n m H; simpl in *.
  - destruct n, m; simpl; lia.
  - destruct n as [|n].
    + destruct m as [|m]; simpl; [reflexivity|]. rewrite IH; lia.
    + apply IH. lia.
Qed.

Lemma substring_append_middle (pre mid suf : string) :
  String.substring (String.length pre) (String.length mid) (pre ++ mid ++ suf) = mid.
Proof.
  induction pre as [|a pre IH]; simpl.
  - induction mid as [|b mid IHm]; simpl.
    + destruct suf; reflexivity.
    + f_equal. exact IHm.
  - exact IH.
Qed.

Lemma clamp_inside (n i : Z) : 0 <= i <= n -> clamp n i = i.
Proof.
  intros H. unfold clamp.
  destruct (i <? 0) eqn:E; [apply Z.ltb_lt in E; lia | lia].
Qed.

Lemma slice_inclusive (s : string) (i j : Z) :
  0 <= i < len s -> 0 <= j < len s ->
  inclusive_substring s i j (slice s i (j + 1)).
Proof.
  intros Hi Hj. unfold slice, inclusive_substring.
  rewrite (clamp_inside (len s) i) by lia.
  rewrite (clamp_inside (len s) (j + 1)) by lia.
  destruct (i <? j + 1) eqn:E.
  - apply Z.ltb_lt in E.
    assert (HL : String.length (String.substring (Z.to_nat i) (Z.to_nat (j + 1 - i)) s)
                 = Z.to_nat (j + 1 - i)).
    { apply substring_length. unfold len in *. lia. }
    split.
    + unfold len. rewrite HL. lia.
    + intros k Hk. rewrite HL in Hk.
      rewrite String.substring_correct1 by exact Hk.
      f_equal. lia.
  - apply Z.ltb_ge in E. split.
    + unfold len; simpl. lia.
    + intros k Hk; simpl in Hk; lia.
Qed.

Lemma slice_middle (pre mid suf : string) :
  mid <> EmptyString ->
  slice (pre ++ mid ++ suf) (len pre) (len pre + len mid) = mid.
Proof.
  intros Hne. unfold slice.
  assert (Hm : 0 < len mid).
  { destruct mid; [congruence | unfold len; simpl; lia]. }
  pose proof (len_nonneg pre). pose proof (len_nonneg suf).
  rewrite !clamp_inside by (rewrite !len_append; lia).
  replace (len pre <? len pre + len mid) with true by (symmetry; apply Z.ltb_lt; lia).
  replace (Z.to_nat (len pre)) with (String.length pre) by (unfold len; lia).
  replace (Z.to_nat (len pre + len mid - len pre)) with (String.length mid)
    by (unfold len; lia).
  apply substring_append_middle.
Qed.

Variable c : ascii.

Lemma not_occurs_cons (a : ascii) (s : string) :
  ~ occurs c (String a s) -> a <> c /\ ~ occurs c s.
Proof.
  intros H; split.
  - intros ->. apply H. exists 0%nat. reflexivity.
  - intros [k Hk]. apply H. exists (S k). exact Hk.
Qed.

Lemma find_from_skip (pre s : string) (i : Z) :
  ~ occurs c pre -> find_from c (pre ++ s) i = find_from c s (i + len pre).
Proof.
  revert i; induction pre as [|a pre IH]; intros i H; simpl.
  - f_equal. unfold len; simpl; lia.
  - apply not_occurs_cons in H as [Hne Hno].
    apply Ascii.eqb_neq in Hne. rewrite Hne.
    rewrite IH by exact Hno. f_equal. unfold len; simpl String.length. lia.
Qed.

Lemma rfind_from_absent (s : string) (i : Z) :
  ~ occurs c s -> rfind_from c s i = -1.
Proof.
  revert i; induction s as [|a s IH]; intros i H; simpl.
  - reflexivity.
  - apply not_occurs_cons in H as [Hne Hno].
    rewrite IH by exact Hno. simpl.
    apply Ascii.eqb_neq in Hne. rewrite Hne. reflexivity.
Qed.

Lemma rfind_from_append (a b : string) (i : Z) :
  rfind_from c (a ++ b) i =
    if rfind_from c b (i + len a) =? -1 then rfind_from c a i
    else rfind_from c b (i + len a).
Proof.
  revert i; induction a as [|x a IH]; intros i; simpl.
  - replace (i + len EmptyString) with i by (unfold len; simpl; lia).
    destruct (rfind_from c b i =? -1) eqn:E; [apply Z.eqb_eq in E; exact E | reflexivity].
  - rewrite IH.
    replace (i + 1 + len a) with (i + len (String x a))
      by (unfold len; simpl String.length; lia).
    destruct (rfind_from c b (i + len (String x a)) =? -1) eqn:E.
    + reflexivity.
    + rewrite E. reflexivity.
Qed.

End Slicing.

Lemma append_assoc (a b d : string) : ((a ++ b) ++ d)%string = (a ++ b ++ d)%string.
Proof. induction a as [|x a IH]; simpl; [reflexivity | rewrite IH; reflexivity]. Qed.

Lemma clean_json_response_none_iff (text : string) :
  clean_json_response (VStr text) = None
  <-> (~ occurs "{"%char text \/ ~ occurs "}"%char text).
Proof.
  unfold clean_json_response.
  rewrite <- (find_none_iff "{"%char text), <- (rfind_none_iff "}"%char text).
  destruct (find "{"%char text =? -1) eqn:E1; simpl.
  - apply Z.eqb_eq in E1. tauto.
  - apply Z.eqb_neq in E1.
    destruct (rfind "}"%char text =? -1) eqn:E2.
    + apply Z.eqb_eq in E2. tauto.
    + apply Z.eqb_neq in E2. split; [discriminate | tauto].
Qed.

Lemma clean_json_response_some (text : string) :
  occurs "{"%char text -> occurs "}"%char text ->
  clean_json_response (VStr text)
  = Some (slice text (find "{"%char text) (rfind "}"%char text + 1)).
Proof.
  intros H1 H2. unfold clean_json_response.
  destruct (find_first_index _ _ H1) as [(Hi & _) _].
  destruct (rfind_last_index _ _ H2) as [(Hj & _) _].
  replace (find "{"%char text =? -1) with false by (symmetry; apply Z.eqb_neq; lia).
  replace (rfind "}"%char text =? -1) with false by (symmetry; apply Z.eqb_neq; lia).
  reflexivity.
Qed.

Lemma clean_json_response_wrapped (pre rest front suf : string) :
  String "{"%char rest = (front ++ "}")%string ->
  ~ occurs "{"%char pre -> ~ occurs "}"%char suf ->
  clean_json_response (VStr (pre ++ String "{"%char rest ++ suf))
  = Some (String "{"%char rest).
Proof.
  intros Hend Hpre Hsuf.
  pose proof (len_nonneg pre) as Hp. pose proof (len_nonneg front) as Hf.
  assert (Hfind : find "{"%char (pre ++ String "{"%char rest ++ suf) = len pre).
  { unfold find. rewrite find_from_skip by exact Hpre. simpl. reflexivity. }
  assert (Hrfind : rfind "}"%char (pre ++ String "{"%char rest ++ suf)
                   = len pre + len front).
  { unfold rfind. rewrite Hend, append_assoc.
    rewrite !rfind_from_append. simpl.
    rewrite (rfind_from_absent "}"%char suf) by exact Hsuf. simpl.
    assert (E : (len pre + len front =? -1) = false) by (apply Z.eqb_neq; lia).
    rewrite !E. reflexivity. }
  unfold clean_json_response. rewrite Hfind, Hrfind.
  replace (len pre =? -1) with false by (symmetry; apply Z.eqb_neq; lia).
  replace (len pre + len front =? -1) with false by (symmetry; apply Z.eqb_neq; lia).
  cbv [orb]. f_equal.
  replace (len pre + len front + 1) with (len pre + len (String "{"%char rest)).
  - apply (slice_middle pre (String "{"%char rest) suf). discriminate.
  - rewrite Hend, len_append. unfold len; simpl. lia.
Qed.

(* ================================================================= *)
(** * The model stage of a source pass *)

Lemma isinstance_Exception (e : exn) : isinstance e Exception = true.
Proof. destruct e as [k m]; destruct k; reflexivity. Qed.

Section ModelStage.
Variable w : World.
Variables (prompt : string) (s : State) (response : GenerateContentResponse).
Variables (part : string) (more : list string) (response_text : string).
Hypothesis Hcall : generate_content w (model_log s) prompt = Ok response.
Hypothesis Hparts : parts response = part :: more.
Hypothesis Htext : text response = Ok response_text.

Lemma extract_articles_no_json :
  clean_json_response (VStr response_text) = None ->
  extract_articles w prompt s
  = (Ok None,
     set_logs (after_model_call s prompt)
       (logs s
        ++ [(ERROR, "Could not find a valid JSON object in Gemini's response.")]
        ++ [(ERROR, "--- RAW RESPONSE ---" ++ nl ++ response_text ++ nl ++ "---")])).
Proof.
  intros Hclean.
  unfold extract_articles, try_except, bind, model_generate_content.
  rewrite Hcall, Hparts. unfold lift. rewrite Htext, Hclean.
  unfold logger_error, ret, set_logs, after_model_call, set_model_log; simpl.
  rewrite <- app_assoc. reflexivity.
Qed.

Lemma extract_articles_malformed (cleaned : string) (e : exn) :
  clean_json_response (VStr response_text) = Some cleaned ->
  json_loads w cleaned = Raise e ->
  extract_articles w prompt s
  = (Ok None,
     set_logs (after_model_call s prompt) (logs s ++ [(ERROR, "Gemini processing failed: " ++ msg e)])).
Proof.
  intros Hclean Hjson.
  unfold extract_articles, try_except, bind, model_generate_content.
  rewrite Hcall, Hparts. unfold lift. rewrite Htext, Hclean, Hjson.
  rewrite isinstance_Exception. reflexivity.
Qed.

Lemma extract_articles_invalid (cleaned : string) (v : value) (e : exn) :
  clean_json_response (VStr response_text) = Some cleaned ->
  json_loads w cleaned = Ok v ->
  ArticleList_new w v = Raise e ->
  extract_articles w prompt s
  = (Ok None,
     set_logs (after_model_call s prompt) (logs s ++ [(ERROR, "Gemini processing failed: " ++ msg e)])).
Proof.
  intros Hclean Hjson Hschema.
  unfold extract_articles, try_except, bind, model_generate_content.
  rewrite Hcall, Hparts. unfold lift. rewrite Htext, Hclean, Hjson, Hschema.
  rewrite isinstance_Exception. reflexivity.
Qed.

Lemma extract_articles_valid (cleaned : string) (v : value) (validated : ArticleList.t) :
  clean_json_response (VStr response_text) = Some cleaned ->
  json_loads w cleaned = Ok v ->
  ArticleList_new w v = Ok validated ->
  extract_articles w prompt s = (Ok (Some validated), after_model_call s prompt).
Proof.
  intros Hclean Hjson Hschema.
  unfold extract_articles, try_except, bind, model_generate_content.
  rewrite Hcall, Hparts. unfold lift. rewrite Htext, Hclean, Hjson, Hschema.
  reflexivity.
Qed.

End ModelStage.

(** C5.  [clean_json_response] answers [None] exactly when the text has
    no opening or no closing brace; otherwise it returns the text from the
    first opening brace to the last closing brace, both included; and a
    response made of one JSON object wrapped in prose without stray braces
    is extracted as that object, decoded and validated by the model stage. *)
Theorem clean_json_response_first_to_last (raw_text : string) :
  (clean_json_response (VStr raw_text) = None
   <-> (~ occurs "{"%char raw_text \/ ~ occurs "}"%char raw_text))
  /\ (occurs "{"%char raw_text -> occurs "}"%char raw_text ->
      exists i j r,
        first_index "{"%char raw_text i /\ last_index "}"%char raw_text j
        /\ clean_json_response (VStr raw_text) = Some r
        /\ inclusive_substring raw_text i j r)
  /\ (forall pre rest front suf,
        raw_text = (pre ++ String "{"%char rest ++ suf)%string ->
        String "{"%char rest = (front ++ "}")%string ->
        ~ occurs "{"%char pre -> ~ occurs "}"%char suf ->
        clean_json_response (VStr raw_text) = Some (String "{"%char rest)
        /\ forall w prompt s response part more v validated,
             generate_content w (model_log s) prompt = Ok response ->
             parts response = part :: more ->
             text response = Ok raw_text ->
             json_loads w (String "{"%char rest) = Ok v ->
             ArticleList_new w v = Ok validated ->
             extract_articles w prompt s
             = (Ok (Some validated), set_model_log s (model_log s ++ [prompt]))).
Proof.
  split; [apply clean_json_response_none_iff | split].
  - intros H1 H2.
    destruct (find_first_index _ _ H1) as [Hfirst Hlt1].
    destruct (rfind_last_index _ _ H2) as [Hlast Hlt2].
    exists (find "{"%char raw_text), (rfind "}"%char raw_text),
           (slice raw_text (find "{"%char raw_text) (rfind "}"%char raw_text + 1)).
    repeat split; try apply Hfirst; try apply Hlast.
    + apply clean_json_response_some; assumption.
    + apply slice_inclusive; [destruct Hfirst | destruct Hlast]; lia.
    + apply slice_inclusive; [destruct Hfirst | destruct Hlast]; lia.
  - intros pre rest front suf -> Hend Hpre Hsuf.
    pose proof (clean_json_response_wrapped pre rest front suf Hend Hpre Hsuf) as Hc.
    split; [exact Hc|].
    intros w prompt s response part more v validated Hcall Hparts Htext Hjson Hval.
    eapply extract_articles_valid; eassumption.
Qed.

Lemma clean_json_response_first_to_last_witness :
  clean_json_response (VStr Demo.reply_one) = Some (Demo.document_json Demo.doc_one)
  /\ extract_articles (Demo.world (Some "k") Demo.main_div Demo.reply_one [Demo.doc_one])
       "prompt" (Demo.state [])
     = (Ok (Some (ArticleList.mk [Article.mk "T1" "S1" "http://example.com/a"])),
        set_model_log (Demo.state []) ["prompt"]).
Proof.
  destruct (clean_json_response_first_to_last Demo.reply_one) as (_ & _ & H).
  destruct (H "noise " Demo.doc_one_rest Demo.doc_one_front " trailing") as [Hc Hrun].
  - vm_compute; reflexivity.
  - vm_compute; reflexivity.
  - apply find_none_iff; vm_compute; reflexivity.
  - apply rfind_none_iff; vm_compute; reflexivity.
  - split; [exact Hc|].
    apply (Hrun (Demo.world (Some "k") Demo.main_div Demo.reply_one [Demo.doc_one])
             "prompt" (Demo.state [])
             (mkGenResponse [Demo.reply_one] (Ok Demo.reply_one) "block_reason: NONE")
             Demo.reply_one [] (Demo.document_value Demo.doc_one));
      vm_compute; reflexivity.
Defined.

Lemma slice_empty (s : string) (lo hi : Z) :
  0 <= lo -> 0 <= hi -> hi <= lo -> slice s lo hi = EmptyString.
Proof.
  intros H1 H2 H3. unfold slice, clamp.
  replace (lo <? 0) with false by (symmetry; apply Z.ltb_ge; lia).
  replace (hi <? 0) with false by (symmetry; apply Z.ltb_ge; lia).
  destruct (Z.min lo (len s) <? Z.min hi (len s)) eqn:E; [|reflexivity].
  apply Z.ltb_lt in E. lia.
Qed.

(** C9.  When both braces occur but the last closing brace stands before
    the first opening brace, [clean_json_response] returns a string (the
    empty one), not [None]; the model stage then hands it to the JSON
    decoder and reports the decoder's failure.  Any argument that is not a
    string gives [None]. *)
Theorem clean_json_response_reversed_braces :
  (forall (raw_text : string) (i j : Z),
      first_index "{"%char raw_text i -> last_index "}"%char raw_text j -> j < i ->
      clean_json_response (VStr raw_text) = Some EmptyString
      /\ forall w prompt s response part more e,
           generate_content w (model_log s) prompt = Ok response ->
           parts response = part :: more ->
           text response = Ok raw_text ->
           json_loads w EmptyString = Raise e ->
           extract_articles w prompt s
           = (Ok None,
              set_logs (set_model_log s (model_log s ++ [prompt]))
                (logs s ++ [(ERROR, "Gemini processing failed: " ++ msg e)])))
  /\ (forall v : value, (forall s, v <> VStr s) -> clean_json_response v = None).
Proof.
  split.
  - intros raw_text i j Hi Hj Hlt.
    assert (O1 : occurs "{"%char raw_text) by (destruct Hi as (_ & H & _); eexists; exact H).
    assert (O2 : occurs "}"%char raw_text) by (destruct Hj as (_ & H & _); eexists; exact H).
    destruct (find_first_index _ _ O1) as [Hfirst _].
    destruct (rfind_last_index _ _ O2) as [Hlast _].
    pose proof (first_index_unique _ _ _ _ Hi Hfirst) as Ei.
    pose proof (last_index_unique _ _ _ _ Hj Hlast) as Ej.
    assert (Hc : clean_json_response (VStr raw_text) = Some EmptyString).
    { rewrite clean_json_response_some by assumption.
      rewrite <- Ei, <- Ej. f_equal.
      destruct Hi as (Hi0 & _), Hj as (Hj0 & _).
      apply slice_empty; lia. }
    split; [exact Hc|].
    intros w prompt s response part more e Hcall Hparts Htext Hjson.
    eapply extract_articles_malformed; eassumption.
  - intros v Hv. destruct v; try reflexivity.
    exfalso; exact (Hv s eq_refl).
Qed.

Lemma clean_json_response_reversed_braces_witness :
  clean_json_response (VStr Demo.reply_reversed) = Some EmptyString
  /\ extract_articles (Demo.world (Some "k") Demo.main_div Demo.reply_reversed [])
       "prompt" (Demo.state [])
     = (Ok None,
        set_logs (set_model_log (Demo.state []) ["prompt"])
          [(ERROR, "Gemini processing failed: Expecting value: line 1 column 1 (char 0)")])
  /\ clean_json_response (VInt 7) = None.
Proof.
  destruct clean_json_response_reversed_braces as [H Hnon].
  destruct (H Demo.reply_reversed 17 0) as [Hc Hrun].
  - unfold first_index. split; [lia | split; [reflexivity|]].
    intros k Hk. change (Z.to_nat 17) with 17%nat in Hk.
    do 17 (destruct k as [|k]; [vm_compute; discriminate|]). lia.
  - unfold last_index. split; [lia | split; [reflexivity|]].
    intros k Hk. change (Z.to_nat 0) with 0%nat in Hk.
    destruct k as [|k]; [lia|].
    do 17 (destruct k as [|k]; [vm_compute; discriminate|]).
    vm_compute; discriminate.
  - lia.
  - split; [exact Hc | split].
    + apply (Hrun (Demo.world (Some "k") Demo.main_div Demo.reply_reversed [])
               "prompt" (Demo.state [])
               (mkGenResponse [Demo.reply_reversed] (Ok Demo.reply_reversed)
                  "block_reason: NONE")
               Demo.reply_reversed []
               (mkExn JSONDecodeError "Expecting value: line 1 column 1 (char 0)"));
        vm_compute; reflexivity.
    + apply Hnon. intros s; discriminate.
Defined.

(* ================================================================= *)
(** * Schema validation *)

Section SchemaFacts.
Variable w : World.

Lemma validate_each_ok_iff {A B : Type} (f : A -> result B) (ok : A -> bool) (l : list A) :
  (forall x, In x l -> ((exists y, f x = Ok y) <-> ok x = true)) ->
  (exists ys, validate_each f l = Ok ys) <-> forallb ok l = true.
Proof.
  induction l as [|x l IH]; intros Hpt; simpl.
  - split; [reflexivity | intros _; eexists; reflexivity].
  - assert (Hx := Hpt x (or_introl eq_refl)).
    assert (Hl := IH (fun y Hy => Hpt y (or_intror Hy))).
    rewrite andb_true_iff, <- Hx, <- Hl.
    destruct (f x) as [y|e]; simpl.
    + destruct (validate_each f l) as [ys|e]; simpl.
      * split; [intros _; split; eexists; reflexivity | intros _; eexists; reflexivity].
      * split; [intros [? H]; discriminate | intros [_ [? H]]; discriminate].
    + split; [intros [? H]; discriminate | intros [[? H] _]; discriminate].
Qed.

Lemma Article_validate_ok_iff (item : value) :
  (exists a, Article_validate w item = Ok a) <-> declared_article_ok w item = true.
Proof.
  unfold Article_validate, declared_article_ok, validate_str, validate_HttpUrl.
  destruct item as [| | | | |items|entries];
    try (split; [intros [? H]; discriminate | discriminate]).
  destruct (dict_get "title" entries) as [[]|]; simpl;
    try (split; [intros [? H]; discriminate | discriminate]).
  destruct (dict_get "summary" entries) as [[]|]; simpl;
    try (split; [intros [? H]; discriminate | discriminate]).
  destruct (dict_get "source_url" entries) as [[]|]; simpl;
    try (split; [intros [? H]; discriminate | discriminate]).
  destruct (HttpUrl w s1); simpl.
  - split; [reflexivity | intros _; eexists; reflexivity].
  - split; [intros [? H]; discriminate | discriminate].
Qed.

Lemma ArticleList_new_ok_iff (v : value) :
  (exists validated, ArticleList_new w v = Ok validated) <-> declared_schema_ok w v = true.
Proof.
  unfold ArticleList_new, declared_schema_ok.
  destruct v as [| | | | |items|kwargs];
    try (split; [intros [? H]; discriminate | discriminate]).
  destruct (dict_get "articles" kwargs) as [[]|];
    try (split; [intros [? H]; discriminate | discriminate]).
  rewrite <- (validate_each_ok_iff (Article_validate w) (declared_article_ok w) items)
    by (intros; apply Article_validate_ok_iff).
  destruct (validate_each (Article_validate w) items); simpl.
  - split; intros _; eexists; reflexivity.
  - split; intros [? H]; discriminate.
Qed.

Lemma validate_each_raise_class {A B : Type} (f : A -> result B) (k : exn_class)
    (l : list A) (e : exn) :
  (forall x e', f x = Raise e' -> cls e' = k) ->
  validate_each f l = Raise e -> cls e = k.
Proof.
  intros Hf. induction l as [|x l IH]; simpl; [discriminate|].
  destruct (f x) as [y|e'] eqn:E; simpl.
  - destruct (validate_each f l) as [ys|e'']; simpl; [discriminate|].
    intros H; injection H as <-. apply IH; reflexivity.
  - intros H; injection H as <-. eapply Hf; exact E.
Qed.

Lemma Article_validate_raise_class (item : value) (e : exn) :
  Article_validate w item = Raise e -> cls e = PydanticValidationError.
Proof.
  unfold Article_validate, validate_str, validate_HttpUrl.
  destruct item as [| | | | |items|entries];
    try (intros H; injection H as <-; reflexivity).
  destruct (dict_get "title" entries) as [[]|]; simpl;
    try (intros H; injection H as <-; reflexivity).
  destruct (dict_get "summary" entries) as [[]|]; simpl;
    try (intros H; injection H as <-; reflexivity).
  destruct (dict_get "source_url" entries) as [[]|]; simpl;
    try (intros H; injection H as <-; reflexivity).
  destruct (HttpUrl w s1); simpl; [discriminate|].
  intros H; injection H as <-; reflexivity.
Qed.

Lemma declared_schema_rejects_item (kwargs : list (string * value)) (items : list value)
    (item : value) :
  dict_get "articles" kwargs = Some (VList items) ->
  In item items ->
  declared_article_ok w item = false ->
  exists e, ArticleList_new w (VDict kwargs) = Raise e
            /\ cls e = PydanticValidationError.
Proof.
  intros Hget Hin Hbad.
  destruct (ArticleList_new w (VDict kwargs)) as [validated|e] eqn:E.
  - exfalso.
    assert (Hok : declared_schema_ok w (VDict kwargs) = true)
      by (apply ArticleList_new_ok_iff; eexists; exact E).
    simpl in Hok. rewrite Hget in Hok.
    rewrite forallb_forall in Hok. rewrite (Hok item Hin) in Hbad. discriminate.
  - exists e; split; [reflexivity|].
    simpl in E. rewrite Hget in E.
    destruct (validate_each (Article_validate w) items) as [ys|e'] eqn:E'; simpl in E;
      [discriminate|].
    injection E as <-.
    eapply validate_each_raise_class; [|exact E'].
    intros x e''. apply Article_validate_raise_class.
Qed.

End SchemaFacts.

(** C4, as the code has it.  Validation succeeds exactly on a mapping
    whose key [articles] holds a list of objects, each with a string
    [title] (the empty string included), a string [summary] and a
    [source_url] accepted by the URL type; an article object without
    [title], without [summary], or with a [source_url] the URL type
    refuses makes validation raise a schema error. *)
Theorem ArticleList_new_accepts_declared_schema (w : World) (v : value) :
  ((exists validated, ArticleList_new w v = Ok validated)
   <-> declared_schema_ok w v = true)
  /\ (forall kwargs items entries,
        v = VDict kwargs ->
        dict_get "articles" kwargs = Some (VList items) ->
        In (VDict entries) items ->
        (dict_get "title" entries = None
         \/ dict_get "summary" entries = None
         \/ exists u, dict_get "source_url" entries = Some (VStr u) /\ HttpUrl w u = None) ->
        exists e, ArticleList_new w v = Raise e /\ cls e = PydanticValidationError).
Proof.
  split; [apply ArticleList_new_ok_iff|].
  intros kwargs items entries -> Hget Hin Hbad.
  eapply declared_schema_rejects_item; [exact Hget | exact Hin |].
  unfold declared_article_ok.
  destruct Hbad as [H | [H | (u & H & Hu)]].
  - rewrite H. reflexivity.
  - rewrite H. destruct (dict_get "title" entries) as [[]|]; reflexivity.
  - rewrite H, Hu.
    destruct (dict_get "title" entries) as [[]|]; try reflexivity.
    destruct (dict_get "summary" entries) as [[]|]; reflexivity.
Qed.

Lemma ArticleList_new_accepts_declared_schema_witness :
  exists e,
    ArticleList_new Demo.plain_world Demo.value_missing_title = Raise e
    /\ cls e = PydanticValidationError.
Proof.
  destruct (ArticleList_new_accepts_declared_schema
              Demo.plain_world Demo.value_missing_title) as [_ H].
  apply (H [("articles",
             VList [VDict [("summary", VStr "S1");
                           ("source_url", VStr "http://example.com/a")]])]
           [VDict [("summary", VStr "S1"); ("source_url", VStr "http://example.com/a")]]
           [("summary", VStr "S1"); ("source_url", VStr "http://example.com/a")]).
  - reflexivity.
  - reflexivity.
  - left; reflexivity.
  - left; reflexivity.
Defined.

(** C4 as worded fails: an article whose [title] is the empty string
    passes validation, although the worded schema refuses it. *)
Lemma empty_title_passes_validation :
  ArticleList_new Demo.plain_world (Demo.document_value Demo.doc_empty_title)
  = Ok (ArticleList.mk [Article.mk EmptyString "S1" "http://example.com/a"])
  /\ worded_schema_ok Demo.plain_world (Demo.document_value Demo.doc_empty_title) = false.
Proof. split; vm_compute; reflexivity. Qed.

(* ================================================================= *)
(** * The article table *)

Section Table.

Lemma rows_with_sound (url : string) (rows : list NewsArticlePage.t) (i n : nat)
    (p : NewsArticlePage.t) :
  In (n, p) (rows_with url rows i) ->
  (i <= n)%nat /\ nth_error rows (n - i) = Some p /\ NewsArticlePage.source_url p = url.
Proof.
  revert i; induction rows as [|x rows IH]; intros i H; simpl in H; [contradiction|].
  destruct (String.eqb (NewsArticlePage.source_url x) url) eqn:E.
  - destruct H as [H | H].
    + injection H as <- <-. rewrite Nat.sub_diag. apply String.eqb_eq in E.
      repeat split; [lia | exact E].
    + apply IH in H as (Hle & Hn & Hu).
      replace (n - i)%nat with (S (n - S i)) by lia. repeat split; [lia | exact Hn | exact Hu].
  - apply IH in H as (Hle & Hn & Hu).
    replace (n - i)%nat with (S (n - S i)) by lia. repeat split; [lia | exact Hn | exact Hu].
Qed.

Lemma rows_with_absent (url : string) (rows : list NewsArticlePage.t) (i : nat) :
  ~ In url (map NewsArticlePage.source_url rows) -> rows_with url rows i = [].
Proof.
  revert i; induction rows as [|x rows IH]; intros i H; simpl in *; [reflexivity|].
  destruct (String.eqb (NewsArticlePage.source_url x) url) eqn:E.
  - apply String.eqb_eq in E. exfalso; apply H; left; exact E.
  - apply IH. intros Hin; apply H; right; exact Hin.
Qed.

Lemma rows_with_present (url : string) (rows : list NewsArticlePage.t) (i : nat) :
  In url (map NewsArticlePage.source_url rows) -> rows_with url rows i <> [].
Proof.
  revert i; induction rows as [|x rows IH]; intros i H; simpl in *; [contradiction|].
  destruct (String.eqb (NewsArticlePage.source_url x) url) eqn:E; [discriminate|].
  destruct H as [H | H]; [apply String.eqb_neq in E; contradiction | apply IH; exact H].
Qed.

Lemma rows_with_unique (url : string) (rows : list NewsArticlePage.t) (i : nat) :
  unique_source_url rows ->
  In url (map NewsArticlePage.source_url rows) ->
  exists n p, rows_with url rows i = [(n, p)].
Proof.
  unfold unique_source_url.
  revert i; induction rows as [|x rows IH]; intros i Hu Hin; simpl in *; [contradiction|].
  inversion Hu as [|? ? Hnotin Hrest]; subst.
  destruct (String.eqb (NewsArticlePage.source_url x) url) eqn:E.
  - apply String.eqb_eq in E. subst url.
    rewrite rows_with_absent by exact Hnotin. eauto.
  - apply String.eqb_neq in E.
    destruct Hin as [Hin | Hin]; [contradiction|]. apply IH; assumption.
Qed.

Lemma replace_row_length {A : Type} (n : nat) (x : A) (rows : list A) :
  List.length (replace_row n x rows) = List.length rows.
Proof.
  revert n; induction rows as [|y rows IH]; intros n; destruct n; simpl;
    try reflexivity.
  rewrite IH; reflexivity.
Qed.

Lemma replace_row_same {A : Type} (n : nat) (x y : A) (rows : list A) :
  nth_error rows n = Some y -> nth_error (replace_row n x rows) n = Some x.
Proof.
  revert n; induction rows as [|z rows IH]; intros n H; destruct n; simpl in *;
    try discriminate; [reflexivity | apply IH; exact H].
Qed.

Lemma replace_row_other {A : Type} (n m : nat) (x : A) (rows : list A) :
  m <> n -> nth_error (replace_row n x rows) m = nth_error rows m.
Proof.
  revert n m; induction rows as [|z rows IH]; intros n m H; destruct n, m; simpl;
    try reflexivity; [congruence | apply IH; congruence].
Qed.

Lemma replace_row_map {A B : Type} (f : A -> B) (n : nat) (x y : A) (rows : list A) :
  nth_error rows n = Some y -> f x = f y ->
  map f (replace_row n x rows) = map f rows.
Proof.
  revert n; induction rows as [|z rows IH]; intros n H Hf; destruct n; simpl in *;
    try discriminate.
  - injection H as ->. rewrite Hf. reflexivity.
  - f_equal. apply IH; assumption.
Qed.

Lemma replace_row_app {A : Type} (n : nat) (x y : A) (rows more : list A) :
  nth_error rows n = Some y ->
  replace_row n x (rows ++ more) = (replace_row n x rows ++ more)%list.
Proof.
  revert n; induction rows as [|z rows IH]; intros n H; destruct n; simpl in *;
    try discriminate; [reflexivity | f_equal; apply IH; exact H].
Qed.

Lemma same_frame_refl (p : NewsArticlePage.t) : same_frame p p.
Proof. unfold same_frame; repeat split. Qed.

Lemma same_frame_trans (p q r : NewsArticlePage.t) :
  same_frame p q -> same_frame q r -> same_frame p r.
Proof.
  unfold same_frame. intros (A1 & A2 & A3 & A4 & A5) (B1 & B2 & B3 & B4 & B5).
  repeat split; congruence.
Qed.

Lemma same_frame_updated (p : NewsArticlePage.t) (a : Article.t) :
  same_frame p (updated_page p a).
Proof. unfold same_frame; repeat split. Qed.

Lemma Forall2_same_frame_refl (rows : list NewsArticlePage.t) :
  Forall2 same_frame rows rows.
Proof. induction rows; constructor; [apply same_frame_refl | assumption]. Qed.

Lemma Forall2_same_frame_replace (n : nat) (p q : NewsArticlePage.t)
    (rows : list NewsArticlePage.t) :
  nth_error rows n = Some p -> same_frame p q ->
  Forall2 same_frame rows (replace_row n q rows).
Proof.
  revert n; induction rows as [|z rows IH]; intros n H Hf; destruct n; simpl in *;
    try discriminate.
  - injection H as ->. constructor; [exact Hf | apply Forall2_same_frame_refl].
  - constructor; [apply same_frame_refl | apply IH; assumption].
Qed.

Lemma survives_refl (rows : list NewsArticlePage.t) : survives rows rows.
Proof.
  exists rows, []. rewrite app_nil_r. split; [reflexivity | apply Forall2_same_frame_refl].
Qed.

Lemma Forall2_same_frame_trans (a b d : list NewsArticlePage.t) :
  Forall2 same_frame a b -> Forall2 same_frame b d -> Forall2 same_frame a d.
Proof.
  intros H; revert d; induction H as [|x y a b Hxy Hab IH]; intros d Hd;
    inversion Hd; subst; constructor.
  - eapply same_frame_trans; eassumption.
  - apply IH; assumption.
Qed.

Lemma survives_trans (a b d : list NewsArticlePage.t) :
  survives a b -> survives b d -> survives a d.
Proof.
  intros (k1 & a1 & -> & F1) (k2 & a2 & -> & F2).
  apply Forall2_app_inv_l in F2 as (k2a & k2b & F2a & F2b & ->).
  exists k2a, (k2b ++ a2)%list. split; [rewrite app_assoc; reflexivity|].
  eapply Forall2_same_frame_trans; eassumption.
Qed.

Lemma survives_length (a b : list NewsArticlePage.t) :
  survives a b -> (List.length a <= List.length b)%nat.
Proof.
  intros (k & added & -> & F). apply Forall2_length in F.
  rewrite length_app. lia.
Qed.

End Table.

(* ================================================================= *)
(** * The upsert of one article *)

Lemma db_error_not_DoesNotExist (d : db_error) :
  isinstance (exn_of_db_error d) DoesNotExist = false.
Proof. destruct d; reflexivity. Qed.

Section Upsert.
Variable w : World.
Variable news_list_page : NewsListPage.t.
Variable a : Article.t.
Variable s : State.

Lemma upsert_created :
  rows_with (Article.source_url a) (articles s) 0 = [] ->
  add_child_error w (articles s) (created_page w news_list_page a) = None ->
  upsert w news_list_page a s
  = (Ok tt,
     set_logs (set_articles s (articles s ++ [created_page w news_list_page a]))
       (logs s ++ [(INFO, "Added: '" ++ Article.title a ++ "'")])).
Proof.
  intros Hrows Hadd.
  unfold upsert, try_except, bind, objects_get. rewrite Hrows. simpl.
  unfold add_child. fold (created_page w news_list_page a). rewrite Hadd.
  reflexivity.
Qed.

Lemma upsert_create_fails (d : db_error) :
  rows_with (Article.source_url a) (articles s) 0 = [] ->
  add_child_error w (articles s) (created_page w news_list_page a) = Some d ->
  upsert w news_list_page a s = (Raise (exn_of_db_error d), s).
Proof.
  intros Hrows Hadd.
  unfold upsert, try_except, bind, objects_get. rewrite Hrows. simpl.
  unfold add_child. fold (created_page w news_list_page a). rewrite Hadd.
  reflexivity.
Qed.

Lemma upsert_updated (n : nat) (p : NewsArticlePage.t) :
  rows_with (Article.source_url a) (articles s) 0 = [(n, p)] ->
  save_error w (articles s) n (updated_page p a) = None ->
  upsert w news_list_page a s
  = (Ok tt,
     set_logs (set_articles s (replace_row n (updated_page p a) (articles s)))
       (logs s ++ [(INFO, "Updated: '" ++ Article.title a ++ "'")])).
Proof.
  intros Hrows Hsave.
  unfold upsert, try_except, bind, objects_get. rewrite Hrows. simpl.
  unfold save. fold (updated_page p a). rewrite Hsave.
  reflexivity.
Qed.

Lemma upsert_update_fails (n : nat) (p : NewsArticlePage.t) (d : db_error) :
  rows_with (Article.source_url a) (articles s) 0 = [(n, p)] ->
  save_error w (articles s) n (updated_page p a) = Some d ->
  upsert w news_list_page a s = (Raise (exn_of_db_error d), s).
Proof.
  intros Hrows Hsave.
  unfold upsert, try_except, bind, objects_get. rewrite Hrows. simpl.
  unfold save. fold (updated_page p a). rewrite Hsave.
  rewrite db_error_not_DoesNotExist. reflexivity.
Qed.

Lemma upsert_ambiguous (r1 r2 : nat * NewsArticlePage.t)
    (more : list (nat * NewsArticlePage.t)) :
  rows_with (Article.source_url a) (articles s) 0 = r1 :: r2 :: more ->
  upsert w news_list_page a s
  = (Raise (mkExn MultipleObjectsReturned "get() returned more than one NewsArticlePage"), s).
Proof.
  intros Hrows.
  unfold upsert, try_except, bind, objects_get. rewrite Hrows.
  reflexivity.
Qed.

(** Whatever the outcome, the table is left as it was, or has one more
    row for a [source_url] it did not have, or has the one row of that
    [source_url] rewritten in [title] and [summary]. *)
Lemma upsert_table (r : result unit) (s' : State) :
  upsert w news_list_page a s = (r, s') ->
  articles s' = articles s
  \/ (~ In (Article.source_url a) (map NewsArticlePage.source_url (articles s))
      /\ articles s' = (articles s ++ [created_page w news_list_page a])%list)
  \/ (exists n p, nth_error (articles s) n = Some p
                  /\ NewsArticlePage.source_url p = (Article.source_url a)
                  /\ articles s' = replace_row n (updated_page p a) (articles s)).
Proof.
  intros Hrun.
  destruct (rows_with (Article.source_url a) (articles s) 0) as [|[n p] [|r2 more]] eqn:Hrows.
  - destruct (add_child_error w (articles s) (created_page w news_list_page a)) as [d|] eqn:E.
    + rewrite (upsert_create_fails d Hrows E) in Hrun. injection Hrun as <- <-. left; reflexivity.
    + rewrite (upsert_created Hrows E) in Hrun. injection Hrun as <- <-.
      right; left. split; [|reflexivity].
      intros Hin. exact (rows_with_present (Article.source_url a) (articles s) 0 Hin Hrows).
  - assert (Hin : In (n, p) (rows_with (Article.source_url a) (articles s) 0)) by (rewrite Hrows; left; reflexivity).
    apply rows_with_sound in Hin as (_ & Hn & Hu). rewrite Nat.sub_0_r in Hn.
    destruct (save_error w (articles s) n (updated_page p a)) as [d|] eqn:E.
    + rewrite (upsert_update_fails n p d Hrows E) in Hrun. injection Hrun as <- <-.
      left; reflexivity.
    + rewrite (upsert_updated n p Hrows E) in Hrun. injection Hrun as <- <-.
      right; right. exists n, p. repeat split; assumption.
  - rewrite (upsert_ambiguous _ _ _ Hrows) in Hrun. injection Hrun as <- <-.
    left; reflexivity.
Qed.

Lemma upsert_keeps_unique (r : result unit) (s' : State) :
  upsert w news_list_page a s = (r, s') ->
  unique_source_url (articles s) -> unique_source_url (articles s').
Proof.
  intros Hrun Hu. unfold unique_source_url in *.
  destruct (upsert_table r s' Hrun) as [-> | [(Hnew & ->) | (n & p & Hn & Hp & ->)]].
  - exact Hu.
  - rewrite map_app. simpl. apply NoDup_app.
    + exact Hu.
    + constructor; [intros [] | constructor].
    + intros x Hx [<- | []]. exact (Hnew Hx).
  - rewrite (replace_row_map NewsArticlePage.source_url n _ p); [exact Hu | exact Hn | reflexivity].
Qed.

Lemma upsert_survives (r : result unit) (s' : State) :
  upsert w news_list_page a s = (r, s') -> survives (articles s) (articles s').
Proof.
  intros Hrun.
  destruct (upsert_table r s' Hrun) as [-> | [(Hnew & ->) | (n & p & Hn & Hp & ->)]].
  - apply survives_refl.
  - eexists _, _. split; [reflexivity | apply Forall2_same_frame_refl].
  - exists (replace_row n (updated_page p a) (articles s)), [].
    rewrite app_nil_r. split; [reflexivity|].
    eapply Forall2_same_frame_replace; [exact Hn | apply same_frame_updated].
Qed.

End Upsert.

Lemma rows_with_app (url : string) (l1 l2 : list NewsArticlePage.t) (i : nat) :
  rows_with url (l1 ++ l2) i
  = (rows_with url l1 i ++ rows_with url l2 (i + List.length l1))%list.
Proof.
  revert i; induction l1 as [|x l1 IH]; intros i; simpl.
  - rewrite Nat.add_0_r. reflexivity.
  - rewrite IH. replace (S i + List.length l1)%nat with (i + S (List.length l1))%nat by lia.
    destruct (String.eqb (NewsArticlePage.source_url x) url); reflexivity.
Qed.

Lemma replace_row_last {A : Type} (x y : A) (rows : list A) :
  replace_row (List.length rows) x (rows ++ [y]) = (rows ++ [x])%list.
Proof. induction rows as [|z rows IH]; simpl; [reflexivity | rewrite IH; reflexivity]. Qed.

Lemma nth_error_In_map {A B : Type} (f : A -> B) (rows : list A) (n : nat) (p : A) :
  nth_error rows n = Some p -> In (f p) (map f rows).
Proof. intros H. apply in_map. eapply nth_error_In; exact H. Qed.

(** C1, as the code has it.  On a table with at most one row per
    [source_url]: an article whose [source_url] is new gets exactly one
    new row, attached to the listing page, when [add_child] accepts the
    page, and when [add_child] refuses it the error is raised and the
    table is left as it was; an article whose [source_url] is known has
    the title and summary of its row overwritten and no row is added when
    [save] accepts the row, and when [save] refuses it the error is raised
    and the table is left as it was; whatever the outcome the table keeps
    at most one row per [source_url]; and an accepted upsert followed by an
    accepted upsert of the same [source_url] leaves one row for it,
    carrying the second title and summary. *)
Theorem upsert_one_page_per_source_url (w : World) (news_list_page : NewsListPage.t)
    (a : Article.t) (s : State) :
  unique_source_url (articles s) ->
  (~ In (Article.source_url a) (map NewsArticlePage.source_url (articles s)) ->
   add_child_error w (articles s) (created_page w news_list_page a) = None ->
   exists s',
     upsert w news_list_page a s = (Ok tt, s')
     /\ articles s' = (articles s ++ [created_page w news_list_page a])%list
     /\ NewsArticlePage.title (created_page w news_list_page a) = Article.title a
     /\ NewsArticlePage.summary (created_page w news_list_page a) = Article.summary a
     /\ NewsArticlePage.source_url (created_page w news_list_page a) = Article.source_url a
     /\ NewsArticlePage.parent (created_page w news_list_page a)
        = Some (NewsListPage.pk news_list_page))
  /\ (In (Article.source_url a) (map NewsArticlePage.source_url (articles s)) ->
      exists n p,
        nth_error (articles s) n = Some p
        /\ NewsArticlePage.source_url p = Article.source_url a
        /\ (save_error w (articles s) n (updated_page p a) = None ->
            exists s',
              upsert w news_list_page a s = (Ok tt, s')
              /\ articles s' = replace_row n (updated_page p a) (articles s)
              /\ List.length (articles s') = List.length (articles s)
              /\ NewsArticlePage.title (updated_page p a) = Article.title a
              /\ NewsArticlePage.summary (updated_page p a) = Article.summary a)
        /\ (forall d,
              save_error w (articles s) n (updated_page p a) = Some d ->
              upsert w news_list_page a s = (Raise (exn_of_db_error d), s)))
  /\ (forall r s', upsert w news_list_page a s = (r, s') ->
                   unique_source_url (articles s'))
  /\ (forall a',
        Article.source_url a' = Article.source_url a ->
        ~ In (Article.source_url a) (map NewsArticlePage.source_url (articles s)) ->
        add_child_error w (articles s) (created_page w news_list_page a) = None ->
        save_error w (articles s ++ [created_page w news_list_page a])
          (List.length (articles s)) (updated_page (created_page w news_list_page a) a')
        = None ->
        exists s1 s2,
          upsert w news_list_page a s = (Ok tt, s1)
          /\ upsert w news_list_page a' s1 = (Ok tt, s2)
          /\ articles s2
             = (articles s ++ [updated_page (created_page w news_list_page a) a'])%list)
  /\ (forall d,
        ~ In (Article.source_url a) (map NewsArticlePage.source_url (articles s)) ->
        add_child_error w (articles s) (created_page w news_list_page a) = Some d ->
        upsert w news_list_page a s = (Raise (exn_of_db_error d), s)).
Proof.
  intros Hu. split; [|split; [|split; [|split]]].
  - intros Hnew Hadd. eexists; split.
    + apply upsert_created; [apply rows_with_absent; exact Hnew | exact Hadd].
    + repeat split.
  - intros Hin.
    destruct (rows_with_unique _ _ 0%nat Hu Hin) as (n & p & Hrows).
    assert (Hmem : In (n, p) (rows_with (Article.source_url a) (articles s) 0))
      by (rewrite Hrows; left; reflexivity).
    apply rows_with_sound in Hmem as (_ & Hn & Hp). rewrite Nat.sub_0_r in Hn.
    exists n, p. split; [exact Hn|]. split; [exact Hp|]. split.
    + intros Hsave. eexists; split.
      * apply upsert_updated; [exact Hrows | exact Hsave].
      * split; [reflexivity | split; [|split; reflexivity]].
        simpl. apply replace_row_length.
    + intros d Hsave. apply upsert_update_fails with (n := n) (p := p);
        [exact Hrows | exact Hsave].
  - intros r s' Hrun. eapply upsert_keeps_unique; eassumption.
  - intros a' Hsame Hnew Hadd Hsave.
    eexists; eexists; split; [|split].
    + apply upsert_created; [apply rows_with_absent; exact Hnew | exact Hadd].
    + apply upsert_updated with (n := List.length (articles s)).
      * simpl. rewrite Hsame, rows_with_app, rows_with_absent by exact Hnew.
        simpl. rewrite String.eqb_refl. reflexivity.
      * simpl. exact Hsave.
    + simpl. apply replace_row_last.
  - intros d Hnew Hadd.
    apply upsert_create_fails; [apply rows_with_absent; exact Hnew | exact Hadd].
Qed.

Lemma upsert_one_page_per_source_url_witness :
  (exists s',
      upsert Demo.plain_world Demo.listing (Article.mk "T1" "S1" "http://example.com/a")
        (Demo.state []) = (Ok tt, s')
      /\ List.length (articles s') = 1%nat)
  /\ (exists s',
         upsert Demo.plain_world Demo.listing (Article.mk "T1" "S1" "http://example.com/a")
           (Demo.state [Demo.old_page]) = (Ok tt, s')
         /\ List.length (articles s') = 1%nat).
Proof.
  split.
  - destruct (upsert_one_page_per_source_url Demo.plain_world Demo.listing
                (Article.mk "T1" "S1" "http://example.com/a") (Demo.state []))
      as (Hnew & _).
    + vm_compute. constructor.
    + destruct Hnew as (s' & Hrun & Hrows & _).
      * simpl. intros [].
      * vm_compute; reflexivity.
      * exists s'. split; [exact Hrun | rewrite Hrows; reflexivity].
  - destruct (upsert_one_page_per_source_url Demo.plain_world Demo.listing
                (Article.mk "T1" "S1" "http://example.com/a") (Demo.state [Demo.old_page]))
      as (_ & Hold & _).
    + vm_compute. constructor; [intros [] | constructor].
    + destruct Hold as (n & p & Hn & Hp & Hupd & _).
      * simpl. left; reflexivity.
      * destruct n as [|n]; [|destruct n; discriminate Hn].
        injection Hn as <-.
        destruct Hupd as (s' & Hrun & _ & Hlen & _).
        -- vm_compute; reflexivity.
        -- exists s'. split; [exact Hrun | rewrite Hlen; reflexivity].
Defined.

(** C1 as worded fails: on a table with one row per [source_url], an
    article whose [source_url] is new but whose title, hence whose slug,
    is that of a page already under the listing page gets no row:
    [add_child] refuses the page, the upsert raises and the table is what
    it was. *)
Lemma new_source_url_with_used_slug_creates_no_page :
  unique_source_url
    (articles (Demo.state [NewsArticlePage.mk "Same" (mkDate 2024 6 1) "S1"
                             "http://example.com/a" EmptyString "article-gemini-4"
                             (Some 3)]))
  /\ ~ In "http://example.com/b"
         (map NewsArticlePage.source_url
            (articles (Demo.state [NewsArticlePage.mk "Same" (mkDate 2024 6 1) "S1"
                                     "http://example.com/a" EmptyString
                                     "article-gemini-4" (Some 3)])))
  /\ upsert Demo.plain_world Demo.listing (Article.mk "Same" "S2" "http://example.com/b")
       (Demo.state [NewsArticlePage.mk "Same" (mkDate 2024 6 1) "S1"
                      "http://example.com/a" EmptyString "article-gemini-4" (Some 3)])
     = (Raise (mkExn DjangoValidationError "This slug is already in use"),
        Demo.state [NewsArticlePage.mk "Same" (mkDate 2024 6 1) "S1"
                      "http://example.com/a" EmptyString "article-gemini-4" (Some 3)]).
Proof.
  split; [|split].
  - vm_compute. constructor; [intros [] | constructor].
  - simpl. intros [H | []]. discriminate H.
  - vm_compute. reflexivity.
Qed.

(* ================================================================= *)
(** * Relations every step of a run respects *)

Section Preservation.
Variable R : State -> State -> Prop.
Hypothesis R_refl : forall s, R s s.
Hypothesis R_trans : forall s1 s2 s3, R s1 s2 -> R s2 s3 -> R s1 s3.
Hypothesis R_logs : forall s l, R s (set_logs s l).
Hypothesis R_http : forall s l, R s (set_http_log s l).
Hypothesis R_model : forall s l, R s (set_model_log s l).
Hypothesis R_key : forall s k, R s (set_configured_key s k).
Variable w : World.
Hypothesis R_upsert : forall news_list_page a, preserves R (upsert w news_list_page a).

Lemma preserves_ret {A : Type} (a : A) : preserves R (ret a).
Proof. intros s r s' H; injection H as <- <-; apply R_refl. Qed.

Lemma preserves_raise {A : Type} (e : exn) : preserves R (@raise A e).
Proof. intros s r s' H; injection H as <- <-; apply R_refl. Qed.

Lemma preserves_lift {A : Type} (x : result A) : preserves R (lift x).
Proof. intros s r s' H; injection H as <- <-; apply R_refl. Qed.

Lemma preserves_bind {A B : Type} (m : M A) (k : A -> M B) :
  preserves R m -> (forall a, preserves R (k a)) -> preserves R (bind m k).
Proof.
  intros Hm Hk s r s' H. unfold bind in H.
  destruct (m s) as [[a|e] s1] eqn:E.
  - eapply R_trans; [eapply Hm; exact E | eapply Hk; exact H].
  - injection H as <- <-. eapply Hm; exact E.
Qed.

Lemma preserves_try_except {A : Type} (body : M A) (c : exn_class) (handler : exn -> M A) :
  preserves R body -> (forall e, preserves R (handler e)) ->
  preserves R (try_except body c handler).
Proof.
  intros Hb Hh s r s' H. unfold try_except in H.
  destruct (body s) as [[a|e] s1] eqn:E.
  - injection H as <- <-. eapply Hb; exact E.
  - destruct (isinstance e c).
    + eapply R_trans; [eapply Hb; exact E | eapply Hh; exact H].
    + injection H as <- <-. eapply Hb; exact E.
Qed.

Lemma preserves_for_each {A : Type} (l : list A) (body : A -> M unit) :
  (forall x, preserves R (body x)) -> preserves R (for_each l body).
Proof.
  intros Hb. induction l as [|x l IH]; simpl.
  - apply preserves_ret.
  - apply preserves_bind; [apply Hb | intros _; exact IH].
Qed.

Lemma preserves_logger_error (m : string) : preserves R (logger_error m).
Proof. intros s r s' H; injection H as <- <-; apply R_logs. Qed.

Lemma preserves_logger_info (m : string) : preserves R (logger_info m).
Proof. intros s r s' H; injection H as <- <-; apply R_logs. Qed.

Lemma preserves_fetch_snippet (source : ScrapingSource.t) :
  preserves R (fetch_snippet w source).
Proof.
  unfold fetch_snippet. apply preserves_try_except.
  - apply preserves_bind.
    + intros s r s' H. unfold requests_get_ in H.
      destruct (requests_get w (http_log s) (ScrapingSource.url_to_scrape source));
        injection H as <- <-; apply R_http.
    + intros response. apply preserves_bind.
      * unfold raise_for_status. destruct (status_error response);
          [apply preserves_raise | apply preserves_ret].
      * intros _. apply preserves_bind.
        -- unfold soup_select_one. destruct (select_one w _ _);
             [apply preserves_raise | apply preserves_ret | apply preserves_ret].
        -- intros [html|]; [apply preserves_ret|].
           apply preserves_bind; [apply preserves_logger_error | intros _; apply preserves_ret].
  - intros e. apply preserves_bind; [apply preserves_logger_error | intros _; apply preserves_ret].
Qed.

Lemma preserves_extract_articles (prompt : string) :
  preserves R (extract_articles w prompt).
Proof.
  unfold extract_articles. apply preserves_try_except.
  - apply preserves_bind.
    + intros s r s' H. unfold model_generate_content in H.
      injection H as <- <-. apply R_model.
    + intros response. destruct (parts response).
      * repeat (apply preserves_bind; [apply preserves_logger_error | intros _]).
        apply preserves_ret.
      * apply preserves_bind; [apply preserves_lift | intros response_text].
        destruct (clean_json_response (VStr response_text)).
        -- repeat (apply preserves_bind; [apply preserves_lift | intro]).
           apply preserves_ret.
        -- repeat (apply preserves_bind; [apply preserves_logger_error | intros _]).
           apply preserves_ret.
  - intros e. apply preserves_bind; [apply preserves_logger_error | intros _; apply preserves_ret].
Qed.

Lemma preserves_scrape_source (source : ScrapingSource.t) (news_list_page : NewsListPage.t) :
  preserves R (scrape_source w source news_list_page).
Proof.
  unfold scrape_source. apply preserves_bind; [apply preserves_fetch_snippet|].
  intros [html|]; [|apply preserves_ret].
  apply preserves_bind; [apply preserves_extract_articles|].
  intros [validated|]; [|apply preserves_ret].
  apply preserves_for_each. intros a. apply R_upsert.
Qed.

Lemma preserves_configure : preserves R (configure w).
Proof.
  unfold configure. apply preserves_try_except.
  - apply preserves_bind; [apply preserves_ret | intros api_key].
    destruct (negb (truthy api_key)); [apply preserves_raise|].
    apply preserves_bind; [|intros _; apply preserves_ret].
    intros s r s' H; injection H as <- <-; apply R_key.
  - intros e. apply preserves_bind; [apply preserves_logger_error | intros _; apply preserves_ret].
Qed.

Lemma preserves_resolve_sources (options_source : option string) :
  preserves R (resolve_sources options_source).
Proof.
  unfold resolve_sources. destruct (truthy options_source).
  - apply preserves_bind.
    + intros s r s' H; injection H as <- <-; apply R_refl.
    + intros [|x l]; [|apply preserves_ret].
      apply preserves_bind; [apply preserves_logger_error | intros _; apply preserves_ret].
  - apply preserves_bind; [|intros; apply preserves_ret].
    intros s r s' H; injection H as <- <-; apply R_refl.
Qed.

Lemma preserves_handle (options_source : option string) :
  preserves R (handle w options_source).
Proof.
  unfold handle. apply preserves_bind; [apply preserves_configure | intros configured].
  destruct (negb configured); [apply preserves_ret|].
  apply preserves_bind; [apply preserves_resolve_sources | intros [sources|]];
    [|apply preserves_ret].
  apply preserves_bind.
  - intros s r s' H; injection H as <- <-; apply R_refl.
  - intros [nlp|]; [|apply preserves_logger_error].
    apply preserves_bind; [|intros _; apply preserves_logger_info].
    apply preserves_for_each. intros source.
    apply preserves_bind; [apply preserves_logger_info | intros _].
    apply preserves_scrape_source.
Qed.

End Preservation.

(* ================================================================= *)
(** * What a whole run does to the article table *)

Lemma handle_survives (w : World) (options_source : option string) :
  preserves (fun s s' => survives (articles s) (articles s')) (handle w options_source).
Proof.
  apply preserves_handle; intros; try apply survives_refl.
  - eapply survives_trans; eassumption.
  - intros s r s' H. eapply upsert_survives; exact H.
Qed.

Lemma handle_keeps_unique (w : World) (options_source : option string) :
  preserves (fun s s' => unique_source_url (articles s) -> unique_source_url (articles s'))
    (handle w options_source).
Proof.
  apply preserves_handle; try (intros; assumption).
  - intros s1 s2 s3 H12 H23 H1. auto.
  - intros nlp a s r s' Hrun Hu. eapply upsert_keeps_unique; eassumption.
Qed.

Lemma unique_row (rows : list NewsArticlePage.t) (n m : nat) (p q : NewsArticlePage.t) :
  unique_source_url rows ->
  nth_error rows n = Some p -> nth_error rows m = Some q ->
  NewsArticlePage.source_url p = NewsArticlePage.source_url q ->
  n = m /\ p = q.
Proof.
  intros Hu Hn Hm Hpq.
  assert (E : n = m).
  { unfold unique_source_url in Hu. rewrite NoDup_nth_error in Hu. apply Hu.
    - rewrite length_map. apply nth_error_Some. congruence.
    - rewrite (map_nth_error _ _ _ Hn), (map_nth_error _ _ _ Hm). f_equal. exact Hpq. }
  split; [exact E|]. subst m. congruence.
Qed.

(** C8.  An update writes [title] and [summary] of the matching row and
    nothing else: its [source_url], [publication_date], [slug],
    [source_name] and parent stay, every other row stays, and the table
    keeps its length.  No run deletes a row: after any run of the command
    every row is still there, in place, up to [title] and [summary]. *)
Theorem update_overwrites_only_title_and_summary :
  (forall (w : World) (news_list_page : NewsListPage.t) (a : Article.t) (s : State)
          (n : nat) (p : NewsArticlePage.t),
      unique_source_url (articles s) ->
      nth_error (articles s) n = Some p ->
      NewsArticlePage.source_url p = Article.source_url a ->
      save_error w (articles s) n (updated_page p a) = None ->
      exists s' p',
        upsert w news_list_page a s = (Ok tt, s')
        /\ nth_error (articles s') n = Some p'
        /\ NewsArticlePage.title p' = Article.title a
        /\ NewsArticlePage.summary p' = Article.summary a
        /\ same_frame p p'
        /\ (forall m, m <> n -> nth_error (articles s') m = nth_error (articles s) m)
        /\ List.length (articles s') = List.length (articles s))
  /\ (forall (w : World) (options_source : option string) (s : State)
             (r : result unit) (s' : State),
         handle w options_source s = (r, s') ->
         survives (articles s) (articles s')
         /\ (List.length (articles s) <= List.length (articles s'))%nat).
Proof.
  split.
  - intros w nlp a s n p Hu Hn Hp Hsave.
    assert (Hin : In (Article.source_url a) (map NewsArticlePage.source_url (articles s))).
    { rewrite <- Hp. eapply nth_error_In_map; exact Hn. }
    destruct (rows_with_unique _ _ 0%nat Hu Hin) as (n' & p' & Hrows).
    assert (Hmem : In (n', p') (rows_with (Article.source_url a) (articles s) 0))
      by (rewrite Hrows; left; reflexivity).
    apply rows_with_sound in Hmem as (_ & Hn' & Hp'). rewrite Nat.sub_0_r in Hn'.
    destruct (unique_row _ _ _ _ _ Hu Hn Hn' ltac:(congruence)) as [<- <-].
    exists (set_logs (set_articles s (replace_row n (updated_page p a) (articles s)))
              (logs s ++ [(INFO, "Updated: '" ++ Article.title a ++ "'")])),
           (updated_page p a).
    split; [apply upsert_updated; assumption|].
    split; [simpl; eapply replace_row_same; exact Hn|].
    split; [reflexivity|]. split; [reflexivity|].
    split; [apply same_frame_updated|].
    split; [intros m Hm; simpl; apply replace_row_other; exact Hm|].
    simpl. apply replace_row_length.
  - intros w opts s r s' Hrun.
    pose proof (handle_survives w opts s r s' Hrun) as Hs.
    split; [exact Hs | apply survives_length; exact Hs].
Qed.

Lemma update_overwrites_only_title_and_summary_witness :
  exists s',
    upsert Demo.plain_world Demo.listing (Article.mk "T1" "S1" "http://example.com/a")
      (Demo.state [Demo.old_page]) = (Ok tt, s')
    /\ articles s'
       = [NewsArticlePage.mk "T1" (mkDate 2024 1 15) "S1" "http://example.com/a"
            EmptyString "old-slug" (Some 3)].
Proof.
  destruct update_overwrites_only_title_and_summary as [H _].
  destruct (H Demo.plain_world Demo.listing (Article.mk "T1" "S1" "http://example.com/a")
              (Demo.state [Demo.old_page]) 0%nat Demo.old_page)
    as (s' & p' & Hrun & Hn & Ht & Hs & Hf & _ & Hlen).
  - vm_compute. constructor; [intros [] | constructor].
  - reflexivity.
  - reflexivity.
  - reflexivity.
  - exists s'. split; [exact Hrun|].
    destruct (articles s') as [|x [|y rest]]; try discriminate Hlen.
    injection Hn as ->.
    destruct p' as [t d sm u sn sl pa]. unfold same_frame in Hf. simpl in *.
    destruct Hf as (-> & -> & -> & -> & ->). subst t sm. reflexivity.
Defined.

(* ================================================================= *)
(** * The run: credentials, source set, listing page, loop *)

Section Run.
Variable w : World.

Lemma configure_missing_key (s : State) :
  truthy (environ_get w "GOOGLE_API_KEY") = false ->
  configure w s
  = (Ok false,
     set_logs s (logs s ++ [(ERROR, "Config failed: GOOGLE_API_KEY not found.")])).
Proof.
  intros H. unfold configure, try_except, bind, os_environ_get, ret.
  rewrite H. reflexivity.
Qed.

Lemma configure_with_key (s : State) :
  truthy (environ_get w "GOOGLE_API_KEY") = true ->
  configure w s
  = (Ok true, set_configured_key s (environ_get w "GOOGLE_API_KEY")).
Proof.
  intros H. unfold configure, try_except, bind, os_environ_get, ret.
  rewrite H. reflexivity.
Qed.

Lemma resolve_sources_selected (options_source : option string) (s : State) :
  resolve_sources options_source s
  = match selected_sources options_source (sources s) with
    | [] =>
        if truthy options_source
        then (Ok None,
              set_logs s
                (logs s
                 ++ [(ERROR, "No active source named '"
                             ++ match options_source with
                                | Some n => n
                                | None => EmptyString
                                end ++ "' found.")]))
        else (Ok (Some []), s)
    | x :: l => (Ok (Some (x :: l)), s)
    end.
Proof.
  unfold resolve_sources, selected_sources.
  destruct options_source as [name|]; simpl.
  - destruct (String.eqb name EmptyString) eqn:E; simpl.
    + unfold bind, filter_active, ret.
      destruct (filter ScrapingSource.is_active (sources s)); reflexivity.
    + unfold bind, filter_name_iexact_active.
      destruct (filter _ (sources s)); reflexivity.
  - unfold bind, filter_active, ret.
    destruct (filter ScrapingSource.is_active (sources s)); reflexivity.
Qed.

Lemma handle_missing_key (options_source : option string) (s : State) :
  truthy (environ_get w "GOOGLE_API_KEY") = false ->
  handle w options_source s
  = (Ok tt,
     set_logs s (logs s ++ [(ERROR, "Config failed: GOOGLE_API_KEY not found.")])).
Proof.
  intros H. unfold handle, bind. rewrite (configure_missing_key s H). reflexivity.
Qed.

Lemma handle_no_source (name : string) (s : State) :
  truthy (environ_get w "GOOGLE_API_KEY") = true ->
  name <> EmptyString ->
  selected_sources (Some name) (sources s) = [] ->
  handle w (Some name) s
  = (Ok tt,
     set_logs (set_configured_key s (environ_get w "GOOGLE_API_KEY"))
       (logs s ++ [(ERROR, "No active source named '" ++ name ++ "' found.")])).
Proof.
  intros Hkey Hname Hsel. unfold handle, bind.
  rewrite (configure_with_key s Hkey). cbv beta iota delta [negb].
  rewrite resolve_sources_selected. simpl sources. rewrite Hsel.
  apply String.eqb_neq in Hname. simpl. rewrite Hname. reflexivity.
Qed.

Lemma handle_runs_loop (options_source : option string) (s : State)
    (news_list_page : NewsListPage.t) :
  truthy (environ_get w "GOOGLE_API_KEY") = true ->
  (truthy options_source = true -> selected_sources options_source (sources s) <> []) ->
  List.find NewsListPage.live (list_pages s) = Some news_list_page ->
  handle w options_source s
  = process_all w (selected_sources options_source (sources s)) news_list_page
      (set_configured_key s (environ_get w "GOOGLE_API_KEY")).
Proof.
  intros Hkey Hsel Hpage. unfold handle, bind at 1.
  rewrite (configure_with_key s Hkey). cbv beta iota delta [negb].
  unfold bind at 1. rewrite resolve_sources_selected. simpl sources.
  destruct (selected_sources options_source (sources s)) as [|x l] eqn:E.
  - destruct (truthy options_source) eqn:T.
    + exfalso. apply Hsel; reflexivity.
    + cbv beta iota. unfold bind at 1, first_live_list_page.
      cbn [list_pages set_configured_key]. rewrite Hpage. reflexivity.
  - unfold bind at 1, first_live_list_page.
    cbn [list_pages set_configured_key]. rewrite Hpage. reflexivity.
Qed.

End Run.

(** C6.  When the environment variable [GOOGLE_API_KEY] is absent or
    empty the command returns after logging one configuration error: no
    HTTP request, no model call, no change to the article table, and no
    key handed to the model library. *)
Theorem handle_without_api_key (w : World) (options_source : option string) (s : State) :
  environ_get w "GOOGLE_API_KEY" = None
  \/ environ_get w "GOOGLE_API_KEY" = Some EmptyString ->
  exists s',
    handle w options_source s = (Ok tt, s')
    /\ logs s' = (logs s ++ [(ERROR, "Config failed: GOOGLE_API_KEY not found.")])%list
    /\ http_log s' = http_log s
    /\ model_log s' = model_log s
    /\ articles s' = articles s
    /\ configured_key s' = configured_key s.
Proof.
  intros Hkey.
  assert (H : truthy (environ_get w "GOOGLE_API_KEY") = false)
    by (destruct Hkey as [-> | ->]; reflexivity).
  eexists. split; [apply handle_missing_key; exact H|].
  repeat split.
Qed.

Lemma handle_without_api_key_witness :
  exists s',
    handle (Demo.world None Demo.main_div Demo.reply_one [Demo.doc_one]) None
      (Demo.state []) = (Ok tt, s')
    /\ logs s' = [(ERROR, "Config failed: GOOGLE_API_KEY not found.")]
    /\ http_log s' = [] /\ model_log s' = [] /\ articles s' = [].
Proof.
  destruct (handle_without_api_key
              (Demo.world None Demo.main_div Demo.reply_one [Demo.doc_one]) None
              (Demo.state []))
    as (s' & Hrun & Hlogs & Hhttp & Hmodel & Hrows & _).
  - left; reflexivity.
  - exists s'. repeat split; assumption.
Defined.

Section SourcePass.
Variable w : World.
Variable source : ScrapingSource.t.
Variable s : State.

Lemma fetch_snippet_transport_error (message : string) :
  requests_get w (http_log s) (ScrapingSource.url_to_scrape source) = inl message ->
  fetch_snippet w source s
  = (Ok None, set_logs (after_request s source) (logs s ++ [(ERROR, "URL fetch error: " ++ message)])).
Proof.
  intros H. unfold fetch_snippet, try_except, bind, requests_get_. rewrite H. reflexivity.
Qed.

Lemma fetch_snippet_status_error (response : Response) (message : string) :
  requests_get w (http_log s) (ScrapingSource.url_to_scrape source) = inr response ->
  status_error response = Some message ->
  fetch_snippet w source s
  = (Ok None, set_logs (after_request s source) (logs s ++ [(ERROR, "URL fetch error: " ++ message)])).
Proof.
  intros H Hst. unfold fetch_snippet, try_except, bind, requests_get_, raise_for_status.
  rewrite H, Hst. reflexivity.
Qed.

Lemma fetch_snippet_no_match (response : Response) :
  requests_get w (http_log s) (ScrapingSource.url_to_scrape source) = inr response ->
  status_error response = None ->
  select_one w (content response) (ScrapingSource.html_selector source) = NoMatch ->
  fetch_snippet w source s
  = (Ok None,
     set_logs (after_request s source)
       (logs s ++ [(ERROR, "Could not find selector '"
                           ++ ScrapingSource.html_selector source ++ "' on page.")])).
Proof.
  intros H Hst Hsel.
  unfold fetch_snippet, try_except, bind, requests_get_, raise_for_status, soup_select_one.
  rewrite H, Hst. unfold ret at 1. rewrite Hsel. reflexivity.
Qed.

Lemma fetch_snippet_match (response : Response) (html_snippet : string) :
  requests_get w (http_log s) (ScrapingSource.url_to_scrape source) = inr response ->
  status_error response = None ->
  select_one w (content response) (ScrapingSource.html_selector source)
  = Match html_snippet ->
  fetch_snippet w source s = (Ok (Some html_snippet), after_request s source).
Proof.
  intros H Hst Hsel.
  unfold fetch_snippet, try_except, bind, requests_get_, raise_for_status, soup_select_one.
  rewrite H, Hst. unfold ret at 1. rewrite Hsel. reflexivity.
Qed.

Lemma fetch_snippet_bad_selector (response : Response) (message : string) :
  requests_get w (http_log s) (ScrapingSource.url_to_scrape source) = inr response ->
  status_error response = None ->
  select_one w (content response) (ScrapingSource.html_selector source)
  = SelectorInvalid message ->
  fetch_snippet w source s = (Raise (mkExn SelectorSyntaxError message), after_request s source).
Proof.
  intros H Hst Hsel.
  unfold fetch_snippet, try_except, bind, requests_get_, raise_for_status, soup_select_one.
  rewrite H, Hst. unfold ret at 1. rewrite Hsel. reflexivity.
Qed.

End SourcePass.

(** C7.  When the fetched page has no element matching the source's
    selector, the pass over that source logs the missing selector and
    returns: the model is not called and the article table is not
    touched. *)
Theorem scrape_source_selector_not_found (w : World) (source : ScrapingSource.t)
    (news_list_page : NewsListPage.t) (s : State) (response : Response) :
  requests_get w (http_log s) (ScrapingSource.url_to_scrape source) = inr response ->
  status_error response = None ->
  select_one w (content response) (ScrapingSource.html_selector source) = NoMatch ->
  exists s',
    scrape_source w source news_list_page s = (Ok tt, s')
    /\ logs s' = (logs s ++ [(ERROR, ("Could not find selector '"
                                      ++ ScrapingSource.html_selector source
                                      ++ "' on page.")%string)])%list
    /\ http_log s' = (http_log s ++ [ScrapingSource.url_to_scrape source])%list
    /\ model_log s' = model_log s
    /\ articles s' = articles s.
Proof.
  intros H Hst Hsel. eexists. split.
  - unfold scrape_source, bind.
    rewrite (fetch_snippet_no_match w source s response H Hst Hsel). reflexivity.
  - repeat split.
Qed.

Lemma scrape_source_selector_not_found_witness :
  exists s',
    scrape_source (Demo.world (Some "k") NoMatch Demo.reply_one [Demo.doc_one])
      Demo.source_test Demo.listing (Demo.state []) = (Ok tt, s')
    /\ logs s' = [(ERROR, "Could not find selector '#main' on page.")]
    /\ model_log s' = [] /\ articles s' = [].
Proof.
  destruct (scrape_source_selector_not_found
              (Demo.world (Some "k") NoMatch Demo.reply_one [Demo.doc_one])
              Demo.source_test Demo.listing (Demo.state [])
              (mkResponse None Demo.page_html))
    as (s' & Hrun & Hlogs & _ & Hmodel & Hrows).
  - reflexivity.
  - reflexivity.
  - reflexivity.
  - exists s'. repeat split; assumption.
Defined.




(* ================================================================= *)
(** * Runs that complete *)

Lemma bind_ok {A B : Type} (m : M A) (k : A -> M B) (s s1 : State) (a : A) :
  m s = (Ok a, s1) -> bind m k s = k a s1.
Proof. intros H. unfold bind. rewrite H. reflexivity. Qed.

Lemma bind_logger_info {B : Type} (m : string) (k : unit -> M B) (s : State) :
  bind (logger_info m) k s = k tt (set_logs s (logs s ++ [(INFO, m)])).
Proof. reflexivity. Qed.

Section Completion.
Variable w : World.
Hypothesis Hw : dependable w.

Lemma fetch_snippet_completes (source : ScrapingSource.t) (s : State) :
  exists fetched s',
    fetch_snippet w source s = (Ok fetched, s')
    /\ http_log s' = (http_log s ++ [ScrapingSource.url_to_scrape source])%list
    /\ articles s' = articles s.
Proof.
  destruct Hw as (_ & _ & Hsel).
  destruct (requests_get w (http_log s) (ScrapingSource.url_to_scrape source))
    as [message|response] eqn:Eget.
  - eexists; eexists. split; [apply fetch_snippet_transport_error; exact Eget|].
    split; reflexivity.
  - destruct (status_error response) as [message|] eqn:Est.
    + eexists; eexists. split; [eapply fetch_snippet_status_error; eassumption|].
      split; reflexivity.
    + destruct (select_one w (content response) (ScrapingSource.html_selector source))
        as [message| |html] eqn:Esel.
      * exfalso. exact (Hsel _ _ _ Esel).
      * eexists; eexists. split; [eapply fetch_snippet_no_match; eassumption|].
        split; reflexivity.
      * eexists; eexists. split; [eapply fetch_snippet_match; eassumption|].
        split; reflexivity.
Qed.

Lemma extract_articles_completes (prompt : string) (s : State) :
  exists extracted s',
    extract_articles w prompt s = (Ok extracted, s')
    /\ http_log s' = http_log s
    /\ articles s' = articles s.
Proof.
  unfold extract_articles, try_except, bind, model_generate_content, lift.
  destruct (generate_content w (model_log s) prompt) as [response|e].
  - destruct (parts response) as [|part more].
    + eexists; eexists. split; [reflexivity | split; reflexivity].
    + destruct (text response) as [response_text|e].
      * destruct (clean_json_response (VStr response_text)) as [cleaned|].
        -- destruct (json_loads w cleaned) as [v|e].
           ++ destruct (ArticleList_new w v) as [validated|e].
              ** eexists; eexists. split; [reflexivity | split; reflexivity].
              ** rewrite isinstance_Exception.
                 eexists; eexists. split; [reflexivity | split; reflexivity].
           ++ rewrite isinstance_Exception.
              eexists; eexists. split; [reflexivity | split; reflexivity].
        -- eexists; eexists. split; [reflexivity | split; reflexivity].
      * rewrite isinstance_Exception.
        eexists; eexists. split; [reflexivity | split; reflexivity].
  - rewrite isinstance_Exception.
    eexists; eexists. split; [reflexivity | split; reflexivity].
Qed.

Lemma upsert_completes (news_list_page : NewsListPage.t) (a : Article.t) (s : State) :
  unique_source_url (articles s) ->
  exists s',
    upsert w news_list_page a s = (Ok tt, s')
    /\ unique_source_url (articles s')
    /\ http_log s' = http_log s.
Proof.
  intros Hu. destruct Hw as (Hsave & Hadd & _).
  destruct (in_dec string_dec (Article.source_url a)
              (map NewsArticlePage.source_url (articles s))) as [Hin | Hnew].
  - destruct (rows_with_unique _ _ 0%nat Hu Hin) as (n & p & Hrows).
    eexists. split; [apply (upsert_updated w news_list_page a s n p Hrows (Hsave _ _ _))|].
    split; [|reflexivity].
    eapply upsert_keeps_unique; [|exact Hu].
    apply (upsert_updated w news_list_page a s n p Hrows (Hsave _ _ _)).
  - pose proof (rows_with_absent _ _ 0%nat Hnew) as Hrows.
    eexists. split; [apply (upsert_created w news_list_page a s Hrows (Hadd _ _))|].
    split; [|reflexivity].
    eapply upsert_keeps_unique; [|exact Hu].
    apply (upsert_created w news_list_page a s Hrows (Hadd _ _)).
Qed.

Lemma upsert_all_completes (news_list_page : NewsListPage.t) (l : list Article.t)
    (s : State) :
  unique_source_url (articles s) ->
  exists s',
    for_each l (upsert w news_list_page) s = (Ok tt, s')
    /\ unique_source_url (articles s')
    /\ http_log s' = http_log s.
Proof.
  revert s; induction l as [|a l IH]; intros s Hu; simpl.
  - exists s. repeat split; [exact Hu].
  - destruct (upsert_completes news_list_page a s Hu) as (s1 & Hrun & Hu1 & Hh1).
    destruct (IH s1 Hu1) as (s2 & Hrun2 & Hu2 & Hh2).
    exists s2. unfold bind. rewrite Hrun. split; [exact Hrun2|].
    split; [exact Hu2 | congruence].
Qed.

Lemma scrape_source_completes (source : ScrapingSource.t)
    (news_list_page : NewsListPage.t) (s : State) :
  unique_source_url (articles s) ->
  exists s',
    scrape_source w source news_list_page s = (Ok tt, s')
    /\ unique_source_url (articles s')
    /\ http_log s' = (http_log s ++ [ScrapingSource.url_to_scrape source])%list.
Proof.
  intros Hu. unfold scrape_source, bind at 1.
  destruct (fetch_snippet_completes source s) as (fetched & s1 & Hf & Hh1 & Ha1).
  rewrite Hf. destruct fetched as [html|].
  - unfold bind.
    destruct (extract_articles_completes
                (prompt_of (ScrapingSource.base_url source) html) s1)
      as (extracted & s2 & He & Hh2 & Ha2).
    rewrite He. destruct extracted as [validated|].
    + destruct (upsert_all_completes news_list_page (ArticleList.articles validated) s2)
        as (s3 & Hrun & Hu3 & Hh3); [congruence|].
      exists s3. split; [exact Hrun|]. split; [exact Hu3 | congruence].
    + exists s2. split; [reflexivity|]. split; congruence.
  - exists s1. split; [reflexivity|]. split; congruence.
Qed.

Lemma process_all_completes (sources : list ScrapingSource.t)
    (news_list_page : NewsListPage.t) (s : State) :
  unique_source_url (articles s) ->
  exists s',
    process_all w sources news_list_page s = (Ok tt, s')
    /\ (exists earlier,
           logs s' = (earlier ++ [(INFO, "All scraping tasks complete.")])%list)
    /\ http_log s' = (http_log s ++ map ScrapingSource.url_to_scrape sources)%list
    /\ unique_source_url (articles s').
Proof.
  intros Hu. unfold process_all.
  assert (Hloop : exists s1,
             for_each sources
               (fun source =>
                  bind (logger_info ("Scraping source: " ++ ScrapingSource.name source))
                       (fun _ => scrape_source w source news_list_page)) s
             = (Ok tt, s1)
             /\ unique_source_url (articles s1)
             /\ http_log s1
                = (http_log s ++ map ScrapingSource.url_to_scrape sources)%list).
  { revert s Hu. induction sources as [|x l IH]; intros s Hu; simpl.
    - exists s. rewrite app_nil_r. repeat split; [exact Hu].
    - destruct (scrape_source_completes x news_list_page
                  (set_logs s (logs s ++ [(INFO, "Scraping source: " ++ ScrapingSource.name x)])))
        as (s1 & Hrun & Hu1 & Hh1); [exact Hu|].
      destruct (IH s1 Hu1) as (s2 & Hrun2 & Hu2 & Hh2).
      exists s2. split; [|split; [exact Hu2|]].
      { erewrite bind_ok; [exact Hrun2|]. rewrite bind_logger_info. exact Hrun. }
      rewrite Hh2, Hh1. simpl. rewrite <- app_assoc. reflexivity. }
  destruct Hloop as (s1 & Hrun & Hu1 & Hh1).
  eexists. split; [erewrite bind_ok; [reflexivity | exact Hrun]|]. split; [|split].
  - exists (logs s1). reflexivity.
  - exact Hh1.
  - exact Hu1.
Qed.

End Completion.

Lemma handle_no_list_page (w : World) (options_source : option string) (s : State) :
  truthy (environ_get w "GOOGLE_API_KEY") = true ->
  (truthy options_source = true -> selected_sources options_source (sources s) <> []) ->
  List.find NewsListPage.live (list_pages s) = None ->
  handle w options_source s
  = (Ok tt,
     set_logs (set_configured_key s (environ_get w "GOOGLE_API_KEY"))
       (logs s ++ [(ERROR, "A 'NewsListPage' must be created in Wagtail first.")])).
Proof.
  intros Hkey Hsel Hpage. unfold handle, bind at 1.
  rewrite (configure_with_key w s Hkey). cbv beta iota delta [negb].
  unfold bind at 1. rewrite resolve_sources_selected. simpl sources.
  destruct (selected_sources options_source (sources s)) as [|x l] eqn:E.
  - destruct (truthy options_source) eqn:T.
    + exfalso. apply Hsel; reflexivity.
    + cbv beta iota. unfold bind at 1, first_live_list_page.
      cbn [list_pages set_configured_key]. rewrite Hpage. reflexivity.
  - unfold bind at 1, first_live_list_page.
    cbn [list_pages set_configured_key]. rewrite Hpage. reflexivity.
Qed.

(** C2, as the code has it.  Once the credentials, the source set and
    the listing page are resolved, and in a world whose persistence layer
    and selector parser raise nothing, the command returns normally, its
    last log line is the closing one, and every selected source has been
    fetched, in order, whatever happened to the sources before it.  When
    the key is missing, or the listing page is missing, the command
    returns normally after one error line and without the closing line. *)
Theorem handle_completes_once_configured (w : World) (options_source : option string)
    (s : State) :
  (truthy (environ_get w "GOOGLE_API_KEY") = true ->
   (truthy options_source = true -> selected_sources options_source (sources s) <> []) ->
   forall news_list_page,
     List.find NewsListPage.live (list_pages s) = Some news_list_page ->
     dependable w ->
     unique_source_url (articles s) ->
     exists s',
       handle w options_source s = (Ok tt, s')
       /\ (exists earlier,
              logs s' = (earlier ++ [(INFO, "All scraping tasks complete.")])%list)
       /\ http_log s'
          = (http_log s
             ++ map ScrapingSource.url_to_scrape
                  (selected_sources options_source (sources s)))%list)
  /\ (truthy (environ_get w "GOOGLE_API_KEY") = false
      \/ (truthy (environ_get w "GOOGLE_API_KEY") = true
          /\ (truthy options_source = true ->
              selected_sources options_source (sources s) <> [])
          /\ List.find NewsListPage.live (list_pages s) = None) ->
      exists s' message,
        handle w options_source s = (Ok tt, s')
        /\ logs s' = (logs s ++ [(ERROR, message)])%list
        /\ http_log s' = http_log s
        /\ articles s' = articles s).
Proof.
  split.
  - intros Hkey Hsel nlp Hpage Hw Hu.
    rewrite (handle_runs_loop w options_source s nlp Hkey Hsel Hpage).
    destruct (process_all_completes w Hw (selected_sources options_source (sources s)) nlp
                (set_configured_key s (environ_get w "GOOGLE_API_KEY")) Hu)
      as (s' & Hrun & Hlast & Hhttp & _).
    exists s'. split; [exact Hrun|]. split; [exact Hlast | exact Hhttp].
  - intros [Hkey | (Hkey & Hsel & Hpage)].
    + eexists; eexists. split; [apply handle_missing_key; exact Hkey|].
      split; [reflexivity | split; reflexivity].
    + eexists; eexists. split; [apply handle_no_list_page; assumption|].
      split; [reflexivity | split; reflexivity].
Qed.

Lemma lenient_world_dependable (api_key : option string) (reply : string)
    (docs : list (list Demo.item)) :
  dependable (Demo.lenient_world api_key Demo.main_div reply docs).
Proof. repeat split. intros content selector message; discriminate. Qed.

Lemma handle_completes_once_configured_witness :
  exists s',
    handle (Demo.lenient_world (Some "k") Demo.main_div Demo.reply_one [Demo.doc_one])
      None (Demo.state []) = (Ok tt, s')
    /\ (exists earlier,
           logs s' = (earlier ++ [(INFO, "All scraping tasks complete.")])%list)
    /\ http_log s' = ["http://example.com/list"; "http://example.org/list"].
Proof.
  destruct (handle_completes_once_configured
              (Demo.lenient_world (Some "k") Demo.main_div Demo.reply_one [Demo.doc_one])
              None (Demo.state [])) as [H _].
  destruct (H eq_refl) with (news_list_page := Demo.listing)
    as (s' & Hrun & Hlast & Hhttp).
  - discriminate.
  - reflexivity.
  - apply lenient_world_dependable.
  - constructor.
  - exists s'. split; [exact Hrun|]. split; [exact Hlast | exact Hhttp].
Defined.

(** C2 as worded fails: without the API key the command returns, and the
    closing log line is not among the lines it wrote. *)
Lemma run_without_key_has_no_closing_line :
  handle (Demo.world None Demo.main_div Demo.reply_one [Demo.doc_one]) None (Demo.state [])
  = (Ok tt,
     set_logs (Demo.state []) [(ERROR, "Config failed: GOOGLE_API_KEY not found.")])
  /\ ~ In (INFO, "All scraping tasks complete.")
         (logs (set_logs (Demo.state [])
                  [(ERROR, "Config failed: GOOGLE_API_KEY not found.")])).
Proof.
  split; [vm_compute; reflexivity|].
  simpl. intros [H | []]. discriminate.
Qed.

Lemma upsert_error_ends_loop (w : World) (news_list_page : NewsListPage.t)
    (a : Article.t) (rest : list Article.t) (s s' : State) (e : exn) :
  upsert w news_list_page a s = (Raise e, s') ->
  for_each (a :: rest) (upsert w news_list_page) s = (Raise e, s').
Proof. intros H. simpl. unfold bind. rewrite H. reflexivity. Qed.

(** C3 on a run: the model returns three valid articles, the second with
    the title of the first, hence with its slug, and the page tree
    refuses the second page.  The error leaves the loop, the pass and the
    command: the run ends by raising, the third article is never looked
    at, and no line about the error is logged. *)
Lemma persistence_error_escapes_article_loop :
  exists s',
    handle (Demo.world (Some "k") Demo.main_div
              (Demo.document_json Demo.doc_same_title) [Demo.doc_same_title])
      (Some "Test") (Demo.state [])
    = (Raise (mkExn DjangoValidationError "This slug is already in use"), s')
    /\ logs s' = [(INFO, "Scraping source: Test"); (INFO, "Added: 'Same'")]
    /\ map NewsArticlePage.source_url (articles s') = ["http://example.com/a"].
Proof.
  eexists. split; [vm_compute; reflexivity|]. split; reflexivity.
Qed.

(** The first scenario of the specification: one page is created. *)
Example scenario_creates_one_page :
  exists s',
    handle (Demo.world (Some "k") Demo.main_div Demo.reply_one [Demo.doc_one])
      (Some "Test") (Demo.state []) = (Ok tt, s')
    /\ articles s'
       = [NewsArticlePage.mk "T1" (mkDate 2024 6 1) "S1" "http://example.com/a"
            EmptyString "article-gemini-2" (Some 3)].
Proof. eexists. split; [vm_compute; reflexivity | reflexivity]. Qed.

(** The second scenario: the page already stored is updated in place. *)
Example scenario_updates_the_page :
  exists s',
    handle (Demo.world (Some "k") Demo.main_div Demo.reply_one [Demo.doc_one])
      (Some "Test") (Demo.state [Demo.old_page]) = (Ok tt, s')
    /\ articles s'
       = [NewsArticlePage.mk "T1" (mkDate 2024 1 15) "S1" "http://example.com/a"
            EmptyString "old-slug" (Some 3)].
Proof. eexists. split; [vm_compute; reflexivity | reflexivity]. Qed.

(** The third scenario: a response without any brace touches no page and
    the run goes on to the next source. *)
Example scenario_no_json :
  exists s',
    handle (Demo.world (Some "k") Demo.main_div "not json at all" []) None (Demo.state [])
    = (Ok tt, s')
    /\ articles s' = []
    /\ http_log s' = ["http://example.com/list"; "http://example.org/list"]
    /\ List.length (model_log s') = 2%nat
    /\ filter (fun entry => match fst entry with ERROR => true | INFO => false end) (logs s')
       = [(ERROR, "Could not find a valid JSON object in Gemini's response.");
          (ERROR, "--- RAW RESPONSE ---" ++ nl ++ "not json at all" ++ nl ++ "---");
          (ERROR, "Could not find a valid JSON object in Gemini's response.");
          (ERROR, "--- RAW RESPONSE ---" ++ nl ++ "not json at all" ++ nl ++ "---")].
Proof. eexists. split; [vm_compute; reflexivity | repeat split]. Qed.

(* ================================================================= *)
(** * More on the response validator *)

Lemma append_empty_r (s : string) : (s ++ EmptyString)%string = s.
Proof. induction s as [|a s IH]; simpl; [reflexivity | rewrite IH; reflexivity]. Qed.

Lemma substring_full (s : string) : String.substring 0 (String.length s) s = s.
Proof. induction s as [|a s IH]; simpl; [reflexivity | rewrite IH; reflexivity]. Qed.

Lemma substring_split (s : string) (n m : nat) :
  (n + m <= String.length s)%nat ->
  s = (String.substring 0 n s ++ String.substring n m s
       ++ String.substring (n + m) (String.length s - (n + m)) s)%string.
Proof.
  revert n m; induction s as [|a s IH]; intros n m H.
  - destruct n, m; simpl in *; try lia; reflexivity.
  - destruct n as [|n].
    + destruct m as [|m].
      * simpl. rewrite substring_full. reflexivity.
      * simpl in H. simpl. f_equal.
        specialize (IH 0%nat m ltac:(lia)). simpl in IH.
        destruct s as [|b s]; simpl in *; [destruct m; simpl in *; try lia; reflexivity|].
        exact IH.
    + simpl in H. simpl. f_equal. apply IH. lia.
Qed.

Lemma last_char_split (r : string) (c : ascii) :
  String.get (String.length r - 1) r = Some c ->
  exists front, r = (front ++ String c EmptyString)%string.
Proof.
  induction r as [|a r IH]; simpl; [discriminate|].
  destruct r as [|b r].
  - simpl. intros H; injection H as ->. exists EmptyString. reflexivity.
  - intros H. simpl in H. simpl in IH. rewrite Nat.sub_0_r in *.
    destruct (IH H) as [front ->]. exists (String a front). reflexivity.
Qed.

Section Delimited.
Variables (raw_text r : string).
Hypothesis Hclean : clean_json_response (VStr raw_text) = Some r.
Hypothesis Hne : r <> EmptyString.

Lemma cleaned_has_braces : occurs "{"%char raw_text /\ occurs "}"%char raw_text.
Proof.
  destruct (clean_json_response_none_iff raw_text) as [_ Hnone].
  split.
  - destruct (find "{"%char raw_text =? -1) eqn:E.
    + apply Z.eqb_eq, find_none_iff in E.
      rewrite (Hnone (or_introl E)) in Hclean. discriminate.
    + apply Z.eqb_neq in E. unfold find in E.
      destruct (find_from_spec "{"%char raw_text 0 ltac:(lia)) as [[H0 _] | (_ & Hg & _)];
        [contradiction | eexists; exact Hg].
  - destruct (rfind "}"%char raw_text =? -1) eqn:E.
    + apply Z.eqb_eq, rfind_none_iff in E.
      rewrite (Hnone (or_intror E)) in Hclean. discriminate.
    + apply Z.eqb_neq in E. unfold rfind in E.
      destruct (rfind_from_spec "}"%char raw_text 0 ltac:(lia)) as [[H0 _] | (_ & Hg & _)];
        [contradiction | eexists; exact Hg].
Qed.

Lemma cleaned_is_substring :
  0 <= find "{"%char raw_text <= rfind "}"%char raw_text
  /\ rfind "}"%char raw_text < len raw_text
  /\ r = String.substring (Z.to_nat (find "{"%char raw_text))
           (Z.to_nat (rfind "}"%char raw_text + 1 - find "{"%char raw_text)) raw_text.
Proof.
  destruct cleaned_has_braces as [H1 H2].
  destruct (find_first_index _ _ H1) as [(Hi0 & _) Hilt].
  destruct (rfind_last_index _ _ H2) as [(Hj0 & _) Hjlt].
  pose proof Hclean as Hc.
  rewrite (clean_json_response_some raw_text H1 H2) in Hc. injection Hc as Hr.
  destruct (Z_le_gt_dec (find "{"%char raw_text) (rfind "}"%char raw_text)) as [Hle | Hgt].
  - repeat split; try lia.
    rewrite <- Hr. unfold slice.
    rewrite !clamp_inside by lia.
    replace (find "{"%char raw_text <? rfind "}"%char raw_text + 1) with true
      by (symmetry; apply Z.ltb_lt; lia).
    reflexivity.
  - exfalso. apply Hne. rewrite <- Hr. apply slice_empty; lia.
Qed.

End Delimited.

(** X1.  A non-empty result of [clean_json_response] begins with an
    opening brace, ends with a closing brace and is one contiguous piece
    of the text: what stands before it has no opening brace and what
    stands after it has no closing brace. *)
Theorem clean_json_response_delimited (raw_text r : string) :
  clean_json_response (VStr raw_text) = Some r ->
  r <> EmptyString ->
  String.get 0 r = Some "{"%char
  /\ String.get (String.length r - 1) r = Some "}"%char
  /\ exists pre suf,
       raw_text = (pre ++ r ++ suf)%string
       /\ ~ occurs "{"%char pre
       /\ ~ occurs "}"%char suf.
Proof.
  intros Hclean Hne.
  destruct (cleaned_has_braces raw_text r Hclean) as [H1 H2].
  destruct (find_first_index _ _ H1) as [(Hi0 & Hig & Himin) Hilt].
  destruct (rfind_last_index _ _ H2) as [(Hj0 & Hjg & Hjmax) Hjlt].
  destruct (cleaned_is_substring raw_text r Hclean Hne) as (Hij & _ & Hr).
  set (i := Z.to_nat (find "{"%char raw_text)) in *.
  set (m := Z.to_nat (rfind "}"%char raw_text + 1 - find "{"%char raw_text)) in *.
  assert (Hbound : (i + m <= String.length raw_text)%nat) by (unfold len in *; lia).
  assert (Hlen : String.length r = m) by (rewrite Hr; apply substring_length; exact Hbound).
  split; [|split].
  - rewrite Hr, String.substring_correct1 by lia. exact Hig.
  - rewrite Hlen, Hr, String.substring_correct1 by lia.
    replace (m - 1 + i)%nat with (Z.to_nat (rfind "}"%char raw_text)) by lia.
    exact Hjg.
  - exists (String.substring 0 i raw_text),
           (String.substring (i + m) (String.length raw_text - (i + m)) raw_text).
    split; [rewrite Hr; apply substring_split; exact Hbound | split].
    + intros [k Hk].
      destruct (Nat.lt_ge_cases k i) as [Hlt | Hge].
      * rewrite String.substring_correct1 in Hk by exact Hlt.
        rewrite Nat.add_0_r in Hk. exact (Himin k Hlt Hk).
      * rewrite String.substring_correct2 in Hk by exact Hge. discriminate.
    + intros [k Hk].
      destruct (Nat.lt_ge_cases k (String.length raw_text - (i + m))) as [Hlt | Hge].
      * rewrite String.substring_correct1 in Hk by exact Hlt.
        apply (Hjmax (k + (i + m))%nat); [lia | exact Hk].
      * rewrite String.substring_correct2 in Hk by exact Hge. discriminate.
Qed.

Lemma clean_json_response_delimited_witness :
  String.get 0 (Demo.document_json Demo.doc_one) = Some "{"%char
  /\ exists pre suf,
       Demo.reply_one = (pre ++ Demo.document_json Demo.doc_one ++ suf)%string
       /\ ~ occurs "{"%char pre
       /\ ~ occurs "}"%char suf.
Proof.
  destruct (clean_json_response_delimited Demo.reply_one (Demo.document_json Demo.doc_one))
    as (H0 & _ & Hsplit).
  - vm_compute; reflexivity.
  - vm_compute; discriminate.
  - split; [exact H0 | exact Hsplit].
Defined.

(** X2.  Cleaning is idempotent: a non-empty result, cleaned again, is
    returned as it is; and the result is never longer than the text. *)
Theorem clean_json_response_idempotent (raw_text r : string) :
  clean_json_response (VStr raw_text) = Some r ->
  r <> EmptyString ->
  clean_json_response (VStr r) = Some r
  /\ (String.length r <= String.length raw_text)%nat.
Proof.
  intros Hclean Hne.
  destruct (cleaned_has_braces raw_text r Hclean) as [H1 H2].
  destruct (find_first_index _ _ H1) as [(Hi0 & Hig & _) _].
  destruct (rfind_last_index _ _ H2) as [(Hj0 & Hjg & _) Hjlt].
  destruct (cleaned_is_substring raw_text r Hclean Hne) as (Hij & _ & Hr).
  set (i := Z.to_nat (find "{"%char raw_text)) in *.
  set (m := Z.to_nat (rfind "}"%char raw_text + 1 - find "{"%char raw_text)) in *.
  assert (Hbound : (i + m <= String.length raw_text)%nat) by (unfold len in *; lia).
  assert (Hlen : String.length r = m) by (rewrite Hr; apply substring_length; exact Hbound).
  assert (Hfirst : String.get 0 r = Some "{"%char).
  { rewrite Hr, String.substring_correct1 by lia. exact Hig. }
  assert (Hlast : String.get (String.length r - 1) r = Some "}"%char).
  { rewrite Hlen, Hr, String.substring_correct1 by lia.
    replace (m - 1 + i)%nat with (Z.to_nat (rfind "}"%char raw_text)) by lia.
    exact Hjg. }
  split; [|lia].
  destruct r as [|a rest]; [congruence|].
  simpl in Hfirst. injection Hfirst as ->.
  destruct (last_char_split _ _ Hlast) as [front Hfront].
  pose proof (clean_json_response_wrapped EmptyString rest front EmptyString Hfront) as Hw.
  simpl in Hw. rewrite append_empty_r in Hw. apply Hw.
  - intros [k Hk]. destruct k; discriminate.
  - intros [k Hk]. destruct k; discriminate.
Qed.

Lemma clean_json_response_idempotent_witness :
  clean_json_response (VStr (Demo.document_json Demo.doc_one))
  = Some (Demo.document_json Demo.doc_one).
Proof.
  destruct (clean_json_response_idempotent Demo.reply_one
              (Demo.document_json Demo.doc_one)) as [H _].
  - vm_compute; reflexivity.
  - vm_compute; discriminate.
  - exact H.
Defined.

(* ================================================================= *)
(** * More on schema validation *)

Lemma validate_each_Forall2 {A B : Type} (f : A -> result B) (l : list A) (ys : list B) :
  validate_each f l = Ok ys -> Forall2 (fun x y => f x = Ok y) l ys.
Proof.
  revert ys; induction l as [|x l IH]; intros ys H; simpl in H.
  - injection H as <-. constructor.
  - destruct (f x) as [y|e] eqn:E; simpl in H; [|discriminate].
    destruct (validate_each f l) as [ys'|e]; simpl in H; [|discriminate].
    injection H as <-. constructor; [exact E | apply IH; reflexivity].
Qed.

Lemma Article_validate_decoded (w : World) (item : value) (a : Article.t) :
  Article_validate w item = Ok a -> decoded_as w item a.
Proof.
  unfold Article_validate, validate_str, validate_HttpUrl, decoded_as.
  destruct item as [| | | | |items|entries]; try discriminate.
  destruct (dict_get "title" entries) as [[| | | |t| |]|] eqn:Et; simpl;
    try discriminate.
  destruct (dict_get "summary" entries) as [[| | | |sm| |]|] eqn:Es; simpl;
    try discriminate.
  destruct (dict_get "source_url" entries) as [[| | | |u| |]|] eqn:Eu; simpl;
    try discriminate.
  destruct (HttpUrl w u) as [url|] eqn:E; simpl; [|discriminate].
  intros H; injection H as <-. exists entries, u. simpl.
  split; [reflexivity|]. split; [exact Et|]. split; [exact Es|].
  split; [exact Eu | exact E].
Qed.

(** X3.  A response that passes validation is a mapping whose
    [articles] list has one decoded object per validated article, in the
    same order, and each validated article carries the [title] and
    [summary] strings of its object and the URL type's reading of its
    [source_url]: validation neither drops, adds nor reorders articles. *)
Theorem ArticleList_new_keeps_order_and_fields (w : World) (v : value)
    (validated : ArticleList.t) :
  ArticleList_new w v = Ok validated ->
  exists kwargs items,
    v = VDict kwargs
    /\ dict_get "articles" kwargs = Some (VList items)
    /\ Forall2 (decoded_as w) items (ArticleList.articles validated)
    /\ List.length (ArticleList.articles validated) = List.length items.
Proof.
  unfold ArticleList_new.
  destruct v as [| | | | |items|kwargs]; try discriminate.
  destruct (dict_get "articles" kwargs) as [[| | | | |items|]|] eqn:E; try discriminate.
  destruct (validate_each (Article_validate w) items) as [ys|e] eqn:Ev; simpl;
    [|discriminate].
  intros H; injection H as <-. simpl.
  assert (F : Forall2 (decoded_as w) items ys).
  { apply validate_each_Forall2 in Ev. clear E.
    induction Ev as [|item a items ys Hitem Hrest IH].
    - constructor.
    - constructor; [apply Article_validate_decoded; exact Hitem | exact IH]. }
  exists kwargs, items. repeat split; try assumption.
  symmetry. eapply Forall2_length; exact F.
Qed.

Lemma ArticleList_new_keeps_order_and_fields_witness :
  exists kwargs items,
    Demo.document_value Demo.doc_same_title = VDict kwargs
    /\ dict_get "articles" kwargs = Some (VList items)
    /\ List.length items = 3%nat.
Proof.
  destruct (ArticleList_new_keeps_order_and_fields Demo.plain_world
              (Demo.document_value Demo.doc_same_title)
              (ArticleList.mk [Article.mk "Same" "S1" "http://example.com/a";
                               Article.mk "Same" "S2" "http://example.com/b";
                               Article.mk "Other" "S3" "http://example.com/c"]))
    as (kwargs & items & Hv & Hget & _ & Hlen).
  - vm_compute; reflexivity.
  - exists kwargs, items. repeat split; [exact Hv | exact Hget | rewrite <- Hlen; reflexivity].
Defined.

(* ================================================================= *)
(** * More on the source pass *)

Lemma extract_articles_outcome (w : World) (prompt : string) (s : State) :
  exists extracted s',
    extract_articles w prompt s = (Ok extracted, s')
    /\ model_log s' = (model_log s ++ [prompt])%list
    /\ http_log s' = http_log s
    /\ articles s' = articles s
    /\ sources s' = sources s
    /\ list_pages s' = list_pages s
    /\ exists added,
         logs s' = (logs s ++ added)%list
         /\ Forall is_error_line added
         /\ (extracted = None <-> added <> []).
Proof.
  unfold extract_articles, try_except, bind, model_generate_content, lift.
  destruct (generate_content w (model_log s) prompt) as [response|e].
  - destruct (parts response) as [|part more].
    + failed_with [(ERROR, "Gemini returned an empty response.");
                   (ERROR, ("Reason: " ++ prompt_feedback response)%string)].
    + destruct (text response) as [response_text|e].
      * destruct (clean_json_response (VStr response_text)) as [cleaned|].
        -- destruct (json_loads w cleaned) as [v|e].
           ++ destruct (ArticleList_new w v) as [validated|e].
              ** eexists; eexists; split; [reflexivity|].
                 repeat (split; [reflexivity|]).
                 exists []. split; [simpl; rewrite app_nil_r; reflexivity|].
                 split; [constructor|].
                 split; [discriminate | intros H; contradiction H; reflexivity].
              ** rewrite isinstance_Exception.
                 failed_with [(ERROR, ("Gemini processing failed: " ++ msg e)%string)].
           ++ rewrite isinstance_Exception.
              failed_with [(ERROR, ("Gemini processing failed: " ++ msg e)%string)].
        -- failed_with
             [(ERROR, "Could not find a valid JSON object in Gemini's response.");
              (ERROR, ("--- RAW RESPONSE ---" ++ nl ++ response_text ++ nl ++ "---")%string)].
      * rewrite isinstance_Exception.
        failed_with [(ERROR, ("Gemini processing failed: " ++ msg e)%string)].
  - rewrite isinstance_Exception.
    failed_with [(ERROR, ("Gemini processing failed: " ++ msg e)%string)].
Qed.

(** X4.  The model stage never raises, whatever the provider, the JSON
    decoder or the schema do: it returns after exactly one model call,
    leaves the HTTP log and every table alone, and it returns no article
    list exactly when it has logged at least one error line. *)
Theorem extract_articles_never_raises (w : World) (prompt : string) (s : State) :
  exists extracted s',
    extract_articles w prompt s = (Ok extracted, s')
    /\ model_log s' = (model_log s ++ [prompt])%list
    /\ http_log s' = http_log s
    /\ articles s' = articles s
    /\ sources s' = sources s
    /\ list_pages s' = list_pages s
    /\ exists added,
         logs s' = (logs s ++ added)%list
         /\ Forall is_error_line added
         /\ (extracted = None <-> added <> []).
Proof. exact (extract_articles_outcome w prompt s). Qed.

(** X5.  When the provider answers with no content parts, the pass over
    the source logs the empty response and the provider's feedback and
    returns: the text of the response is never read, nothing is decoded
    and the article table is not touched. *)
Theorem scrape_source_empty_response (w : World) (source : ScrapingSource.t)
    (news_list_page : NewsListPage.t) (s : State) (response : Response)
    (html_snippet : string) (generated : GenerateContentResponse) :
  requests_get w (http_log s) (ScrapingSource.url_to_scrape source) = inr response ->
  status_error response = None ->
  select_one w (content response) (ScrapingSource.html_selector source)
  = Match html_snippet ->
  generate_content w (model_log s)
    (prompt_of (ScrapingSource.base_url source) html_snippet) = Ok generated ->
  parts generated = [] ->
  exists s',
    scrape_source w source news_list_page s = (Ok tt, s')
    /\ logs s' = (logs s ++ [(ERROR, "Gemini returned an empty response.");
                             (ERROR, ("Reason: " ++ prompt_feedback generated)%string)])%list
    /\ model_log s'
       = (model_log s ++ [prompt_of (ScrapingSource.base_url source) html_snippet])%list
    /\ articles s' = articles s.
Proof.
  intros Hget Hst Hsel Hgen Hparts. eexists. split.
  - unfold scrape_source.
    erewrite bind_ok; [|eapply fetch_snippet_match; eassumption].
    unfold bind at 1, extract_articles, try_except, bind, model_generate_content.
    cbn [model_log after_request set_http_log]. rewrite Hgen, Hparts. reflexivity.
  - split; [simpl; rewrite <- app_assoc; reflexivity|]. split; reflexivity.
Qed.

Lemma scrape_source_empty_response_witness :
  exists s',
    scrape_source (Demo.custom_world (inr (mkResponse None Demo.page_html)) Demo.main_div
                     (Ok Demo.blocked_response))
      Demo.source_test Demo.listing (Demo.state []) = (Ok tt, s')
    /\ logs s' = [(ERROR, "Gemini returned an empty response.");
                  (ERROR, "Reason: block_reason: SAFETY")]
    /\ articles s' = [].
Proof.
  destruct (scrape_source_empty_response
              (Demo.custom_world (inr (mkResponse None Demo.page_html)) Demo.main_div
                 (Ok Demo.blocked_response))
              Demo.source_test Demo.listing (Demo.state [])
              (mkResponse None Demo.page_html) "<div id='main'>A</div>"
              Demo.blocked_response)
    as (s' & Hrun & Hlogs & _ & Hrows); try reflexivity.
  exists s'. repeat split; assumption.
Defined.

(** X6.  When the request fails in transport or comes back with an
    error status, the pass over the source logs the fetch error and
    returns: the page is not parsed, the model is not called and the
    article table is not touched. *)
Theorem scrape_source_fetch_error (w : World) (source : ScrapingSource.t)
    (news_list_page : NewsListPage.t) (s : State) (message : string) :
  requests_get w (http_log s) (ScrapingSource.url_to_scrape source) = inl message
  \/ (exists response,
         requests_get w (http_log s) (ScrapingSource.url_to_scrape source) = inr response
         /\ status_error response = Some message) ->
  exists s',
    scrape_source w source news_list_page s = (Ok tt, s')
    /\ logs s' = (logs s ++ [(ERROR, ("URL fetch error: " ++ message)%string)])%list
    /\ http_log s' = (http_log s ++ [ScrapingSource.url_to_scrape source])%list
    /\ model_log s' = model_log s
    /\ articles s' = articles s.
Proof.
  intros [Hfail | (response & Hget & Hst)]; eexists; split.
  - unfold scrape_source.
    erewrite bind_ok; [|apply fetch_snippet_transport_error; exact Hfail]. reflexivity.
  - repeat split.
  - unfold scrape_source.
    erewrite bind_ok; [|eapply fetch_snippet_status_error; eassumption]. reflexivity.
  - repeat split.
Qed.

Lemma scrape_source_fetch_error_witness :
  exists s',
    scrape_source (Demo.custom_world (inr (mkResponse (Some "404 Client Error") EmptyString))
                     Demo.main_div (Ok Demo.blocked_response))
      Demo.source_test Demo.listing (Demo.state []) = (Ok tt, s')
    /\ logs s' = [(ERROR, "URL fetch error: 404 Client Error")]
    /\ model_log s' = [] /\ articles s' = [].
Proof.
  destruct (scrape_source_fetch_error
              (Demo.custom_world (inr (mkResponse (Some "404 Client Error") EmptyString))
                 Demo.main_div (Ok Demo.blocked_response))
              Demo.source_test Demo.listing (Demo.state []) "404 Client Error")
    as (s' & Hrun & Hlogs & _ & Hmodel & Hrows).
  - right. eexists. split; reflexivity.
  - exists s'. repeat split; assumption.
Defined.

Lemma same_io_refl (s : State) : same_io s s.
Proof. unfold same_io; repeat split. Qed.

Lemma same_io_trans (s1 s2 s3 : State) : same_io s1 s2 -> same_io s2 s3 -> same_io s1 s3.
Proof.
  unfold same_io. intros (A1 & A2 & A3 & A4 & A5) (B1 & B2 & B3 & B4 & B5).
  repeat split; congruence.
Qed.

Lemma upsert_same_io (w : World) (news_list_page : NewsListPage.t) (a : Article.t) :
  preserves same_io (upsert w news_list_page a).
Proof.
  intros s r s' Hrun.
  destruct (rows_with (Article.source_url a) (articles s) 0) as [|[n p] [|r2 more]] eqn:Hrows.
  - destruct (add_child_error w (articles s) (created_page w news_list_page a)) as [d|] eqn:E.
    + rewrite (upsert_create_fails w news_list_page a s d Hrows E) in Hrun.
      injection Hrun as <- <-. apply same_io_refl.
    + rewrite (upsert_created w news_list_page a s Hrows E) in Hrun.
      injection Hrun as <- <-. unfold same_io; repeat split.
  - destruct (save_error w (articles s) n (updated_page p a)) as [d|] eqn:E.
    + rewrite (upsert_update_fails w news_list_page a s n p d Hrows E) in Hrun.
      injection Hrun as <- <-. apply same_io_refl.
    + rewrite (upsert_updated w news_list_page a s n p Hrows E) in Hrun.
      injection Hrun as <- <-. unfold same_io; repeat split.
  - rewrite (upsert_ambiguous w news_list_page a s _ _ _ Hrows) in Hrun.
    injection Hrun as <- <-. apply same_io_refl.
Qed.

Lemma upsert_all_same_io (w : World) (news_list_page : NewsListPage.t)
    (l : list Article.t) :
  preserves same_io (for_each l (upsert w news_list_page)).
Proof.
  apply preserves_for_each.
  - apply same_io_refl.
  - apply same_io_trans.
  - intros a. apply upsert_same_io.
Qed.

Lemma fetch_snippet_io (w : World) (source : ScrapingSource.t) (s : State) :
  http_log (snd (fetch_snippet w source s))
  = (http_log s ++ [ScrapingSource.url_to_scrape source])%list
  /\ model_log (snd (fetch_snippet w source s)) = model_log s
  /\ sources (snd (fetch_snippet w source s)) = sources s
  /\ list_pages (snd (fetch_snippet w source s)) = list_pages s
  /\ configured_key (snd (fetch_snippet w source s)) = configured_key s
  /\ articles (snd (fetch_snippet w source s)) = articles s.
Proof.
  destruct (requests_get w (http_log s) (ScrapingSource.url_to_scrape source))
    as [message|response] eqn:Eget.
  - rewrite (fetch_snippet_transport_error w source s message Eget). repeat split.
  - destruct (status_error response) as [message|] eqn:Est.
    + rewrite (fetch_snippet_status_error w source s response message Eget Est).
      repeat split.
    + destruct (select_one w (content response) (ScrapingSource.html_selector source))
        as [message| |html] eqn:Esel.
      * rewrite (fetch_snippet_bad_selector w source s response message Eget Est Esel).
        repeat split.
      * rewrite (fetch_snippet_no_match w source s response Eget Est Esel). repeat split.
      * rewrite (fetch_snippet_match w source s response html Eget Est Esel). repeat split.
Qed.

Lemma scrape_source_io (w : World) (source : ScrapingSource.t)
    (news_list_page : NewsListPage.t) (s : State) :
  http_log (snd (scrape_source w source news_list_page s))
  = (http_log s ++ [ScrapingSource.url_to_scrape source])%list
  /\ (model_log (snd (scrape_source w source news_list_page s)) = model_log s
      \/ exists html_snippet,
           model_log (snd (scrape_source w source news_list_page s))
           = (model_log s
              ++ [prompt_of (ScrapingSource.base_url source) html_snippet])%list)
  /\ sources (snd (scrape_source w source news_list_page s)) = sources s
  /\ list_pages (snd (scrape_source w source news_list_page s)) = list_pages s
  /\ configured_key (snd (scrape_source w source news_list_page s)) = configured_key s.
Proof.
  pose proof (fetch_snippet_io w source s) as Hf.
  destruct (scrape_source w source news_list_page s) as [r s'] eqn:Hrun. simpl.
  unfold scrape_source, bind at 1 in Hrun.
  destruct (fetch_snippet w source s) as [[[html|]|e] s1]; simpl in Hf;
    destruct Hf as (F1 & F2 & F3 & F4 & F5 & F6).
  - unfold bind at 1 in Hrun.
    destruct (extract_articles_outcome w (prompt_of (ScrapingSource.base_url source) html) s1)
      as (extracted & s2 & He & E1 & E2 & E3 & E4 & E5 & _).
    assert (E6 : configured_key s2 = configured_key s1).
    { exact (preserves_extract_articles
               (fun a b => configured_key b = configured_key a)
               (fun _ => eq_refl)
               (fun a b c H1 H2 => eq_trans H2 H1)
               (fun _ _ => eq_refl) (fun _ _ => eq_refl) w
               (prompt_of (ScrapingSource.base_url source) html) s1 _ _ He). }
    rewrite He in Hrun. destruct extracted as [validated|].
    + pose proof (upsert_all_same_io w news_list_page _ s2 r s' Hrun)
        as (U1 & U2 & U3 & U4 & U5).
      split; [congruence|]. split; [right; exists html; congruence|].
      repeat split; congruence.
    + injection Hrun as <- <-.
      split; [congruence|]. split; [right; exists html; congruence|].
      repeat split; congruence.
  - injection Hrun as <- <-.
    split; [exact F1|]. split; [left; exact F2|]. repeat split; assumption.
  - injection Hrun as <- <-.
    split; [exact F1|]. split; [left; exact F2|]. repeat split; assumption.
Qed.

(** X7.  However a pass over a source ends, normally or by an
    exception, it has issued exactly one HTTP request, to the source's
    URL, and at most one model call, whose prompt is built from the
    source's base URL. *)
Theorem scrape_source_one_request (w : World) (source : ScrapingSource.t)
    (news_list_page : NewsListPage.t) (s : State) :
  http_log (snd (scrape_source w source news_list_page s))
  = (http_log s ++ [ScrapingSource.url_to_scrape source])%list
  /\ (model_log (snd (scrape_source w source news_list_page s)) = model_log s
      \/ exists html_snippet,
           model_log (snd (scrape_source w source news_list_page s))
           = (model_log s
              ++ [prompt_of (ScrapingSource.base_url source) html_snippet])%list).
Proof.
  destruct (scrape_source_io w source news_list_page s) as (H1 & H2 & _).
  split; assumption.
Qed.

(* ================================================================= *)
(** * More on the run *)

Lemma selected_sources_active (options_source : option string)
    (rows : list ScrapingSource.t) (source : ScrapingSource.t) :
  In source (selected_sources options_source rows) ->
  In source rows /\ ScrapingSource.is_active source = true.
Proof.
  unfold selected_sources.
  destruct options_source as [name|]; [destruct (String.eqb name EmptyString)|];
    rewrite filter_In; try tauto.
  rewrite andb_true_iff. tauto.
Qed.

Lemma for_each_cons {A : Type} (x : A) (l : list A) (body : A -> M unit) :
  for_each (x :: l) body = bind (body x) (fun _ => for_each l body).
Proof. reflexivity. Qed.

Lemma loop_requests (w : World) (news_list_page : NewsListPage.t)
    (l : list ScrapingSource.t) (s : State) (r : result unit) (s' : State) :
  for_each l (fun source =>
                bind (logger_info ("Scraping source: " ++ ScrapingSource.name source))
                     (fun _ => scrape_source w source news_list_page)) s = (r, s') ->
  exists fetched rest,
    l = (fetched ++ rest)%list
    /\ http_log s' = (http_log s ++ map ScrapingSource.url_to_scrape fetched)%list
    /\ (List.length (model_log s')
        <= List.length (model_log s) + List.length fetched)%nat.
Proof.
  revert s; induction l as [|x l IH]; intros s Hrun.
  - injection Hrun as <- <-. exists [], []. simpl. rewrite app_nil_r. repeat split; lia.
  - rewrite for_each_cons in Hrun. unfold bind at 1 in Hrun.
    rewrite bind_logger_info in Hrun.
    pose proof (scrape_source_io w x news_list_page
                  (set_logs s (logs s ++ [(INFO, "Scraping source: " ++ ScrapingSource.name x)])))
      as (H1 & H2 & _).
    destruct (scrape_source w x news_list_page
                (set_logs s (logs s ++ [(INFO, "Scraping source: " ++ ScrapingSource.name x)])))
      as [[[]|e] s1]; simpl in H1, H2.
    + destruct (IH s1 Hrun) as (fetched & rest & -> & Hh & Hm).
      exists (x :: fetched), rest. split; [reflexivity|]. split.
      * rewrite Hh, H1. simpl. rewrite <- app_assoc. reflexivity.
      * destruct H2 as [H2 | [html H2]]; rewrite H2 in Hm;
          [| rewrite length_app in Hm]; simpl in *; lia.
    + injection Hrun as <- <-.
      exists [x], l. split; [reflexivity|]. split; [exact H1|].
      destruct H2 as [H2 | [html H2]]; rewrite H2; [| rewrite length_app]; simpl; lia.
Qed.

Lemma process_all_requests (w : World) (news_list_page : NewsListPage.t)
    (l : list ScrapingSource.t) (s : State) :
  exists fetched rest,
    l = (fetched ++ rest)%list
    /\ http_log (snd (process_all w l news_list_page s))
       = (http_log s ++ map ScrapingSource.url_to_scrape fetched)%list
    /\ (List.length (model_log (snd (process_all w l news_list_page s)))
        <= List.length (model_log s) + List.length fetched)%nat.
Proof.
  unfold process_all, bind at 1 3.
  destruct (for_each l _ s) as [r s1] eqn:Hrun.
  destruct (loop_requests w news_list_page l s r s1 Hrun) as (fetched & rest & Hl & Hh & Hm).
  exists fetched, rest. split; [exact Hl|].
  destruct r as [[]|e]; simpl; split; assumption.
Qed.

(** X9.  However a run ends, the HTTP requests it has issued go to the
    sources it was asked to process, one request each, in registry order
    and without gaps from the first on; so a source that is inactive, or
    that does not bear the requested name, is never fetched.  The model
    is called at most once per request. *)
Theorem handle_fetches_selected_sources_only (w : World) (options_source : option string)
    (s : State) :
  exists fetched rest,
    selected_sources options_source (sources s) = (fetched ++ rest)%list
    /\ http_log (snd (handle w options_source s))
       = (http_log s ++ map ScrapingSource.url_to_scrape fetched)%list
    /\ Forall (fun source => In source (sources s)
                             /\ ScrapingSource.is_active source = true) fetched
    /\ (List.length (model_log (snd (handle w options_source s)))
        <= List.length (model_log s) + List.length fetched)%nat.
Proof.
  assert (Hnone : forall s',
             http_log s' = http_log s -> model_log s' = model_log s ->
             exists fetched rest,
               selected_sources options_source (sources s) = (fetched ++ rest)%list
               /\ http_log s' = (http_log s ++ map ScrapingSource.url_to_scrape fetched)%list
               /\ Forall (fun source => In source (sources s)
                                        /\ ScrapingSource.is_active source = true) fetched
               /\ (List.length (model_log s')
                   <= List.length (model_log s) + List.length fetched)%nat).
  { intros s' Hh Hm. exists [], (selected_sources options_source (sources s)).
    simpl. rewrite app_nil_r, Hh, Hm. repeat split; [constructor | lia]. }
  destruct (truthy (environ_get w "GOOGLE_API_KEY")) eqn:Hkey.
  - destruct (truthy options_source) eqn:Hopt.
    + destruct (selected_sources options_source (sources s)) as [|x l] eqn:Hsel.
      * destruct options_source as [name|]; [|discriminate].
        assert (Hname : name <> EmptyString).
        { intros ->. discriminate. }
        rewrite (handle_no_source w name s Hkey Hname Hsel).
        apply Hnone; reflexivity.
      * destruct (List.find NewsListPage.live (list_pages s)) as [nlp|] eqn:Hpage.
        -- rewrite (handle_runs_loop w options_source s nlp Hkey
                      ltac:(intros _; rewrite Hsel; discriminate) Hpage).
           destruct (process_all_requests w nlp
                       (selected_sources options_source (sources s))
                       (set_configured_key s (environ_get w "GOOGLE_API_KEY")))
             as (fetched & rest & Hl & Hh & Hm).
           exists fetched, rest. rewrite <- Hsel. split; [exact Hl|].
           split; [exact Hh|]. split; [|exact Hm].
           apply Forall_forall. intros source Hin.
           apply (selected_sources_active options_source).
           rewrite Hl. apply in_or_app. left; exact Hin.
        -- rewrite (handle_no_list_page w options_source s Hkey
                      ltac:(intros _; rewrite Hsel; discriminate) Hpage).
           apply Hnone; reflexivity.
    + destruct (List.find NewsListPage.live (list_pages s)) as [nlp|] eqn:Hpage.
      * rewrite (handle_runs_loop w options_source s nlp Hkey
                   ltac:(intros H; congruence) Hpage).
        destruct (process_all_requests w nlp
                    (selected_sources options_source (sources s))
                    (set_configured_key s (environ_get w "GOOGLE_API_KEY")))
          as (fetched & rest & Hl & Hh & Hm).
        exists fetched, rest. split; [exact Hl|].
        split; [exact Hh|]. split; [|exact Hm].
        apply Forall_forall. intros source Hin.
        apply (selected_sources_active options_source).
        rewrite Hl. apply in_or_app. left; exact Hin.
      * rewrite (handle_no_list_page w options_source s Hkey
                   ltac:(intros H; congruence) Hpage).
        apply Hnone; reflexivity.
  - rewrite (handle_missing_key w options_source s Hkey). apply Hnone; reflexivity.
Qed.

(* ================================================================= *)
(** * More on the article table *)

Lemma lookup_row_none_iff (url : string) (rows : list NewsArticlePage.t) :
  lookup_row url rows = None <-> ~ In url (map NewsArticlePage.source_url rows).
Proof.
  unfold lookup_row. induction rows as [|x rows IH]; simpl.
  - split; [intros _ [] | reflexivity].
  - destruct (String.eqb (NewsArticlePage.source_url x) url) eqn:E.
    + apply String.eqb_eq in E. split; [discriminate | intros H; exfalso; apply H; left; exact E].
    + apply String.eqb_neq in E. rewrite IH. tauto.
Qed.

Lemma lookup_row_app (url : string) (rows more : list NewsArticlePage.t) :
  lookup_row url (rows ++ more)
  = match lookup_row url rows with
    | Some p => Some p
    | None => lookup_row url more
    end.
Proof.
  unfold lookup_row. induction rows as [|x rows IH]; simpl; [reflexivity|].
  destruct (String.eqb (NewsArticlePage.source_url x) url); [reflexivity | exact IH].
Qed.

Lemma lookup_row_replace_other (url : string) (n : nat) (p p' : NewsArticlePage.t)
    (rows : list NewsArticlePage.t) :
  nth_error rows n = Some p ->
  NewsArticlePage.source_url p' = NewsArticlePage.source_url p ->
  NewsArticlePage.source_url p <> url ->
  lookup_row url (replace_row n p' rows) = lookup_row url rows.
Proof.
  unfold lookup_row.
  revert n; induction rows as [|x rows IH]; intros n Hn Hsame Hother; destruct n;
    simpl in *; try discriminate.
  - injection Hn as ->. rewrite Hsame.
    apply String.eqb_neq in Hother. rewrite Hother. reflexivity.
  - destruct (String.eqb (NewsArticlePage.source_url x) url); [reflexivity|].
    apply IH; assumption.
Qed.

Lemma lookup_row_replace_same (n : nat) (p p' : NewsArticlePage.t)
    (rows : list NewsArticlePage.t) :
  unique_source_url rows ->
  nth_error rows n = Some p ->
  NewsArticlePage.source_url p' = NewsArticlePage.source_url p ->
  lookup_row (NewsArticlePage.source_url p) (replace_row n p' rows) = Some p'.
Proof.
  unfold lookup_row, unique_source_url.
  revert n; induction rows as [|x rows IH]; intros n Hu Hn Hsame; destruct n;
    simpl in *; try discriminate.
  - rewrite Hsame, String.eqb_refl. reflexivity.
  - inversion Hu as [|? ? Hnotin Hrest]; subst.
    destruct (String.eqb (NewsArticlePage.source_url x) (NewsArticlePage.source_url p)) eqn:E.
    + apply String.eqb_eq in E. exfalso. apply Hnotin. rewrite E.
      eapply nth_error_In_map; exact Hn.
    + apply IH; assumption.
Qed.

Lemma replace_row_unchanged {A : Type} (n : nat) (x : A) (rows : list A) :
  nth_error rows n = Some x -> replace_row n x rows = rows.
Proof.
  revert n; induction rows as [|y rows IH]; intros n H; destruct n; simpl in *;
    try discriminate.
  - injection H as ->. reflexivity.
  - f_equal. apply IH; exact H.
Qed.

Section AcceptedUpsert.
Variable w : World.
Hypothesis Hw : dependable w.
Variable news_list_page : NewsListPage.t.

Lemma upsert_accepted (a : Article.t) (s : State) :
  unique_source_url (articles s) ->
  (~ In (Article.source_url a) (map NewsArticlePage.source_url (articles s))
   /\ upsert w news_list_page a s
      = (Ok tt,
         set_logs (set_articles s (articles s ++ [created_page w news_list_page a]))
           (logs s ++ [(INFO, "Added: '" ++ Article.title a ++ "'")])))
  \/ (exists n p,
         nth_error (articles s) n = Some p
         /\ NewsArticlePage.source_url p = Article.source_url a
         /\ upsert w news_list_page a s
            = (Ok tt,
               set_logs (set_articles s (replace_row n (updated_page p a) (articles s)))
                 (logs s ++ [(INFO, "Updated: '" ++ Article.title a ++ "'")]))).
Proof.
  intros Hu. destruct Hw as (Hsave & Hadd & _).
  destruct (in_dec string_dec (Article.source_url a)
              (map NewsArticlePage.source_url (articles s))) as [Hin | Hnew].
  - right. destruct (rows_with_unique _ _ 0%nat Hu Hin) as (n & p & Hrows).
    assert (Hmem : In (n, p) (rows_with (Article.source_url a) (articles s) 0))
      by (rewrite Hrows; left; reflexivity).
    apply rows_with_sound in Hmem as (_ & Hn & Hp). rewrite Nat.sub_0_r in Hn.
    exists n, p. repeat split; try assumption.
    apply upsert_updated; [exact Hrows | apply Hsave].
  - left. split; [exact Hnew|].
    apply upsert_created; [apply rows_with_absent; exact Hnew | apply Hadd].
Qed.

Lemma upsert_then_lookup (a : Article.t) (s : State) :
  unique_source_url (articles s) ->
  exists s1,
    upsert w news_list_page a s = (Ok tt, s1)
    /\ unique_source_url (articles s1)
    /\ (exists p, lookup_row (Article.source_url a) (articles s1) = Some p
                  /\ NewsArticlePage.title p = Article.title a
                  /\ NewsArticlePage.summary p = Article.summary a)
    /\ (forall url, url <> Article.source_url a ->
                    lookup_row url (articles s1) = lookup_row url (articles s))
    /\ (List.length (articles s1) <= List.length (articles s) + 1)%nat.
Proof.
  intros Hu.
  destruct (upsert_accepted a s Hu) as [(Hnew & Hrun) | (n & p & Hn & Hp & Hrun)];
    eexists; (split; [exact Hrun|]);
    (split; [eapply upsert_keeps_unique; [exact Hrun | exact Hu]|]); simpl.
  - split; [|split].
    + exists (created_page w news_list_page a).
      rewrite lookup_row_app.
      apply lookup_row_none_iff in Hnew. rewrite Hnew.
      unfold lookup_row. simpl. rewrite String.eqb_refl. repeat split.
    + intros url Hother. rewrite lookup_row_app.
      destruct (lookup_row url (articles s)); [reflexivity|].
      unfold lookup_row. simpl.
      replace (String.eqb (Article.source_url a) url) with false; [reflexivity|].
      symmetry. apply String.eqb_neq. congruence.
    + rewrite length_app. simpl. lia.
  - split; [|split].
    + exists (updated_page p a). rewrite <- Hp.
      rewrite (lookup_row_replace_same n p (updated_page p a)); try assumption;
        repeat split.
    + intros url Hother.
      apply (lookup_row_replace_other url n p); [exact Hn | reflexivity | congruence].
    + rewrite replace_row_length. lia.
Qed.

End AcceptedUpsert.

(** X10.  Upserting the same article twice is the same as upserting it
    once: on a table with one row per [source_url], and with a
    persistence layer that accepts the writes, the second upsert returns
    normally and leaves the table exactly as the first one made it. *)
Theorem upsert_twice_is_upsert_once (w : World) (news_list_page : NewsListPage.t)
    (a : Article.t) (s : State) :
  dependable w ->
  unique_source_url (articles s) ->
  exists s1 s2,
    upsert w news_list_page a s = (Ok tt, s1)
    /\ upsert w news_list_page a s1 = (Ok tt, s2)
    /\ articles s2 = articles s1.
Proof.
  intros Hw Hu.
  destruct (upsert_accepted w Hw news_list_page a s Hu)
    as [(Hnew & Hrun) | (n & p & Hn & Hp & Hrun)].
  - eexists; eexists. split; [exact Hrun|].
    destruct Hw as (Hsave & _).
    split.
    + apply upsert_updated with (n := List.length (articles s))
                                (p := created_page w news_list_page a).
      * simpl. rewrite rows_with_app, rows_with_absent by exact Hnew.
        simpl. rewrite String.eqb_refl. reflexivity.
      * apply Hsave.
    + simpl. apply replace_row_last.
  - assert (Hu1 : unique_source_url (replace_row n (updated_page p a) (articles s))).
    { exact (upsert_keeps_unique w news_list_page a s _ _ Hrun Hu). }
    assert (Hn1 : nth_error (replace_row n (updated_page p a) (articles s)) n
                  = Some (updated_page p a))
      by (eapply replace_row_same; exact Hn).
    destruct (upsert_accepted w Hw news_list_page a
                (set_logs (set_articles s (replace_row n (updated_page p a) (articles s)))
                   (logs s ++ [(INFO, "Updated: '" ++ Article.title a ++ "'")])) Hu1)
      as [(Hnew & _) | (n' & q & Hn' & Hq & Hrun')].
    + exfalso. apply Hnew. simpl. rewrite <- Hp.
      change (NewsArticlePage.source_url p)
        with (NewsArticlePage.source_url (updated_page p a)).
      eapply nth_error_In_map; exact Hn1.
    + simpl in Hn'.
      destruct (unique_row _ _ _ _ _ Hu1 Hn1 Hn' ltac:(simpl; congruence)) as [<- <-].
      eexists; eexists. split; [exact Hrun|]. split; [exact Hrun'|].
      simpl. apply replace_row_unchanged. exact Hn1.
Qed.

Lemma upsert_twice_is_upsert_once_witness :
  exists s1 s2,
    upsert (Demo.lenient_world (Some "k") Demo.main_div Demo.reply_one [Demo.doc_one])
      Demo.listing (Article.mk "T1" "S1" "http://example.com/a")
      (Demo.state [Demo.old_page]) = (Ok tt, s1)
    /\ upsert (Demo.lenient_world (Some "k") Demo.main_div Demo.reply_one [Demo.doc_one])
         Demo.listing (Article.mk "T1" "S1" "http://example.com/a") s1 = (Ok tt, s2)
    /\ articles s2 = articles s1.
Proof.
  apply upsert_twice_is_upsert_once.
  - apply lenient_world_dependable.
  - vm_compute. constructor; [intros [] | constructor].
Defined.

(** X11.  Upserting a validated list, article by article, on a table
    with one row per [source_url] and with a persistence layer that
    accepts the writes: the loop returns normally, the table still has
    one row per [source_url], the row of every [source_url] of the list
    carries the title and summary of the last article of the list with
    that [source_url], the row of any other [source_url] is looked up as
    before, and at most one row per article has been added. *)
Theorem upsert_all_last_article_wins (w : World) (news_list_page : NewsListPage.t)
    (l : list Article.t) (s : State) :
  dependable w ->
  unique_source_url (articles s) ->
  exists s',
    for_each l (upsert w news_list_page) s = (Ok tt, s')
    /\ unique_source_url (articles s')
    /\ (forall url a,
          last_with url l = Some a ->
          exists p, lookup_row url (articles s') = Some p
                    /\ NewsArticlePage.title p = Article.title a
                    /\ NewsArticlePage.summary p = Article.summary a)
    /\ (forall url,
          last_with url l = None ->
          lookup_row url (articles s') = lookup_row url (articles s))
    /\ (List.length (articles s') <= List.length (articles s) + List.length l)%nat.
Proof.
  intros Hw. revert s; induction l as [|a l IH]; intros s Hu.
  - exists s. simpl. repeat split; try assumption; try lia. intros url a H; discriminate.
  - destruct (upsert_then_lookup w Hw news_list_page a s Hu)
      as (s1 & Hrun & Hu1 & (p & Hp & Ht & Hs) & Hother & Hlen).
    destruct (IH s1 Hu1) as (s' & Hrun' & Hu' & Hlast & Hnone & Hlen').
    exists s'. split; [rewrite for_each_cons; erewrite bind_ok; [exact Hrun' | exact Hrun]|].
    split; [exact Hu'|]. split; [|split].
    + intros url b Hb. simpl in Hb.
      destruct (last_with url l) as [b'|] eqn:E.
      * injection Hb as <-. apply Hlast. exact E.
      * destruct (String.eqb (Article.source_url a) url) eqn:Ea; [|discriminate].
        injection Hb as <-. apply String.eqb_eq in Ea. subst url.
        exists p. rewrite (Hnone _ E). repeat split; assumption.
    + intros url Hb. simpl in Hb.
      destruct (last_with url l) as [b'|] eqn:E; [discriminate|].
      destruct (String.eqb (Article.source_url a) url) eqn:Ea; [discriminate|].
      apply String.eqb_neq in Ea.
      rewrite (Hnone _ E). apply Hother. congruence.
    + simpl. lia.
Qed.

Lemma upsert_all_last_article_wins_witness :
  exists s' p,
    for_each [Article.mk "First" "S1" "http://example.com/a";
              Article.mk "Second" "S2" "http://example.com/a"]
      (upsert (Demo.lenient_world (Some "k") Demo.main_div Demo.reply_one [Demo.doc_one])
         Demo.listing) (Demo.state []) = (Ok tt, s')
    /\ lookup_row "http://example.com/a" (articles s') = Some p
    /\ NewsArticlePage.title p = "Second"
    /\ (List.length (articles s') <= 2)%nat.
Proof.
  destruct (upsert_all_last_article_wins
              (Demo.lenient_world (Some "k") Demo.main_div Demo.reply_one [Demo.doc_one])
              Demo.listing
              [Article.mk "First" "S1" "http://example.com/a";
               Article.mk "Second" "S2" "http://example.com/a"]
              (Demo.state []))
    as (s' & Hrun & _ & Hlast & _ & Hlen).
  - apply lenient_world_dependable.
  - vm_compute. constructor.
  - destruct (Hlast "http://example.com/a" (Article.mk "Second" "S2" "http://example.com/a"))
      as (p & Hp & Ht & _); [reflexivity|].
    exists s', p. repeat split; assumption.
Defined.

(* ================================================================= *)
(** * The listing view: pagination *)

Section Pagination.
Variable int : string -> option Z.
Variable all_articles : list NewsArticlePage.t.

Lemma num_pages_bounds :
  1 <= (Paginator.num_pages all_articles 10)
  /\ Z.of_nat (List.length all_articles) <= 10 * (Paginator.num_pages all_articles 10)
  /\ 10 * ((Paginator.num_pages all_articles 10) - 1) < Z.max 1 (Z.of_nat (List.length all_articles)).
Proof.
  unfold Paginator.num_pages, Paginator.count.
  set (hits := Z.max 1 (Z.of_nat (List.length all_articles) - 0)).
  pose proof (Z.div_mod (hits + 10 - 1) 10 ltac:(lia)) as Hdiv.
  pose proof (Z.mod_pos_bound (hits + 10 - 1) 10 ltac:(lia)) as Hmod.
  unfold hits in *. lia.
Qed.

Lemma list_slice_inside {A : Type} (l : list A) (lo hi : Z) :
  0 <= lo <= hi -> hi <= Z.of_nat (List.length l) ->
  list_slice l lo hi = firstn (Z.to_nat (hi - lo)) (skipn (Z.to_nat lo) l).
Proof.
  intros H1 H2. unfold list_slice.
  rewrite !clamp_inside by lia.
  destruct (lo <? hi) eqn:E; [reflexivity|].
  apply Z.ltb_ge in E. replace (hi - lo) with 0 by lia. reflexivity.
Qed.

Lemma page_in_range (n : Z) :
  1 <= n <= (Paginator.num_pages all_articles 10) ->
  Paginator.page int all_articles 10 (Paginator.Literal n)
  = inr (Paginator.mkPage (firstn 10 (skipn (Z.to_nat (10 * (n - 1))) all_articles)) n).
Proof.
  intros Hn. destruct num_pages_bounds as (Hp1 & Hp2 & Hp3).
  unfold Paginator.page, Paginator.validate_number.
  replace (n <? 1) with false by (symmetry; apply Z.ltb_ge; lia).
  replace ((Paginator.num_pages all_articles 10) <? n) with false by (symmetry; apply Z.ltb_ge; lia).
  f_equal. f_equal. unfold Paginator.count.
  set (c := Z.of_nat (List.length all_articles)) in *.
  assert (Hb : 0 <= (n - 1) * 10 <= c) by lia.
  destruct (c <=? (n - 1) * 10 + 10 + 0) eqn:E.
  - apply Z.leb_le in E.
    rewrite list_slice_inside by (fold c; lia).
    replace (Z.to_nat ((n - 1) * 10)) with (Z.to_nat (10 * (n - 1))) by lia.
    assert (Hlen : List.length (skipn (Z.to_nat (10 * (n - 1))) all_articles)
                   = Z.to_nat (c - (n - 1) * 10)).
    { rewrite length_skipn. unfold c. lia. }
    rewrite firstn_all2 by lia. rewrite firstn_all2 by lia. reflexivity.
  - apply Z.leb_gt in E.
    rewrite list_slice_inside by (fold c; lia).
    replace (Z.to_nat ((n - 1) * 10)) with (Z.to_nat (10 * (n - 1))) by lia.
    replace (Z.to_nat ((n - 1) * 10 + 10 - (n - 1) * 10)) with 10%nat by lia.
    reflexivity.
Qed.

Lemma get_context_cases (page : option string) :
  get_context int all_articles page
  = match match page with Some s => int s | None => None end with
    | None => Paginator.page int all_articles 10 (Paginator.Literal 1)
    | Some n =>
        if (n <? 1) || ((Paginator.num_pages all_articles 10) <? n)
        then Paginator.page int all_articles 10 (Paginator.Literal (Paginator.num_pages all_articles 10))
        else Paginator.page int all_articles 10 (Paginator.Literal n)
    end.
Proof.
  unfold get_context, Paginator.page at 1, Paginator.validate_number at 1.
  destruct page as [s|]; [destruct (int s) as [n|]|]; try reflexivity.
  destruct (n <? 1) eqn:E1; simpl; [reflexivity|].
  destruct ((Paginator.num_pages all_articles 10) <? n) eqn:E2; simpl; [reflexivity|].
  unfold Paginator.page, Paginator.validate_number.
  rewrite E1, E2. reflexivity.
Qed.

Lemma get_context_shown (page : option string) :
  exists n,
    1 <= n <= (Paginator.num_pages all_articles 10)
    /\ get_context int all_articles page
       = inr (Paginator.mkPage
                (firstn 10 (skipn (Z.to_nat (10 * (n - 1))) all_articles)) n)
    /\ (match page with Some s => int s | None => None end = None -> n = 1)
    /\ (forall k, match page with Some s => int s | None => None end = Some k ->
                  (1 <= k <= (Paginator.num_pages all_articles 10) -> n = k)
                  /\ (k < 1 \/ (Paginator.num_pages all_articles 10) < k -> n = (Paginator.num_pages all_articles 10))).
Proof.
  destruct num_pages_bounds as (Hp1 & _).
  rewrite get_context_cases.
  destruct (match page with Some s => int s | None => None end) as [k|].
  - destruct ((k <? 1) || ((Paginator.num_pages all_articles 10) <? k)) eqn:E.
    + apply orb_true_iff in E.
      exists (Paginator.num_pages all_articles 10). split; [lia|]. split; [apply page_in_range; lia|].
      split; [discriminate|]. intros k' H; injection H as <-.
      split; [|reflexivity].
      intros Hk. destruct E as [E | E]; apply Z.ltb_lt in E; lia.
    + apply orb_false_iff in E. destruct E as [E1 E2].
      apply Z.ltb_ge in E1, E2.
      exists k. split; [lia|]. split; [apply page_in_range; lia|].
      split; [discriminate|]. intros k' H; injection H as <-.
      split; [reflexivity | lia].
  - exists 1. split; [lia|]. split; [apply page_in_range; lia|].
    split; [reflexivity | discriminate].
Qed.

End Pagination.

(** X12.  The listing view always has a page to show, whatever the
    [page] parameter of the request: neither fallback can fail.  The page
    shown has a number between 1 and the number of pages, holds the ten
    articles at its place in the list (fewer on the last page), and is
    empty only when there is no article at all. *)
Theorem get_context_always_shows_a_page (int : string -> option Z)
    (all_articles : list NewsArticlePage.t) (page : option string) :
  exists shown,
    get_context int all_articles page = inr shown
    /\ 1 <= Paginator.number shown <= Paginator.num_pages all_articles 10
    /\ Paginator.object_list shown
       = firstn 10 (skipn (Z.to_nat (10 * (Paginator.number shown - 1))) all_articles)
    /\ (List.length (Paginator.object_list shown) <= 10)%nat
    /\ (all_articles <> [] -> Paginator.object_list shown <> []).
Proof.
  destruct (get_context_shown int all_articles page) as (n & Hn & Hrun & _).
  destruct (num_pages_bounds all_articles) as (_ & _ & Hlt).
  eexists. split; [exact Hrun|]. cbn [Paginator.object_list Paginator.number].
  split; [exact Hn|]. split; [reflexivity|]. split.
  - rewrite length_firstn. lia.
  - intros Hne Hempty.
    assert (Hpos : (0 < List.length all_articles)%nat)
      by (destruct all_articles; [congruence | simpl; lia]).
    apply (f_equal (@List.length _)) in Hempty.
    rewrite length_firstn, length_skipn in Hempty.
    change (List.length (@nil NewsArticlePage.t)) with 0%nat in Hempty. lia.
Qed.

(** X13.  A request without a [page] parameter, or with one that is
    not an integer, is shown the first page: the first ten articles. *)
Theorem get_context_defaults_to_first_page (int : string -> option Z)
    (all_articles : list NewsArticlePage.t) (page : option string) :
  page = None \/ (exists s, page = Some s /\ int s = None) ->
  get_context int all_articles page = inr (Paginator.mkPage (firstn 10 all_articles) 1).
Proof.
  intros H.
  destruct (get_context_shown int all_articles page) as (n & _ & Hrun & Hfirst & _).
  assert (Hn : n = 1).
  { apply Hfirst. destruct H as [-> | (s & -> & Hs)]; [reflexivity | exact Hs]. }
  subst n. exact Hrun.
Qed.

Lemma get_context_defaults_to_first_page_witness :
  get_context Demo.int Demo.pages_23 (Some "next")
  = inr (Paginator.mkPage (firstn 10 Demo.pages_23) 1).
Proof.
  apply get_context_defaults_to_first_page.
  right. exists "next". split; reflexivity.
Defined.

(** X14.  A request whose [page] parameter is an integer below 1 (zero
    and negative numbers included) or above the number of pages is shown
    the last page: the articles after the last full ten. *)
Theorem get_context_out_of_range_shows_last_page (int : string -> option Z)
    (all_articles : list NewsArticlePage.t) (s : string) (n : Z) :
  int s = Some n ->
  n < 1 \/ Paginator.num_pages all_articles 10 < n ->
  get_context int all_articles (Some s)
  = inr (Paginator.mkPage
           (skipn (Z.to_nat (10 * (Paginator.num_pages all_articles 10 - 1))) all_articles)
           (Paginator.num_pages all_articles 10)).
Proof.
  intros Hs Hout.
  destruct (get_context_shown int all_articles (Some s)) as (m & _ & Hrun & _ & Hint).
  destruct (Hint n Hs) as [_ Hlast]. rewrite (Hlast Hout) in Hrun.
  rewrite Hrun. f_equal. f_equal.
  destruct (num_pages_bounds all_articles) as (_ & Hle & _).
  apply firstn_all2. rewrite length_skipn. lia.
Qed.

Lemma get_context_out_of_range_shows_last_page_witness :
  get_context Demo.int Demo.pages_23 (Some "0")
  = inr (Paginator.mkPage (skipn 20 Demo.pages_23) 3).
Proof.
  apply (get_context_out_of_range_shows_last_page Demo.int Demo.pages_23 "0" 0).
  - reflexivity.
  - left. lia.
Defined.

Lemma windows_cover {A : Type} (m : nat) (l : list A) :
  (List.length l <= 10 * m)%nat ->
  List.concat (map (fun k => firstn 10 (skipn (10 * (k - 1)) l)) (seq 1 m)) = l.
Proof.
  revert l; induction m as [|m IH]; intros l H.
  - destruct l; [reflexivity | simpl in H; lia].
  - cbn [seq map List.concat]. rewrite <- seq_shift, map_map.
    rewrite (map_ext_in _ (fun k => firstn 10 (skipn (10 * (k - 1)) (skipn 10 l)))).
    + rewrite IH by (rewrite length_skipn; lia).
      change (10 * (1 - 1))%nat with 0%nat. cbn [skipn].
      apply firstn_skipn.
    + intros k Hk. apply in_seq in Hk.
      rewrite skipn_skipn. f_equal. f_equal. lia.
Qed.

(** X15.  Browsing the pages in order shows every article exactly once
    and in the order of the list: the pages shown for the numbers 1 up to
    the number of pages, put end to end, are the list of all articles. *)
Theorem get_context_pages_cover_all_articles (int : string -> option Z)
    (text : Z -> string) (all_articles : list NewsArticlePage.t) :
  (forall n, int (text n) = Some n) ->
  List.concat (map (fun k =>
                 match get_context int all_articles (Some (text (Z.of_nat k))) with
                 | inr shown => Paginator.object_list shown
                 | inl _ => []
                 end)
              (seq 1 (Z.to_nat (Paginator.num_pages all_articles 10))))
  = all_articles.
Proof.
  intros Hint.
  destruct (num_pages_bounds all_articles) as (Hp1 & Hle & _).
  rewrite (map_ext_in _ (fun k => firstn 10 (skipn (10 * (k - 1)) all_articles))).
  - apply windows_cover. lia.
  - intros k Hk. apply in_seq in Hk.
    destruct (get_context_shown int all_articles (Some (text (Z.of_nat k))))
      as (n & _ & Hrun & _ & Hvalid).
    destruct (Hvalid (Z.of_nat k) (Hint _)) as [Hin _].
    rewrite (Hin ltac:(lia)) in Hrun. rewrite Hrun.
    cbn [Paginator.object_list].
    replace (Z.to_nat (10 * (Z.of_nat k - 1))) with (10 * (k - 1))%nat by lia.
    reflexivity.
Qed.

Lemma demo_int_of_text (n : Z) : Demo.int (str_of_int n) = Some n.
Proof.
  unfold Demo.int, str_of_int. rewrite NilZero.isi.
  - simpl. rewrite DecimalZ.of_to. reflexivity.
  - destruct n; simpl; try discriminate.
    intros H; injection H as H. exact (Unsigned.to_uint_nonnil _ H).
  - destruct n; simpl; try discriminate.
    intros H; injection H as H. exact (Unsigned.to_uint_nonnil _ H).
Qed.

Lemma get_context_pages_cover_all_articles_witness :
  List.concat (map (fun k =>
                 match get_context Demo.int Demo.pages_23
                         (Some (str_of_int (Z.of_nat k))) with
                 | inr shown => Paginator.object_list shown
                 | inl _ => []
                 end)
              (seq 1 (Z.to_nat (Paginator.num_pages Demo.pages_23 10))))
  = Demo.pages_23.
Proof.
  apply (get_context_pages_cover_all_articles Demo.int str_of_int Demo.pages_23).
  exact demo_int_of_text.
Defined.

(* ================================================================= *)
(** * Further paths of the source pass *)

Section ModelAnswers.
Variable w : World.
Variable source : ScrapingSource.t.
Variable news_list_page : NewsListPage.t.
Variable s : State.
Variables (response : Response) (html_snippet : string).
Variables (generated : GenerateContentResponse) (part : string) (more : list string).
Variable raw_text : string.
Hypothesis Hget :
  requests_get w (http_log s) (ScrapingSource.url_to_scrape source) = inr response.
Hypothesis Hstatus : status_error response = None.
Hypothesis Hselect :
  select_one w (content response) (ScrapingSource.html_selector source)
  = Match html_snippet.
Hypothesis Hgenerated :
  generate_content w (model_log s)
    (prompt_of (ScrapingSource.base_url source) html_snippet) = Ok generated.
Hypothesis Hparts : parts generated = part :: more.
Hypothesis Htext : text generated = Ok raw_text.

Lemma scrape_source_after_fetch :
  scrape_source w source news_list_page s
  = bind (extract_articles w (prompt_of (ScrapingSource.base_url source) html_snippet))
      (fun extracted =>
         match extracted with
         | None => ret tt
         | Some validated_articles =>
             for_each (ArticleList.articles validated_articles) (upsert w news_list_page)
         end)
      (after_request s source).
Proof.
  unfold scrape_source.
  erewrite bind_ok; [|eapply fetch_snippet_match; eassumption]. reflexivity.
Qed.

Lemma scrape_source_without_json :
  clean_json_response (VStr raw_text) = None ->
  scrape_source w source news_list_page s
  = (Ok tt,
     set_logs (after_model_call (after_request s source)
                 (prompt_of (ScrapingSource.base_url source) html_snippet))
       (logs s
        ++ [(ERROR, "Could not find a valid JSON object in Gemini's response.")]
        ++ [(ERROR, "--- RAW RESPONSE ---" ++ nl ++ raw_text ++ nl ++ "---")])).
Proof.
  intros Hclean. rewrite scrape_source_after_fetch.
  erewrite bind_ok; [|eapply extract_articles_no_json; eassumption]. reflexivity.
Qed.

Lemma scrape_source_undecodable (cleaned : string) (e : exn) :
  clean_json_response (VStr raw_text) = Some cleaned ->
  json_loads w cleaned = Raise e
  \/ (exists v, json_loads w cleaned = Ok v /\ ArticleList_new w v = Raise e) ->
  scrape_source w source news_list_page s
  = (Ok tt,
     set_logs (after_model_call (after_request s source)
                 (prompt_of (ScrapingSource.base_url source) html_snippet))
       (logs s ++ [(ERROR, "Gemini processing failed: " ++ msg e)])).
Proof.
  intros Hclean Hbad. rewrite scrape_source_after_fetch.
  destruct Hbad as [Hjson | (v & Hjson & Hschema)].
  - erewrite bind_ok; [|eapply extract_articles_malformed; eassumption]. reflexivity.
  - erewrite bind_ok; [|eapply extract_articles_invalid; eassumption]. reflexivity.
Qed.

End ModelAnswers.

(** X16.  When the model's text has no opening or no closing brace, the
    pass over the source logs that no JSON object was found, logs the raw
    text between two marker lines, and returns: nothing is decoded and the
    article table is not touched. *)
Theorem scrape_source_no_json_found (w : World) (source : ScrapingSource.t)
    (news_list_page : NewsListPage.t) (s : State) (response : Response)
    (html_snippet : string) (generated : GenerateContentResponse)
    (part : string) (more : list string) (raw_text : string) :
  requests_get w (http_log s) (ScrapingSource.url_to_scrape source) = inr response ->
  status_error response = None ->
  select_one w (content response) (ScrapingSource.html_selector source)
  = Match html_snippet ->
  generate_content w (model_log s)
    (prompt_of (ScrapingSource.base_url source) html_snippet) = Ok generated ->
  parts generated = part :: more ->
  text generated = Ok raw_text ->
  ~ occurs "{"%char raw_text \/ ~ occurs "}"%char raw_text ->
  exists s',
    scrape_source w source news_list_page s = (Ok tt, s')
    /\ logs s'
       = (logs s
          ++ [(ERROR, "Could not find a valid JSON object in Gemini's response.");
              (ERROR, ("--- RAW RESPONSE ---" ++ nl ++ raw_text ++ nl ++ "---")%string)])%list
    /\ articles s' = articles s.
Proof.
  intros Hget Hst Hsel Hgen Hparts Htext Hbraces.
  apply clean_json_response_none_iff in Hbraces.
  eexists. split.
  - eapply scrape_source_without_json; eassumption.
  - split; reflexivity.
Qed.

Lemma scrape_source_no_json_found_witness :
  exists s',
    scrape_source (Demo.world (Some "k") Demo.main_div "not json at all" [])
      Demo.source_test Demo.listing (Demo.state []) = (Ok tt, s')
    /\ logs s'
       = [(ERROR, "Could not find a valid JSON object in Gemini's response.");
          (ERROR, ("--- RAW RESPONSE ---" ++ nl ++ "not json at all" ++ nl ++ "---")%string)]
    /\ articles s' = [].
Proof.
  apply (scrape_source_no_json_found
           (Demo.world (Some "k") Demo.main_div "not json at all" [])
           Demo.source_test Demo.listing (Demo.state [])
           (mkResponse None Demo.page_html) "<div id='main'>A</div>"
           (mkGenResponse ["not json at all"] (Ok "not json at all") "block_reason: NONE")
           "not json at all" [] "not json at all"); try reflexivity.
  left. apply find_none_iff. vm_compute; reflexivity.
Defined.

(** X17.  When the text cleaned from the model's answer does not decode
    as JSON, or decodes to a value the schema refuses, the pass over the
    source logs one line with the error's message and returns with the
    article table untouched: one invalid article discards the whole
    answer. *)
Theorem scrape_source_invalid_answer (w : World) (source : ScrapingSource.t)
    (news_list_page : NewsListPage.t) (s : State) (response : Response)
    (html_snippet : string) (generated : GenerateContentResponse)
    (part : string) (more : list string) (raw_text cleaned : string) (e : exn) :
  requests_get w (http_log s) (ScrapingSource.url_to_scrape source) = inr response ->
  status_error response = None ->
  select_one w (content response) (ScrapingSource.html_selector source)
  = Match html_snippet ->
  generate_content w (model_log s)
    (prompt_of (ScrapingSource.base_url source) html_snippet) = Ok generated ->
  parts generated = part :: more ->
  text generated = Ok raw_text ->
  clean_json_response (VStr raw_text) = Some cleaned ->
  json_loads w cleaned = Raise e
  \/ (exists v, json_loads w cleaned = Ok v /\ ArticleList_new w v = Raise e) ->
  exists s',
    scrape_source w source news_list_page s = (Ok tt, s')
    /\ logs s' = (logs s ++ [(ERROR, ("Gemini processing failed: " ++ msg e)%string)])%list
    /\ articles s' = articles s.
Proof.
  intros Hget Hst Hsel Hgen Hparts Htext Hclean Hbad.
  eexists. split.
  - eapply scrape_source_undecodable; eassumption.
  - split; reflexivity.
Qed.

Lemma scrape_source_invalid_answer_witness :
  exists s',
    scrape_source (Demo.world (Some "k") Demo.main_div "{broken}" [])
      Demo.source_test Demo.listing (Demo.state [Demo.old_page]) = (Ok tt, s')
    /\ logs s'
       = [(ERROR, "Gemini processing failed: Expecting value: line 1 column 1 (char 0)")]
    /\ articles s' = [Demo.old_page].
Proof.
  apply (scrape_source_invalid_answer
           (Demo.world (Some "k") Demo.main_div "{broken}" [])
           Demo.source_test Demo.listing (Demo.state [Demo.old_page])
           (mkResponse None Demo.page_html) "<div id='main'>A</div>"
           (mkGenResponse ["{broken}"] (Ok "{broken}") "block_reason: NONE")
           "{broken}" [] "{broken}" "{broken}"
           (mkExn JSONDecodeError "Expecting value: line 1 column 1 (char 0)"));
    try reflexivity.
  left. reflexivity.
Defined.

(** X18.  A selector the HTML library refuses is not a request error:
    the exception leaves the pass, the loop and the command.  The run ends
    by raising right after the request to that source; no error line and
    no closing line is logged, the model is not called, and the sources
    after it are not fetched. *)
Theorem invalid_selector_ends_the_run (w : World) (source : ScrapingSource.t)
    (rest : list ScrapingSource.t) (news_list_page : NewsListPage.t) (s : State)
    (response : Response) (message : string) :
  requests_get w (http_log s) (ScrapingSource.url_to_scrape source) = inr response ->
  status_error response = None ->
  select_one w (content response) (ScrapingSource.html_selector source)
  = SelectorInvalid message ->
  exists s',
    process_all w (source :: rest) news_list_page s
    = (Raise (mkExn SelectorSyntaxError message), s')
    /\ logs s'
       = (logs s ++ [(INFO, ("Scraping source: " ++ ScrapingSource.name source)%string)])%list
    /\ http_log s' = (http_log s ++ [ScrapingSource.url_to_scrape source])%list
    /\ model_log s' = model_log s
    /\ articles s' = articles s.
Proof.
  intros Hget Hst Hsel.
  assert (Hpass :
            scrape_source w source news_list_page
              (set_logs s (logs s ++ [(INFO, "Scraping source: " ++ ScrapingSource.name source)]))
            = (Raise (mkExn SelectorSyntaxError message),
               after_request
                 (set_logs s (logs s ++ [(INFO, "Scraping source: " ++ ScrapingSource.name source)]))
                 source)).
  { unfold scrape_source, bind.
    rewrite (fetch_snippet_bad_selector w source
               (set_logs s (logs s ++ [(INFO, "Scraping source: " ++ ScrapingSource.name source)]))
               response message Hget Hst Hsel).
    reflexivity. }
  eexists. split.
  - unfold process_all. rewrite for_each_cons.
    unfold bind at 1. unfold bind at 1. rewrite bind_logger_info, Hpass. reflexivity.
  - repeat split.
Qed.

Lemma invalid_selector_ends_the_run_witness :
  exists s',
    process_all (Demo.world (Some "k") (SelectorInvalid "Malformed selector") EmptyString [])
      [Demo.source_test; Demo.source_other] Demo.listing (Demo.state [])
    = (Raise (mkExn SelectorSyntaxError "Malformed selector"), s')
    /\ logs s' = [(INFO, "Scraping source: Test")]
    /\ http_log s' = ["http://example.com/list"].
Proof.
  destruct (invalid_selector_ends_the_run
              (Demo.world (Some "k") (SelectorInvalid "Malformed selector") EmptyString [])
              Demo.source_test [Demo.source_other] Demo.listing (Demo.state [])
              (mkResponse None Demo.page_html) "Malformed selector")
    as (s' & Hrun & Hlogs & Hhttp & _); try reflexivity.
  exists s'. repeat split; assumption.
Defined.

Lemma string_of_uint_digits (d : Decimal.uint) (k : nat) (c : ascii) :
  String.get k (NilEmpty.string_of_uint d) = Some c -> is_digit c = true.
Proof.
  revert k; induction d; intros k H; simpl in H;
    try discriminate;
    (destruct k as [|k]; [injection H as <-; reflexivity | eapply IHd; exact H]).
Qed.

Lemma str_of_int_digits (n : Z) (k : nat) (c : ascii) :
  0 <= n -> String.get k (str_of_int n) = Some c -> is_digit c = true.
Proof.
  intros Hn. unfold str_of_int, Z.to_int.
  destruct n as [|p|p]; [| |lia].
  - simpl. destruct k as [|[|k]]; simpl; try discriminate.
    intros H; injection H as <-. reflexivity.
  - simpl. unfold NilZero.string_of_uint.
    destruct (Pos.to_uint p) eqn:E; try apply string_of_uint_digits.
    exfalso. exact (Unsigned.to_uint_nonnil p E).
Qed.

Lemma str_of_int_nonempty (n : Z) : str_of_int n <> EmptyString.
Proof.
  unfold str_of_int, Z.to_int.
  destruct n as [|p|p]; simpl; try discriminate.
  unfold NilZero.string_of_uint. destruct (Pos.to_uint p); discriminate.
Qed.

(** X19.  The slug of a created page is [article-gemini-] followed by
    the decimal digits of a number from 0 to 99999, also when the hash of
    the title is negative: it never holds a minus sign or any character
    that is no digit after the prefix.  The slug is a function of the
    title alone: two articles with one title get one slug, whatever their
    summaries and URLs. *)
Theorem created_page_slug (w : World) (news_list_page : NewsListPage.t) :
  (forall a : Article.t,
      exists n,
        0 <= n < 100000
        /\ NewsArticlePage.slug (created_page w news_list_page a)
           = ("article-gemini-" ++ str_of_int n)%string
        /\ str_of_int n <> EmptyString
        /\ forall k c, String.get k (str_of_int n) = Some c -> is_digit c = true)
  /\ (forall title summary1 url1 summary2 url2,
        NewsArticlePage.slug (created_page w news_list_page (Article.mk title summary1 url1))
        = NewsArticlePage.slug (created_page w news_list_page (Article.mk title summary2 url2))).
Proof.
  split.
  - intros a. exists (hash w (Article.title a) mod 100000).
    pose proof (Z.mod_pos_bound (hash w (Article.title a)) 100000 ltac:(lia)) as Hb.
    split; [exact Hb|]. split; [reflexivity|].
    split; [apply str_of_int_nonempty|].
    intros k c. apply str_of_int_digits. lia.
  - reflexivity.
Qed.

Lemma created_page_slug_witness :
  exists n,
    0 <= n < 100000
    /\ NewsArticlePage.slug
         (created_page Demo.plain_world Demo.listing
            (Article.mk "T1" "S1" "http://example.com/a"))
       = ("article-gemini-" ++ str_of_int n)%string
    /\ is_digit "2"%char = true.
Proof.
  destruct (created_page_slug Demo.plain_world Demo.listing) as [H _].
  destruct (H (Article.mk "T1" "S1" "http://example.com/a")) as (n & Hn & Hslug & _ & Hdigits).
  exists n. split; [exact Hn|]. split; [exact Hslug|].
  assert (En : str_of_int n = "2").
  { vm_compute in Hslug. injection Hslug as Hs. symmetry. exact Hs. }
  apply (Hdigits 0%nat). rewrite En. reflexivity.
Defined.
